(** * LuaNLopt: the Lua adapter to NLopt 2.3 (LuaNLopt.cpp)

    A shallow embedding of the adapter's C functions over a model of the
    part of the Lua 5.1 C API and of the NLopt C interface they call.

    - A [lua_Number] is a C double, kept as its IEEE-754 binary64 bit
      pattern, so that equality of numbers is bit identity.
    - The virtual stack of the one [lua_State] is a list kept top first:
      pushing is consing, index -1 is the head, index 1 is the last
      element.
    - The C functions run in a state-and-error monad over [world]: a call
      returns normally, leaves through a Lua error (the longjmp of
      luaL_error / luaL_argerror), or has no defined behaviour in C.
    - Function pointers handed to NLopt are kept as the enumeration of the
      functions whose address the adapter takes. *)

From Stdlib Require Import ZArith Lia.
From stdpp Require Import base numbers option list strings countable gmap fin_maps infinite.

#[local] Open Scope Z_scope.

(** ** Numbers *)

(** [lua_Number] is [double]; [lua_Integer] is [ptrdiff_t] (64 bits). *)
Definition lua_Number := Z.
Definition lua_Integer := Z.

Definition INT_MAX : Z := 2 ^ 31 - 1.
Definition INT64_MIN : Z := - 2 ^ 63.

(** The conversion [(lua_Number) i] of [lua_pushinteger], rounding to
    nearest-even above 2^53. *)
Definition cast_num (i : Z) : lua_Number :=
  if i =? 0 then 0
  else
    let a := Z.abs i in
    let e := Z.log2 a in
    let sign := if i <? 0 then 2 ^ 63 else 0 in
    if e <=? 52 then sign + (e + 1023) * 2 ^ 52 + (a * 2 ^ (52 - e) - 2 ^ 52)
    else
      let sh := e - 52 in
      let q := Z.shiftr a sh in
      let r := a mod 2 ^ sh in
      let half := 2 ^ (sh - 1) in
      let up := if (half <? r) || ((r =? half) && Z.odd q) then 1 else 0 in
      sign + (e + 1023) * 2 ^ 52 + (q - 2 ^ 52) + up.

(** The conversion [(lua_Integer) d] of [lua_tointeger]: truncation toward
    zero; what does not fit gives the x86-64 "integer indefinite" value. *)
Definition lua_number2integer (d : lua_Number) : lua_Integer :=
  let neg := Z.testbit d 63 in
  let ebits := Z.shiftr d 52 mod 2 ^ 11 in
  let m := d mod 2 ^ 52 in
  if ebits =? 0 then 0
  else if ebits =? 2047 then INT64_MIN
  else
    let mant := 2 ^ 52 + m in
    let ex := ebits - 1075 in
    let mag := if 0 <=? ex then mant * 2 ^ ex else mant / 2 ^ (- ex) in
    let v := if neg then - mag else mag in
    if (INT64_MIN <=? v) && (v <? 2 ^ 63) then v else INT64_MIN.

(** The conversions to [int] and to [unsigned] (32 bits, wrapping), and to
    [unsigned long].  The functional cast [unsigned long( i )] of [srand]
    is accepted by MSVC only, where [unsigned long] has 32 bits. *)
Definition cast_int (z : Z) : Z :=
  let u := z mod 2 ^ 32 in if u <=? INT_MAX then u else u - 2 ^ 32.
Definition cast_unsigned (z : Z) : Z := z mod 2 ^ 32.
Definition cast_ulong (z : Z) : Z := z mod 2 ^ 32.

(** The bit patterns of [HUGE_VAL] and [-HUGE_VAL]. *)
Definition HUGE_VAL : lua_Number := 2047 * 2 ^ 52.
Definition neg_HUGE_VAL : lua_Number := 2 ^ 63 + 2047 * 2 ^ 52.

(** ** Lua values *)

Inductive value : Type :=
  | VNil
  | VBoolean (b : bool)
  | VNumber (d : lua_Number)
  | VString (s : string)
  | VTable (r : N)
  | VFunction (fid : N)
  | VUserdata (u : N).

#[global] Instance value_eq_dec : EqDecision value.
Proof. solve_decision. Defined.

Definition value_enc (v : value) : unit + bool + Z + string + N + N + N :=
  match v with
  | VNil => inl (inl (inl (inl (inl (inl tt)))))
  | VBoolean b => inl (inl (inl (inl (inl (inr b)))))
  | VNumber d => inl (inl (inl (inl (inr d))))
  | VString s => inl (inl (inl (inr s)))
  | VTable r => inl (inl (inr r))
  | VFunction f => inl (inr f)
  | VUserdata u => inr u
  end.

Definition value_dec (x : unit + bool + Z + string + N + N + N) : value :=
  match x with
  | inl (inl (inl (inl (inl (inl _))))) => VNil
  | inl (inl (inl (inl (inl (inr b))))) => VBoolean b
  | inl (inl (inl (inl (inr d)))) => VNumber d
  | inl (inl (inl (inr s))) => VString s
  | inl (inl (inr r)) => VTable r
  | inl (inr f) => VFunction f
  | inr u => VUserdata u
  end.

#[global] Instance value_countable : Countable value.
Proof. refine (inj_countable' value_enc value_dec _). by intros []. Defined.

#[global] Instance value_inhabited : Inhabited value := populate VNil.

(** A table maps keys to values other than nil; the tables of the model
    carry no metatable, so [lua_gettable] / [lua_settable] on them are
    the raw accesses. *)
Abbreviation table := (gmap value value).
Abbreviation heap := (gmap N (gmap value value)).

(** What a protected call of a host function gives back. *)
Inductive call_result :=
  | Returns (vs : list value)
  | Raises (e : value).

(** A host function sees its arguments and the tables. *)
Definition lua_function : Type := list value -> heap -> call_result * heap.

(** ** The adapter's and the library's records *)

(** [struct nlopt_opt_holder]: the block of a full userdata, with the
    metatable Lua keeps for it. *)
Record nlopt_opt_holder := Holder {
  d_obj : option N;
  metatable : option N
}.

(** [struct callback_context]; the [lua_State *L] field always holds the
    one state of the model. *)
Record callback_context := Ctx { ref : Z }.

Inductive nlopt_munge := fn_munge_on_destroy | fn_munge_on_copy.
Inductive nlopt_callback := fn_func | fn_mfunc.

(** One entry of the constraint arrays [fc] and [h] of [nlopt_opt_s]. *)
Record nlopt_constraint := Constraint {
  c_m : Z;
  c_f : nlopt_callback;
  c_f_data : option N;
  c_tol : option (list lua_Number)
}.

(** The fields of [struct nlopt_opt_s] the adapter reaches. *)
Record nlopt_opt_s := Opt {
  o_algorithm : Z;
  o_n : Z;
  o_f : option nlopt_callback;
  o_f_data : option N;
  o_maximize : bool;
  o_fc : list nlopt_constraint;
  o_h : list nlopt_constraint;
  o_lb : list lua_Number;
  o_ub : list lua_Number;
  o_xtol_abs : list lua_Number;
  o_munge_on_destroy : option nlopt_munge;
  o_munge_on_copy : option nlopt_munge
}.

(** ** The world *)

(** Ghost trace of what crosses the boundaries. *)
Inductive event :=
  | Ev_pcall (fn : value) (args : list value) (hp : heap) (status : Z)
  | Ev_metamethod (fn : value) (args : list value) (hp : heap)
  | Ev_unref (r : Z)
  | Ev_delete (p : N)
  | Ev_nlopt (fn : string) (args : list Z) (vec : option (list lua_Number)).

Record world := World {
  stack : list value;
  tables : heap;
  funs : N -> lua_function;
  reg_refs : gmap positive value;
  reg_named : gmap string value;
  udata : gmap N nlopt_opt_holder;
  ctxs : gmap N callback_context;
  opts : gmap N nlopt_opt_s;
  malloc_fails : bool;
  trace : list event
}.

Definition set_stack (s : list value) (w : world) : world :=
  World s (tables w) (funs w) (reg_refs w) (reg_named w) (udata w) (ctxs w)
        (opts w) (malloc_fails w) (trace w).
Definition set_tables (t : heap) (w : world) : world :=
  World (stack w) t (funs w) (reg_refs w) (reg_named w) (udata w) (ctxs w)
        (opts w) (malloc_fails w) (trace w).
Definition set_reg_refs (r : gmap positive value) (w : world) : world :=
  World (stack w) (tables w) (funs w) r (reg_named w) (udata w) (ctxs w)
        (opts w) (malloc_fails w) (trace w).
Definition set_udata (u : gmap N nlopt_opt_holder) (w : world) : world :=
  World (stack w) (tables w) (funs w) (reg_refs w) (reg_named w) u (ctxs w)
        (opts w) (malloc_fails w) (trace w).
Definition set_ctxs (c : gmap N callback_context) (w : world) : world :=
  World (stack w) (tables w) (funs w) (reg_refs w) (reg_named w) (udata w) c
        (opts w) (malloc_fails w) (trace w).
Definition set_opts (o : gmap N nlopt_opt_s) (w : world) : world :=
  World (stack w) (tables w) (funs w) (reg_refs w) (reg_named w) (udata w)
        (ctxs w) o (malloc_fails w) (trace w).
Definition log (e : event) (w : world) : world :=
  World (stack w) (tables w) (funs w) (reg_refs w) (reg_named w) (udata w)
        (ctxs w) (opts w) (malloc_fails w) (trace w ++ [e]).

(** ** The monad of the C functions *)

Inductive lua_error :=
  | ArgError (narg : Z) (msg : string)
  | TypeError (narg : Z) (expected : string)
  | RuntimeError (msg : string)
  | HostError (e : value).

Inductive outcome (A : Type) :=
  | Ret (a : A) (w : world)
  | Throw (e : lua_error) (w : world)
  | Undefined.
Arguments Ret {A} a w.
Arguments Throw {A} e w.
Arguments Undefined {A}.

Definition M (A : Type) : Type := world -> outcome A.

#[global] Instance M_ret : MRet M := fun A a w => Ret a w.
#[global] Instance M_bind : MBind M := fun A B k m w =>
  match m w with
  | Ret a w' => k a w'
  | Throw e w' => Throw e w'
  | Undefined => Undefined
  end.

Definition get_world : M world := fun w => Ret w w.
Definition modify (g : world -> world) : M unit := fun w => Ret tt (g w).
Definition throw {A} (e : lua_error) : M A := fun w => Throw e w.
Definition undefined {A} : M A := fun _ => Undefined.
Definition emit (e : event) : M unit := modify (log e).

(** What a run gave: the value returned, the error raised, or a view of
    the value and the final state. *)
Definition returned {A} (o : outcome A) : option A :=
  match o with Ret a _ => Some a | _ => None end.
Definition raised {A} (o : outcome A) : option lua_error :=
  match o with Throw e _ => Some e | _ => None end.
Definition observe {A B} (f : A -> world -> B) (o : outcome A) : option B :=
  match o with Ret a w => Some (f a w) | _ => None end.

(** [for (i = from; i < from + count; i++) acc = body(i, acc)] *)
Fixpoint for_loop {A} (count : nat) (from : Z) (body : Z -> A -> M A) (acc : A) : M A :=
  match count with
  | O => mret acc
  | S c => acc' ← body from acc; for_loop c (from + 1) body acc'
  end.
Definition for_upto {A} (n : Z) (body : Z -> A -> M A) (acc : A) : M A :=
  for_loop (Z.to_nat n) 0 body acc.

(** ** The Lua 5.1 C API, as far as the adapter calls it *)

Definition LUA_REGISTRYINDEX : Z := -10000.
Definition LUA_ERRRUN : Z := 2.
Definition LUA_REFNIL : Z := -1.

(** The value at an acceptable index; [None] is LUA_TNONE. *)
Definition index2adr (idx : Z) (st : list value) : option value :=
  if 0 <? idx then
    if idx <=? Z.of_nat (length st) then st !! (length st - Z.to_nat idx)%nat
    else None
  else if idx <? 0 then st !! (Z.to_nat (- idx) - 1)%nat
  else None.

Definition lua_gettop : M Z := fun w => Ret (Z.of_nat (length (stack w))) w.

Definition push (v : value) : M unit :=
  modify (fun w => set_stack (v :: stack w) w).

Definition pop1 : M value := fun w =>
  match stack w with
  | v :: st => Ret v (set_stack st w)
  | [] => Undefined
  end.

Definition lua_pop (n : Z) : M unit :=
  modify (fun w => set_stack (drop (Z.to_nat n) (stack w)) w).

Definition lua_pushnil : M unit := push VNil.
Definition lua_pushnumber (d : lua_Number) : M unit := push (VNumber d).
Definition lua_pushinteger (i : lua_Integer) : M unit := push (VNumber (cast_num i)).
Definition lua_pushliteral (s : string) : M unit := push (VString s).

Definition lua_pushvalue (idx : Z) : M unit :=
  w ← get_world; push (default VNil (index2adr idx (stack w))).

(** The type tags of lua.h. *)
Definition LUA_TNONE : Z := -1.
Definition LUA_TNIL : Z := 0.
Definition LUA_TBOOLEAN : Z := 1.
Definition LUA_TNUMBER : Z := 3.
Definition LUA_TSTRING : Z := 4.
Definition LUA_TTABLE : Z := 5.
Definition LUA_TFUNCTION : Z := 6.
Definition LUA_TUSERDATA : Z := 7.

Definition type_of (v : option value) : Z :=
  match v with
  | None => LUA_TNONE
  | Some VNil => LUA_TNIL
  | Some (VBoolean _) => LUA_TBOOLEAN
  | Some (VNumber _) => LUA_TNUMBER
  | Some (VString _) => LUA_TSTRING
  | Some (VTable _) => LUA_TTABLE
  | Some (VFunction _) => LUA_TFUNCTION
  | Some (VUserdata _) => LUA_TUSERDATA
  end.

Definition lua_type (idx : Z) : M Z :=
  w ← get_world; mret (type_of (index2adr idx (stack w))).

Definition lua_isnil (idx : Z) : M bool :=
  t ← lua_type idx; mret (t =? LUA_TNIL).
Definition lua_istable (idx : Z) : M bool :=
  t ← lua_type idx; mret (t =? LUA_TTABLE).
Definition lua_isfunction (idx : Z) : M bool :=
  t ← lua_type idx; mret (t =? LUA_TFUNCTION).

Definition tbl_get (k : value) (tb : table) : value := default VNil (tb !! k).

Definition tbl_set (k v : value) (tb : table) : table :=
  match v with
  | VNil => delete k tb
  | _ => <[k := v]> tb
  end.

Definition heap_set (r : N) (k v : value) (hp : heap) : heap :=
  <[r := tbl_set k v (hp !!! r)]> hp.

(** The table at a stack index; the raw accessors have no defined
    behaviour on anything else. *)
Definition index2table (idx : Z) : M N := fun w =>
  match index2adr idx (stack w) with
  | Some (VTable r) => Ret r w
  | _ => Undefined
  end.

Definition lua_rawget (idx : Z) : M unit :=
  r ← index2table idx;
  k ← pop1;
  w ← get_world;
  push (tbl_get k (tables w !!! r)).

Definition lua_rawset (idx : Z) : M unit :=
  r ← index2table idx;
  v ← pop1;
  k ← pop1;
  match k with
  | VNil => throw (RuntimeError "table index is nil")
  | _ => modify (fun w => set_tables (heap_set r k v (tables w)) w)
  end.

Definition registry_get (n : Z) (w : world) : value :=
  match n with
  | Zpos p => default VNil (reg_refs w !! p)
  | _ => VNil
  end.

Definition lua_rawgeti (idx : Z) (n : Z) : M unit :=
  if idx =? LUA_REGISTRYINDEX then
    w ← get_world; push (registry_get n w)
  else
    r ← index2table idx;
    w ← get_world;
    push (tbl_get (VNumber (cast_num n)) (tables w !!! r)).

Definition lua_rawseti (idx : Z) (n : Z) : M unit :=
  r ← index2table idx;
  v ← pop1;
  modify (fun w => set_tables (heap_set r (VNumber (cast_num n)) v (tables w)) w).

Definition lua_newtable : M unit :=
  w ← get_world;
  let r := fresh (dom (tables w)) in
  modify (set_tables (<[r := ∅]> (tables w)));;
  push (VTable r).

Definition lua_createtable (narr nrec : Z) : M unit := lua_newtable.

Definition lua_newuserdata : M N :=
  w ← get_world;
  let u := fresh (dom (udata w)) in
  modify (set_udata (<[u := Holder None None]> (udata w)));;
  push (VUserdata u);;
  mret u.

Definition luaL_getmetatable (tname : string) : M unit :=
  w ← get_world; push (default VNil (reg_named w !! tname)).

Definition lua_setmetatable (idx : Z) : M unit :=
  w ← get_world;
  mt ← pop1;
  match index2adr idx (stack w), mt with
  | Some (VUserdata u), VTable r =>
      modify (fun w => set_udata (alter (fun hd => Holder (d_obj hd) (Some r)) u (udata w)) w)
  | Some (VUserdata u), VNil =>
      modify (fun w => set_udata (alter (fun hd => Holder (d_obj hd) None) u (udata w)) w)
  | _, _ => undefined
  end.

(** The reference system of lauxlib on the registry: [luaL_ref] pops the
    top value and stores it under an integer key that is not in use;
    [luaL_unref] removes the entry and frees the key. *)
Definition luaL_ref_registry : M Z :=
  v ← pop1;
  match v with
  | VNil => mret LUA_REFNIL
  | _ =>
      w ← get_world;
      let p := fresh (dom (reg_refs w)) in
      modify (set_reg_refs (<[p := v]> (reg_refs w)));;
      mret (Zpos p)
  end.

Definition luaL_unref_registry (r : Z) : M unit :=
  if 0 <=? r then
    emit (Ev_unref r);;
    match r with
    | Zpos p => modify (fun w => set_reg_refs (delete p (reg_refs w)) w)
    | _ => mret tt
    end
  else mret tt.

Definition luaL_argerror {A} (narg : Z) (extramsg : string) : M A :=
  throw (ArgError narg extramsg).

Definition luaL_error {A} (msg : string) : M A := throw (RuntimeError msg).

(** [lua_pcall (L, nargs, nresults, 0)]: the function and its arguments
    are popped; the results, adjusted to [nresults], or the error value
    are pushed. *)
Definition lua_pcall (nargs nresults : nat) : M Z := fun w =>
  let st := stack w in
  let args := reverse (take nargs st) in
  let base := drop (S nargs) st in
  match st !! nargs with
  | Some (VFunction fid) =>
      match funs w fid args (tables w) with
      | (Returns vs, hp) =>
          Ret 0 (log (Ev_pcall (VFunction fid) args (tables w) 0)
                   (set_tables hp
                      (set_stack (reverse (take nresults (vs ++ replicate nresults VNil)) ++ base) w)))
      | (Raises e, hp) =>
          Ret LUA_ERRRUN
              (log (Ev_pcall (VFunction fid) args (tables w) LUA_ERRRUN)
                 (set_tables hp (set_stack (e :: base) w)))
      end
  | Some v =>
      Ret LUA_ERRRUN
          (log (Ev_pcall v args (tables w) LUA_ERRRUN)
             (set_stack (VString "attempt to call a non-function value" :: base) w))
  | None => Undefined
  end.

(** ** The C++ free store for [callback_context] and the native buffers *)

Definition new_callback_context : M N :=
  w ← get_world;
  let p := fresh (dom (ctxs w)) in
  modify (set_ctxs (<[p := Ctx 0]> (ctxs w)));;
  mret p.

Definition ctx_read (p : N) : M callback_context := fun w =>
  match ctxs w !! p with
  | Some c => Ret c w
  | None => Undefined
  end.

Definition ctx_set_ref (p : N) (r : Z) : M unit := fun w =>
  match ctxs w !! p with
  | Some _ => Ret tt (set_ctxs (<[p := Ctx r]> (ctxs w)) w)
  | None => Undefined
  end.

Definition delete_ctx (p : N) : M unit := fun w =>
  match ctxs w !! p with
  | Some _ => Ret tt (log (Ev_delete p) (set_ctxs (delete p (ctxs w)) w))
  | None => Undefined
  end.

(** [b[i]] and [b[i] = v] on a native array of doubles. *)
Definition buf_read (b : list lua_Number) (i : Z) : M lua_Number :=
  match b !! Z.to_nat i with
  | Some v => mret v
  | None => undefined
  end.

Definition buf_write (b : list lua_Number) (i : Z) (v : lua_Number) : M (list lua_Number) :=
  if decide (Z.to_nat i < length b)%nat then mret (<[Z.to_nat i := v]> b)
  else undefined.

Fixpoint forM_ {A} (l : list A) (body : A -> M unit) : M unit :=
  match l with
  | [] => mret tt
  | a :: l' => body a;; forM_ l' body
  end.

Fixpoint mapM {A B} (body : A -> M B) (l : list A) : M (list B) :=
  match l with
  | [] => mret []
  | a :: l' => b ← body a; bs ← mapM body l'; mret (b :: bs)
  end.

(** What the optimisation algorithm does between its entry and its return:
    it asks for the objective or for a constraint at points of its choice
    and goes on from the answers. *)
Inductive native_run :=
  | Finish (ret : Z) (x : list lua_Number) (opt_f : option lua_Number)
  | Eval_f (x : list lua_Number) (grad : option (list lua_Number))
           (k : lua_Number -> option (list lua_Number) -> native_run)
  | Eval_c (equality : bool) (i : nat) (result : list lua_Number)
           (x : list lua_Number) (grad : option (list lua_Number))
           (k : list lua_Number -> option (list lua_Number) -> native_run).

Definition nlopt_metaName : string := "nlopt_opt".
Definition NLOPT_SUCCESS : Z := 1.
Definition NLOPT_INVALID_ARGS : Z := -2.

Section Adapter.

(** Outside the repository: the string-to-number coercion of the Lua VM,
    the metatables the Lua state keeps for the basic types ([G(L)->mt]:
    the string library gives strings one, whose [__index] is the table
    [string]; the other types have one after [debug.setmetatable] only),
    the count sentinel of [nlopt_algorithm] in nlopt.h, the library's
    verdict on a constraint it is asked to add, the optimisation
    algorithms, and the indeterminate content of an uninitialised
    [double]. *)
Variable luaO_str2d : string -> option lua_Number.
Variable type_metatable : Z -> option N.
Variable NLOPT_NUM_ALGORITHMS : Z.
Variable nlopt_constraint_check :
  nlopt_opt_s -> bool -> Z -> option (list lua_Number) -> Z.
Variable nlopt_algorithm : nlopt_opt_s -> list lua_Number -> native_run.
Variable indeterminate : lua_Number.

(** [luaT_gettmbyobj]: the metatable of a full userdata is the one of its
    block, the one of a value of a basic type is the one of its type; the
    tables of the model carry none.  A metamethod is the entry of the
    metatable under the event's name. *)
Definition metatable_of (w : world) (v : value) : option N :=
  match v with
  | VTable _ => None
  | VUserdata u => hd ← udata w !! u; metatable hd
  | _ => type_metatable (type_of (Some v))
  end.

Definition metamethod (event : string) (w : world) (v : value) : value :=
  match metatable_of w v with
  | Some m => tbl_get (VString event) (tables w !!! m)
  | None => VNil
  end.

Definition MAXTAGLOOP : nat := 100.

(** A metamethod that is a function is called unprotected: what it
    raises leaves through the C function that indexed. *)
Definition call_metamethod (fid : N) (args : list value) : M (list value) :=
  w ← get_world;
  emit (Ev_metamethod (VFunction fid) args (tables w));;
  match funs w fid args (tables w) with
  | (Returns vs, hp) => modify (set_tables hp);; mret vs
  | (Raises e, hp) => modify (set_tables hp);; throw (HostError e)
  end.

(** [luaV_gettable] and [luaV_settable] (lvm.c): a table is accessed
    raw; anything else goes to its [__index] / [__newindex] metamethod,
    which is called when it is a function and indexed in turn otherwise;
    a value without one cannot be indexed. *)
Fixpoint luaV_gettable (loop : nat) (t key : value) : M value :=
  match loop with
  | O => throw (RuntimeError "loop in gettable")
  | S loop' =>
      w ← get_world;
      match t with
      | VTable r => mret (tbl_get key (tables w !!! r))
      | _ =>
          match metamethod "__index" w t with
          | VNil => throw (RuntimeError "attempt to index a non-table value")
          | VFunction fid =>
              vs ← call_metamethod fid [t; key];
              mret (default VNil (head vs))
          | tm => luaV_gettable loop' tm key
          end
      end
  end.

Fixpoint luaV_settable (loop : nat) (t key val : value) : M unit :=
  match loop with
  | O => throw (RuntimeError "loop in settable")
  | S loop' =>
      w ← get_world;
      match t with
      | VTable r =>
          match key with
          | VNil => throw (RuntimeError "table index is nil")
          | _ => modify (fun w => set_tables (heap_set r key val (tables w)) w)
          end
      | _ =>
          match metamethod "__newindex" w t with
          | VNil => throw (RuntimeError "attempt to index a non-table value")
          | VFunction fid =>
              call_metamethod fid [t; key; val];;
              mret tt
          | tm => luaV_settable loop' tm key val
          end
      end
  end.

(** [lua_gettable] replaces the key on top of the stack by the value
    found; [lua_settable] pops the key and the value.  An index that
    designates nothing reads as nil. *)
Definition lua_gettable (idx : Z) : M unit :=
  w ← get_world;
  match index2adr idx (stack w) with
  | Some (VTable r) =>
      k ← pop1;
      push (tbl_get k (tables w !!! r))
  | t =>
      match stack w with
      | k :: _ =>
          v ← luaV_gettable MAXTAGLOOP (default VNil t) k;
          pop1;;
          push v
      | [] => undefined
      end
  end.

Definition lua_settable (idx : Z) : M unit :=
  w ← get_world;
  match index2adr idx (stack w) with
  | Some (VTable r) =>
      v ← pop1;
      k ← pop1;
      match k with
      | VNil => throw (RuntimeError "table index is nil")
      | _ => modify (fun w => set_tables (heap_set r k v (tables w)) w)
      end
  | t =>
      match stack w with
      | v :: k :: _ =>
          luaV_settable MAXTAGLOOP (default VNil t) k v;;
          lua_pop 2
      | _ => undefined
      end
  end.

Definition tonumber (v : option value) : lua_Number :=
  match v with
  | Some (VNumber d) => d
  | Some (VString s) => default 0 (luaO_str2d s)
  | _ => 0
  end.

Definition isnumber (v : option value) : bool :=
  match v with
  | Some (VNumber _) => true
  | Some (VString s) => bool_decide (is_Some (luaO_str2d s))
  | _ => false
  end.

Definition lua_tonumber (idx : Z) : M lua_Number :=
  w ← get_world; mret (tonumber (index2adr idx (stack w))).

Definition luaL_checkinteger (narg : Z) : M lua_Integer :=
  w ← get_world;
  let v := index2adr narg (stack w) in
  let d := lua_number2integer (tonumber v) in
  if (d =? 0) && negb (isnumber v) then throw (TypeError narg "number")
  else mret d.

Definition luaL_checknumber (narg : Z) : M lua_Number :=
  w ← get_world;
  let v := index2adr narg (stack w) in
  let d := tonumber v in
  if (d =? 0) && negb (isnumber v) then throw (TypeError narg "number")
  else mret d.

Definition luaL_checktype (narg : Z) (t : Z) : M unit :=
  t' ← lua_type narg;
  if t' =? t then mret tt
  else throw (TypeError narg "type").

Definition luaL_checkudata (ud : Z) (tname : string) : M N :=
  w ← get_world;
  match index2adr ud (stack w) with
  | Some (VUserdata u) =>
      match udata w !! u with
      | Some hd =>
          match metatable hd, reg_named w !! tname with
          | Some r, Some (VTable r') =>
              if (r =? r')%N then mret u
              else throw (TypeError ud tname)
          | _, _ => throw (TypeError ud tname)
          end
      | None => throw (TypeError ud tname)
      end
  | _ => throw (TypeError ud tname)
  end.

(** [holder->d_obj] and [holder->d_obj = obj] *)
Definition holder_obj (u : N) : M (option N) := fun w =>
  match udata w !! u with
  | Some hd => Ret (d_obj hd) w
  | None => Undefined
  end.

Definition holder_set_obj (u : N) (obj : option N) : M unit := fun w =>
  match udata w !! u with
  | Some hd => Ret tt (set_udata (<[u := Holder obj (metatable hd)]> (udata w)) w)
  | None => Undefined
  end.

(** ** The trampolines and the munge hooks (LuaNLopt.cpp)

    Three pieces of code recur verbatim in the trampolines and are named
    once here. *)

(** [lua_pushliteral(L, name); lua_rawget(L, t); if (!lua_istable(L, -1))
    { lua_pop(L, 1); lua_newtable(L); lua_pushliteral(L, name);
      lua_pushvalue(L, -2); lua_rawset(L, t); }]: the scratch table kept
    in the closure record under [name] is pushed, created if missing. *)
Definition scratch_table (t : Z) (name : string) : M unit :=
  lua_pushliteral name;;
  lua_rawget t;;
  ist ← lua_istable (-1);
  if negb ist then
    lua_pop 1;;
    lua_newtable;;
    lua_pushliteral name;;
    lua_pushvalue (-2);;
    lua_rawset t
  else mret tt.

(** [for (i = 0; i < n; i++) { lua_pushnumber(L, b[i]);
    lua_rawseti(L, idx, i + 1); }] *)
Definition store_array (idx n : Z) (b : list lua_Number) : M unit :=
  for_upto n (fun i _ =>
    v ← buf_read b i;
    lua_pushnumber v;;
    lua_rawseti idx (cast_int (i + 1))) tt.

(** [for (i = 0; i < n; i++) { lua_rawgeti(L, idx, i + 1);
    b[i] = lua_tonumber(L, -1); lua_pop(L, 1); }] *)
Definition load_array (idx n : Z) (b : list lua_Number) : M (list lua_Number) :=
  for_upto n (fun i b =>
    lua_rawgeti idx (cast_int (i + 1));;
    v ← lua_tonumber (-1);
    b' ← buf_write b i v;
    lua_pop 1;;
    mret b') b.

Definition func (n : Z) (x : list lua_Number) (grad : option (list lua_Number))
    (f_data : option N) : M (lua_Number * option (list lua_Number)) :=
  match f_data with
  | Some p =>
      ctx ← ctx_read p;
      lua_rawgeti LUA_REGISTRYINDEX (ref ctx);;
      t ← lua_gettop;
      lua_pushliteral "f";;
      lua_rawget t;;
      isf ← lua_isfunction (-1);
      if negb isf then
        lua_pop 2;;
        mret (0, grad)
      else
        lua_pushinteger n;;
        scratch_table t "x";;
        xt ← lua_gettop;
        store_array xt n x;;
        match grad with
        | Some g =>
            scratch_table t "grad";;
            gradt ← lua_gettop;
            store_array gradt n g
        | None =>
            lua_pushliteral "grad";;
            lua_pushnil;;
            lua_rawset t;;
            lua_pushnil
        end;;
        lua_pushliteral "f_data";;
        lua_rawget t;;
        st ← lua_pcall 4 1;
        if st =? 0 then
          res ← lua_tonumber (-1);
          lua_pop 1;;
          grad' ← match grad with
                  | Some g =>
                      lua_pushliteral "grad";;
                      lua_rawget t;;
                      gradt ← lua_gettop;
                      g' ← load_array gradt n g;
                      lua_pop 1;;
                      mret (Some g')
                  | None => mret None
                  end;
          lua_pop 1;;
          mret (res, grad')
        else
          lua_pop 2;;
          mret (0, grad)
  | None => mret (0, grad)
  end.

Definition munge_on_destroy (f_data : option N) : M (option N) :=
  match f_data with
  | Some p =>
      ctx ← ctx_read p;
      luaL_unref_registry (ref ctx);;
      delete_ctx p;;
      mret None
  | None => mret None
  end.

Definition munge_on_copy (f_data : option N) : M (option N) :=
  match f_data with
  | Some p =>
      ctx ← ctx_read p;
      lua_rawgeti LUA_REGISTRYINDEX (ref ctx);;
      source ← lua_gettop;
      ctx_new ← new_callback_context;
      lua_newtable;;
      t ← lua_gettop;
      lua_pushvalue t;;
      r ← luaL_ref_registry;
      ctx_set_ref ctx_new r;;
      lua_pushliteral "f";;
      lua_pushvalue (-1);;
      lua_rawget source;;
      lua_rawset t;;
      lua_pushliteral "f_data";;
      lua_pushvalue (-1);;
      lua_rawget source;;
      lua_rawset t;;
      lua_pop 2;;
      mret (Some ctx_new)
  | None => mret None
  end.

Definition mfunc (m : Z) (result : list lua_Number) (n : Z) (x : list lua_Number)
    (grad : option (list lua_Number)) (f_data : option N)
  : M (list lua_Number * option (list lua_Number)) :=
  match f_data with
  | Some p =>
      ctx ← ctx_read p;
      lua_rawgeti LUA_REGISTRYINDEX (ref ctx);;
      t ← lua_gettop;
      lua_pushliteral "f";;
      lua_rawget t;;
      isf ← lua_isfunction (-1);
      if negb isf then
        lua_pop 2;;
        mret (result, grad)
      else
        lua_pushinteger m;;
        scratch_table t "result";;
        resultt ← lua_gettop;
        store_array resultt m result;;
        lua_pushinteger n;;
        scratch_table t "x";;
        xt ← lua_gettop;
        store_array xt n x;;
        match grad with
        | Some g =>
            scratch_table t "grad";;
            gradt ← lua_gettop;
            store_array gradt (cast_unsigned (n * m)) g
        | None =>
            lua_pushliteral "grad";;
            lua_pushnil;;
            lua_rawset t;;
            lua_pushnil
        end;;
        lua_pushliteral "f_data";;
        lua_rawget t;;
        st ← lua_pcall 6 0;
        if st =? 0 then
          lua_pushliteral "result";;
          lua_rawget t;;
          resultt ← lua_gettop;
          result' ← load_array resultt m result;
          grad' ← match grad with
                  | Some g =>
                      lua_pushliteral "grad";;
                      lua_rawget t;;
                      gradt ← lua_gettop;
                      g' ← load_array gradt n g;
                      lua_pop 1;;
                      mret (Some g')
                  | None => mret None
                  end;
          lua_pop 1;;
          mret (result', grad')
        else
          lua_pop 2;;
          mret (result, grad)
  | None => mret (result, grad)
  end.

(** ** The NLopt 2.3 interface, as far as the adapter calls it

    The library keeps one opaque pointer per callback and hands it to the
    munge hooks when it copies, replaces or drops the callback. *)

Definition call_munge (hook : nlopt_munge) (p : option N) : M (option N) :=
  match hook with
  | fn_munge_on_destroy => munge_on_destroy p
  | fn_munge_on_copy => munge_on_copy p
  end.

Definition opt_read (o : N) : M nlopt_opt_s := fun w =>
  match opts w !! o with
  | Some os => Ret os w
  | None => Undefined
  end.

Definition opt_write (o : N) (os : nlopt_opt_s) : M unit :=
  modify (fun w => set_opts (<[o := os]> (opts w)) w).

Definition opt_free (o : N) : M unit :=
  modify (fun w => set_opts (delete o (opts w)) w).

Definition with_munge (d c : option nlopt_munge) (os : nlopt_opt_s) : nlopt_opt_s :=
  Opt (o_algorithm os) (o_n os) (o_f os) (o_f_data os) (o_maximize os) (o_fc os)
      (o_h os) (o_lb os) (o_ub os) (o_xtol_abs os) d c.
Definition with_objective (f : nlopt_callback) (p : option N) (mx : bool)
    (os : nlopt_opt_s) : nlopt_opt_s :=
  Opt (o_algorithm os) (o_n os) (Some f) p mx (o_fc os) (o_h os) (o_lb os)
      (o_ub os) (o_xtol_abs os) (o_munge_on_destroy os) (o_munge_on_copy os).
Definition with_fc (l : list nlopt_constraint) (os : nlopt_opt_s) : nlopt_opt_s :=
  Opt (o_algorithm os) (o_n os) (o_f os) (o_f_data os) (o_maximize os) l (o_h os)
      (o_lb os) (o_ub os) (o_xtol_abs os) (o_munge_on_destroy os) (o_munge_on_copy os).
Definition with_h (l : list nlopt_constraint) (os : nlopt_opt_s) : nlopt_opt_s :=
  Opt (o_algorithm os) (o_n os) (o_f os) (o_f_data os) (o_maximize os) (o_fc os) l
      (o_lb os) (o_ub os) (o_xtol_abs os) (o_munge_on_destroy os) (o_munge_on_copy os).
Definition with_lb (l : list lua_Number) (os : nlopt_opt_s) : nlopt_opt_s :=
  Opt (o_algorithm os) (o_n os) (o_f os) (o_f_data os) (o_maximize os) (o_fc os)
      (o_h os) l (o_ub os) (o_xtol_abs os) (o_munge_on_destroy os) (o_munge_on_copy os).
Definition with_ub (l : list lua_Number) (os : nlopt_opt_s) : nlopt_opt_s :=
  Opt (o_algorithm os) (o_n os) (o_f os) (o_f_data os) (o_maximize os) (o_fc os)
      (o_h os) (o_lb os) l (o_xtol_abs os) (o_munge_on_destroy os) (o_munge_on_copy os).
Definition with_xtol_abs (l : list lua_Number) (os : nlopt_opt_s) : nlopt_opt_s :=
  Opt (o_algorithm os) (o_n os) (o_f os) (o_f_data os) (o_maximize os) (o_fc os)
      (o_h os) (o_lb os) (o_ub os) l (o_munge_on_destroy os) (o_munge_on_copy os).
Definition with_f_data (p : option N) (os : nlopt_opt_s) : nlopt_opt_s :=
  Opt (o_algorithm os) (o_n os) (o_f os) p (o_maximize os) (o_fc os)
      (o_h os) (o_lb os) (o_ub os) (o_xtol_abs os) (o_munge_on_destroy os)
      (o_munge_on_copy os).
Definition with_c_f_data (p : option N) (c : nlopt_constraint) : nlopt_constraint :=
  Constraint (c_m c) (c_f c) p (c_tol c).

Definition nlopt_srand (seed : Z) : M unit :=
  emit (Ev_nlopt "nlopt_srand" [seed] None).

Definition nlopt_create (algorithm n : Z) : M (option N) :=
  emit (Ev_nlopt "nlopt_create" [algorithm; n] None);;
  w ← get_world;
  if (algorithm <? 0) || (NLOPT_NUM_ALGORITHMS <=? algorithm) || malloc_fails w
  then mret None
  else
    let o := fresh (dom (opts w)) in
    opt_write o (Opt algorithm n None None false [] []
                     (replicate (Z.to_nat n) neg_HUGE_VAL)
                     (replicate (Z.to_nat n) HUGE_VAL)
                     (replicate (Z.to_nat n) 0) None None);;
    mret (Some o).

Definition nlopt_set_munge (opt : option N) (d c : option nlopt_munge) : M unit :=
  match opt with
  | Some o => os ← opt_read o; opt_write o (with_munge d c os)
  | None => mret tt
  end.

(** [munge(opt->f_data)] for every callback of [l]. *)
Definition munge_constraints (hook : nlopt_munge) (l : list nlopt_constraint) : M unit :=
  forM_ l (fun c => call_munge hook (c_f_data c);; mret tt).

Definition nlopt_destroy (opt : option N) : M unit :=
  emit (Ev_nlopt "nlopt_destroy" [] None);;
  match opt with
  | Some o =>
      os ← opt_read o;
      match o_munge_on_destroy os with
      | Some munge =>
          call_munge munge (o_f_data os);;
          munge_constraints munge (o_fc os);;
          munge_constraints munge (o_h os)
      | None => mret tt
      end;;
      opt_free o
  | None => mret tt
  end.

(** [if (p && !(p = munge(p))) goto oom]: [None] stands for the jump. *)
Definition copy_f_data (munge : option nlopt_munge) (p : option N) : M (option (option N)) :=
  match munge, p with
  | Some hook, Some _ =>
      p' ← call_munge hook p;
      mret (match p' with Some _ => Some p' | None => None end)
  | _, _ => mret (Some p)
  end.

Fixpoint copy_constraints (munge : option nlopt_munge) (l : list nlopt_constraint)
  : M (option (list nlopt_constraint)) :=
  match l with
  | [] => mret (Some [])
  | c :: l' =>
      p ← copy_f_data munge (c_f_data c);
      match p with
      | Some p' =>
          r ← copy_constraints munge l';
          mret (match r with Some cs => Some (with_c_f_data p' c :: cs) | None => None end)
      | None => mret None
      end
  end.

Definition nlopt_copy (opt : option N) : M (option N) :=
  emit (Ev_nlopt "nlopt_copy" [] None);;
  match opt with
  | Some o =>
      os ← opt_read o;
      w ← get_world;
      if malloc_fails w then mret None
      else
        let munge := o_munge_on_copy os in
        fd ← copy_f_data munge (o_f_data os);
        match fd with
        | Some fd' =>
            fc ← copy_constraints munge (o_fc os);
            match fc with
            | Some fc' =>
                h ← copy_constraints munge (o_h os);
                match h with
                | Some h' =>
                    w ← get_world;
                    let o' := fresh (dom (opts w)) in
                    opt_write o' (with_h h' (with_fc fc' (with_f_data fd' os)));;
                    mret (Some o')
                | None => mret None
                end
            | None => mret None
            end
        | None => mret None
        end
  | None => mret None
  end.

Definition nlopt_get_dimension (opt : option N) : M Z :=
  match opt with
  | Some o => os ← opt_read o; mret (o_n os)
  | None => undefined
  end.

Definition nlopt_set_objective (mx : bool) (opt : option N) (f : nlopt_callback)
    (f_data : option N) : M Z :=
  emit (Ev_nlopt "nlopt_set_objective" [] None);;
  match opt with
  | Some o =>
      os ← opt_read o;
      match o_munge_on_destroy os with
      | Some munge => call_munge munge (o_f_data os);; mret tt
      | None => mret tt
      end;;
      opt_write o (with_objective f f_data mx os);;
      mret NLOPT_SUCCESS
  | None => mret NLOPT_INVALID_ARGS
  end.
Definition nlopt_set_min_objective := nlopt_set_objective false.
Definition nlopt_set_max_objective := nlopt_set_objective true.

(** The four [nlopt_add_*_constraint] entries: the callback is kept when
    the library accepts it and handed to the destroy hook when it is
    refused or empty. *)
Definition nlopt_add_constraint (equality : bool) (opt : option N) (m : Z)
    (f : nlopt_callback) (fc_data : option N) (tol : option (list lua_Number)) : M Z :=
  emit (Ev_nlopt "nlopt_add_constraint" [m] tol);;
  match opt with
  | Some o =>
      os ← opt_read o;
      if m =? 0 then
        match o_munge_on_destroy os with
        | Some munge => call_munge munge fc_data;; mret NLOPT_SUCCESS
        | None => mret NLOPT_SUCCESS
        end
      else
        let ret := nlopt_constraint_check os equality m tol in
        if ret <? 0 then
          match o_munge_on_destroy os with
          | Some munge => call_munge munge fc_data;; mret ret
          | None => mret ret
          end
        else
          let c := Constraint m f fc_data tol in
          opt_write o (if equality then with_h (o_h os ++ [c]) os
                       else with_fc (o_fc os ++ [c]) os);;
          mret ret
  | None => mret (if m =? 0 then NLOPT_SUCCESS else NLOPT_INVALID_ARGS)
  end.
Definition nlopt_add_inequality_constraint opt f fc_data (tol : lua_Number) :=
  nlopt_add_constraint false opt 1 f fc_data (Some [tol]).
Definition nlopt_add_equality_constraint opt f fc_data (tol : lua_Number) :=
  nlopt_add_constraint true opt 1 f fc_data (Some [tol]).
Definition nlopt_add_inequality_mconstraint opt m f fc_data tol :=
  nlopt_add_constraint false opt m f fc_data tol.
Definition nlopt_add_equality_mconstraint opt m f fc_data tol :=
  nlopt_add_constraint true opt m f fc_data tol.

Definition nlopt_remove_constraints (equality : bool) (opt : option N) : M Z :=
  emit (Ev_nlopt "nlopt_remove_constraints" [] None);;
  match opt with
  | Some o =>
      os ← opt_read o;
      match o_munge_on_destroy os with
      | Some munge => munge_constraints munge (if equality then o_h os else o_fc os)
      | None => mret tt
      end;;
      opt_write o (if equality then with_h [] os else with_fc [] os);;
      mret NLOPT_SUCCESS
  | None => mret NLOPT_INVALID_ARGS
  end.
Definition nlopt_remove_inequality_constraints := nlopt_remove_constraints false.
Definition nlopt_remove_equality_constraints := nlopt_remove_constraints true.

(** The vector setters and getters [memcpy] [opt->n] doubles. *)
Inductive vec_field := F_lb | F_ub | F_xtol_abs.

Definition vec_get (fld : vec_field) (os : nlopt_opt_s) : list lua_Number :=
  match fld with F_lb => o_lb os | F_ub => o_ub os | F_xtol_abs => o_xtol_abs os end.
Definition vec_put (fld : vec_field) (l : list lua_Number) (os : nlopt_opt_s) : nlopt_opt_s :=
  match fld with F_lb => with_lb l os | F_ub => with_ub l os | F_xtol_abs => with_xtol_abs l os end.

Definition nlopt_set_vec (fld : vec_field) (opt : option N) (v : list lua_Number) : M Z :=
  emit (Ev_nlopt "nlopt_set_vec" [] (Some v));;
  match opt with
  | Some o =>
      os ← opt_read o;
      if decide (Z.to_nat (o_n os) <= length v)%nat then
        opt_write o (vec_put fld (take (Z.to_nat (o_n os)) v) os);;
        mret NLOPT_SUCCESS
      else undefined
  | None => mret NLOPT_INVALID_ARGS
  end.
Definition nlopt_set_lower_bounds := nlopt_set_vec F_lb.
Definition nlopt_set_upper_bounds := nlopt_set_vec F_ub.
Definition nlopt_set_xtol_abs := nlopt_set_vec F_xtol_abs.

Definition nlopt_get_vec (fld : vec_field) (opt : option N) (buf : list lua_Number)
  : M (Z * list lua_Number) :=
  emit (Ev_nlopt "nlopt_get_vec" [] None);;
  match opt with
  | Some o =>
      os ← opt_read o;
      let n := Z.to_nat (o_n os) in
      if decide (n <= length buf ∧ n <= length (vec_get fld os))%nat then
        mret (NLOPT_SUCCESS, take n (vec_get fld os) ++ drop n buf)
      else undefined
  | None => mret (NLOPT_INVALID_ARGS, buf)
  end.
Definition nlopt_get_lower_bounds := nlopt_get_vec F_lb.
Definition nlopt_get_upper_bounds := nlopt_get_vec F_ub.
Definition nlopt_get_xtol_abs := nlopt_get_vec F_xtol_abs.

(** One run of the optimiser: it calls the registered callbacks with the
    pointers it keeps for them. *)
Fixpoint run_native (o : N) (r : native_run) (opt_f : lua_Number)
  : M (Z * list lua_Number * lua_Number) :=
  match r with
  | Finish ret x' f' => mret (ret, x', default opt_f f')
  | Eval_f x grad k =>
      os ← opt_read o;
      match o_f os with
      | Some fn_func =>
          vg ← func (o_n os) x grad (o_f_data os);
          run_native o (k vg.1 vg.2) opt_f
      | _ => undefined
      end
  | Eval_c equality i result x grad k =>
      os ← opt_read o;
      match (if equality then o_h os else o_fc os) !! i with
      | Some c =>
          match c_f c with
          | fn_func =>
              vg ← func (o_n os) x grad (c_f_data c);
              run_native o (k [vg.1] vg.2) opt_f
          | fn_mfunc =>
              rg ← mfunc (c_m c) result (o_n os) x grad (c_f_data c);
              run_native o (k rg.1 rg.2) opt_f
          end
      | None => undefined
      end
  end.

Definition nlopt_optimize (opt : option N) (x : list lua_Number) (opt_f : lua_Number)
  : M (Z * list lua_Number * lua_Number) :=
  emit (Ev_nlopt "nlopt_optimize" [] (Some x));;
  match opt with
  | Some o => os ← opt_read o; run_native o (nlopt_algorithm os x) opt_f
  | None => mret (NLOPT_INVALID_ARGS, x, opt_f)
  end.

(** ** The functions exported to Lua (LuaNLopt.cpp) *)

Definition srand : M Z :=
  i ← luaL_checkinteger 1;
  (if i <? 0 then luaL_argerror 1 "expecting unsigned long" else mret tt);;
  nlopt_srand (cast_ulong i);;
  mret 0.

Definition create : M Z :=
  algorithm ← luaL_checkinteger 1;
  (if (algorithm <? 0) || (NLOPT_NUM_ALGORITHMS <=? algorithm)
   then luaL_argerror 1 "expecting nlopt.algorithm" else mret tt);;
  n ← luaL_checkinteger 2;
  (if n <? 0 then luaL_argerror 2 "expecting unsigned integer" else mret tt);;
  obj ← nlopt_create algorithm (cast_unsigned n);
  (if obj is None then luaL_error "nlopt_create out of memory" else mret tt);;
  nlopt_set_munge obj (Some fn_munge_on_destroy) (Some fn_munge_on_copy);;
  holder ← lua_newuserdata;
  holder_set_obj holder obj;;
  luaL_getmetatable nlopt_metaName;;
  ist ← lua_istable (-1);
  (if negb ist then luaL_error "internal error: no meta table for 'nlopt_opt'"
   else mret tt);;
  lua_setmetatable (-2);;
  mret 1.

Definition check (narg : Z) : M N := luaL_checkudata narg nlopt_metaName.

Definition finalize_nlopt_opt_s : M Z :=
  holder ← check 1;
  obj ← holder_obj holder;
  nlopt_destroy obj;;
  mret 0.

Definition copy : M Z :=
  rhs ← check 1;
  src ← holder_obj rhs;
  obj ← nlopt_copy src;
  (if obj is None then luaL_error "nlopt_copy out of memory" else mret tt);;
  lhs ← lua_newuserdata;
  holder_set_obj lhs obj;;
  luaL_getmetatable nlopt_metaName;;
  ist ← lua_istable (-1);
  (if negb ist then luaL_error "internal error: no meta table for 'nlopt_opt'"
   else mret tt);;
  lua_setmetatable (-2);;
  mret 1.

(** [std::vector<double> v( n )] for an [int n]: a negative [n] converts
    to a size no allocation can serve, and the exception leaves through
    the C frames of Lua. *)
Definition new_vector (n : Z) : M (list lua_Number) :=
  if n <? 0 then undefined else mret (replicate (Z.to_nat n) 0).

(** [for (i = 0; i < n; i++) { lua_pushinteger(L, i + 1);
    lua_gettable(L, idx); v[i] = lua_tonumber(L, -1); lua_pop(L, 1); }] *)
Definition read_vector (idx : Z) (n : Z) (v : list lua_Number) : M (list lua_Number) :=
  for_upto n (fun i v =>
    lua_pushinteger (i + 1);;
    lua_gettable idx;;
    d ← lua_tonumber (-1);
    lua_pop 1;;
    mret (<[Z.to_nat i := d]> v)) v.

Definition set_vec (nlopt_set : option N -> list lua_Number -> M Z) : M Z :=
  holder ← check 1;
  luaL_checktype 2 LUA_TTABLE;;
  obj ← holder_obj holder;
  dim ← nlopt_get_dimension obj;
  let n := cast_int dim in
  lb ← new_vector n;
  lb ← read_vector 2 n lb;
  r ← nlopt_set obj lb;
  lua_pushinteger r;;
  mret 1.

Definition get_vec (nlopt_get : option N -> list lua_Number -> M (Z * list lua_Number))
  : M Z :=
  holder ← check 1;
  obj ← holder_obj holder;
  dim ← nlopt_get_dimension obj;
  let n := cast_int dim in
  lb ← new_vector n;
  rl ← nlopt_get obj lb;
  lua_pushinteger rl.1;;
  lua_createtable n 0;;
  store_array (-2) n rl.2;;
  mret 2.

Definition set_lower_bounds : M Z := set_vec nlopt_set_lower_bounds.
Definition set_upper_bounds : M Z := set_vec nlopt_set_upper_bounds.
Definition set_xtol_abs : M Z := set_vec nlopt_set_xtol_abs.
Definition get_lower_bounds : M Z := get_vec nlopt_get_lower_bounds.
Definition get_upper_bounds : M Z := get_vec nlopt_get_upper_bounds.
Definition get_xtol_abs : M Z := get_vec nlopt_get_xtol_abs.

(** The registration block that set_min_objective, set_max_objective and
    the four add_*constraint functions each spell out: a new
    [callback_context], a new table anchored in the registry, and the
    callable and the user data copied into it from the stack indices
    [f_idx] and [data_idx]. *)
Definition register_callback (f_idx data_idx : Z) : M N :=
  ctx ← new_callback_context;
  lua_newtable;;
  t ← lua_gettop;
  lua_pushvalue t;;
  r ← luaL_ref_registry;
  ctx_set_ref ctx r;;
  lua_pushliteral "f";;
  lua_pushvalue f_idx;;
  lua_rawset t;;
  lua_pushliteral "f_data";;
  lua_pushvalue data_idx;;
  lua_rawset t;;
  lua_pop 1;;
  mret ctx.

Definition set_min_objective : M Z :=
  holder ← check 1;
  luaL_checktype 2 LUA_TFUNCTION;;
  ctx ← register_callback 2 3;
  obj ← holder_obj holder;
  r ← nlopt_set_min_objective obj fn_func (Some ctx);
  lua_pushinteger r;;
  mret 1.

Definition set_max_objective : M Z :=
  holder ← check 1;
  luaL_checktype 2 LUA_TFUNCTION;;
  ctx ← register_callback 2 3;
  obj ← holder_obj holder;
  r ← nlopt_set_max_objective obj fn_func (Some ctx);
  lua_pushinteger r;;
  mret 1.

Definition add_inequality_constraint : M Z :=
  holder ← check 1;
  luaL_checktype 2 LUA_TFUNCTION;;
  ctx ← register_callback 2 3;
  obj ← holder_obj holder;
  tol ← lua_tonumber 4;
  r ← nlopt_add_inequality_constraint obj fn_func (Some ctx) tol;
  lua_pushinteger r;;
  mret 1.

Definition add_equality_constraint : M Z :=
  holder ← check 1;
  luaL_checktype 2 LUA_TFUNCTION;;
  ctx ← register_callback 2 3;
  obj ← holder_obj holder;
  tol ← lua_tonumber 4;
  r ← nlopt_add_equality_constraint obj fn_func (Some ctx) tol;
  lua_pushinteger r;;
  mret 1.

Definition remove_inequality_constraints : M Z :=
  holder ← check 1;
  obj ← holder_obj holder;
  r ← nlopt_remove_inequality_constraints obj;
  lua_pushinteger r;;
  mret 1.

Definition remove_equality_constraints : M Z :=
  holder ← check 1;
  obj ← holder_obj holder;
  r ← nlopt_remove_equality_constraints obj;
  lua_pushinteger r;;
  mret 1.

Definition add_mconstraint
    (nlopt_add : option N -> Z -> nlopt_callback -> option N ->
                 option (list lua_Number) -> M Z) : M Z :=
  holder ← check 1;
  mi ← luaL_checkinteger 2;
  let m := cast_int mi in
  luaL_checktype 3 LUA_TFUNCTION;;
  isn ← lua_isnil 5;
  ist ← lua_istable 5;
  (if negb isn && ist then luaL_argerror 5 "expecting table or nil" else mret tt);;
  ctx ← register_callback 3 4;
  obj ← holder_obj holder;
  isn ← lua_isnil 5;
  (if (isn : bool) then
     r ← nlopt_add obj (cast_unsigned m) fn_mfunc (Some ctx) None;
     lua_pushinteger r
   else
     tol ← new_vector m;
     tol ← read_vector 5 m tol;
     m2 ← lua_tonumber 2;
     r ← nlopt_add obj (cast_unsigned (lua_number2integer m2)) fn_mfunc (Some ctx) (Some tol);
     lua_pushinteger r);;
  mret 1.

Definition add_inequality_mconstraint : M Z :=
  add_mconstraint nlopt_add_inequality_mconstraint.
Definition add_equality_mconstraint : M Z :=
  add_mconstraint nlopt_add_equality_mconstraint.

(** [for (i = 0; i < n; i++) { lua_pushinteger(L, i + 1);
    lua_pushnumber(L, x[i]); lua_settable(L, idx); }] *)
Definition write_back (idx n : Z) (x : list lua_Number) : M unit :=
  for_upto n (fun i _ =>
    lua_pushinteger (i + 1);;
    xi ← buf_read x i;
    lua_pushnumber xi;;
    lua_settable idx) tt.

Definition optimize : M Z :=
  holder ← check 1;
  luaL_checktype 2 LUA_TTABLE;;
  obj ← holder_obj holder;
  dim ← nlopt_get_dimension obj;
  let n := cast_int dim in
  x ← new_vector n;
  x ← read_vector 2 n x;
  res ← nlopt_optimize obj x indeterminate;
  lua_pushinteger res.1.1;;
  lua_pushnumber res.2;;
  write_back 2 n res.1.2;;
  mret 2.

(** ** Specification-level readings of the loops

    What [store_array] / [write_back] leave in the heap and what
    [read_vector] / [load_array] leave in the vector, as plain recursive
    functions. *)

Fixpoint store_seq (r : N) (key : Z -> Z) (b : list lua_Number) (count : nat)
    (from : Z) (hp : heap) : heap :=
  match count with
  | O => hp
  | S c =>
      store_seq r key b c (from + 1)
        (heap_set r (VNumber (cast_num (key from))) (VNumber (b !!! Z.to_nat from)) hp)
  end.

Fixpoint read_seq (key : Z -> Z) (tb : table) (count : nat) (from : Z)
    (v : list lua_Number) : list lua_Number :=
  match count with
  | O => v
  | S c =>
      read_seq key tb c (from + 1)
        (<[Z.to_nat from := tonumber (Some (tbl_get (VNumber (cast_num (key from))) tb))]> v)
  end.

(** The host-side sequence held by a table: its entries 1..n. *)
Definition table_seq (tb : table) (n : nat) : list value :=
  (fun i : nat => tbl_get (VNumber (cast_num (Z.of_nat i + 1))) tb) <$> seq 0 n.

(** [designates t st v]: the index [t] reads [v] on the stack [st] and on
    every stack grown from it. *)
Definition designates (t : Z) (st : list value) (v : value) : Prop :=
  forall pre, index2adr t (pre ++ st) = Some v.

(** The closure record behind a callback pointer: the table the registry
    holds under the reference stored in the [callback_context]. *)
Definition closure_record (w : world) (p : N) : option N :=
  match ctxs w !! p with
  | Some (Ctx (Zpos r)) =>
      match reg_refs w !! r with
      | Some (VTable t) => Some t
      | _ => None
      end
  | _ => None
  end.

Definition closure_field (w : world) (t : N) (name : string) : value :=
  tbl_get (VString name) (tables w !!! t).

(** A call from Lua: the C function runs on a stack frame that holds the
    arguments, the first at index 1. *)
Definition call (args : list value) (w : world) : world :=
  set_stack (reverse args) w.

(** The userdata [u] is an optimiser object: it carries the metatable
    registered under [nlopt_metaName] and holds the live native object
    [o], whose state is [os]. *)
Definition valid_handle (w : world) (u o : N) (os : nlopt_opt_s) : Prop :=
  exists mt,
    udata w !! u = Some (Holder (Some o) (Some mt))
    /\ reg_named w !! nlopt_metaName = Some (VTable mt)
    /\ opts w !! o = Some os.

(** Calling [setter] on the handle [u] with the table [r], which holds the
    doubles [v] as entries 1..n, and then [getter] on [u], gives back the
    status and a table whose entries 1..n are [v] and which has no
    other entry. *)
Definition roundtrips (setter getter : M Z) (w : world) (u r : N)
    (v : list lua_Number) : Prop :=
  exists w1,
    setter (call [VUserdata u; VTable r] w) = Ret 1 w1
    /\ exists w2 r',
        getter (call [VUserdata u] w1) = Ret 2 w2
        /\ stack w2 = [VTable r'; VNumber (cast_num NLOPT_SUCCESS); VUserdata u]
        /\ table_seq (tables w2 !!! r') (length v) = VNumber <$> v
        /\ forall k, is_Some ((tables w2 !!! r') !! k) ->
                     exists i, (i < length v)%nat /\ k = VNumber (cast_num (Z.of_nat i + 1)).

(** [w'] differs from [w] at most by values left on top of the stack, by
    the contents of the tables and by events added to the trace. *)
Definition frame_ext (w w' : world) : Prop :=
  exists junk hp tr,
    w' = World (junk ++ stack w) hp (funs w) (reg_refs w) (reg_named w) (udata w)
               (ctxs w) (opts w) (malloc_fails w) (trace w ++ tr).

(** ** Ownership of closure records *)

(** The callback pointers an optimiser holds: the objective's, then the
    inequality and the equality constraints', NULL ones left out. *)
Definition ptrs (l : list nlopt_constraint) : list N := omap c_f_data l.

Definition closures_of (os : nlopt_opt_s) : list N :=
  option_list (o_f_data os) ++ ptrs (o_fc os) ++ ptrs (o_h os).

(** The reference a [callback_context] stores, and what the callable and
    the user data of its record are. *)
Definition ctx_ref (w : world) (p : N) : Z :=
  match ctxs w !! p with
  | Some c => ref c
  | None => 0
  end.

Definition closure_view (w : world) (p : N) : option (value * value) :=
  match closure_record w p with
  | Some t => Some (closure_field w t "f", closure_field w t "f_data")
  | None => None
  end.

(** Every allocated [callback_context] stores a live registry reference
    to a table of its own. *)
Definition registry_wf (w : world) : Prop :=
  (forall p c, ctxs w !! p = Some c ->
     exists r t, c = Ctx (Zpos r) /\ reg_refs w !! r = Some (VTable t)
                 /\ t ∈ dom (tables w))
  /\ (forall p1 p2 c, ctxs w !! p1 = Some c -> ctxs w !! p2 = Some c -> p1 = p2)
  /\ (forall p1 p2 t,
        closure_record w p1 = Some t -> closure_record w p2 = Some t -> p1 = p2).

(** Every optimiser has the adapter's hooks and holds allocated callback
    pointers, none twice; no pointer is held by two optimisers. *)
Definition handles_wf (w : world) : Prop :=
  (forall o os, opts w !! o = Some os ->
     NoDup (closures_of os)
     /\ o_munge_on_destroy os = Some fn_munge_on_destroy
     /\ o_munge_on_copy os = Some fn_munge_on_copy
     /\ forall p, p ∈ closures_of os -> is_Some (ctxs w !! p))
  /\ (forall o1 o2 os1 os2 p,
        opts w !! o1 = Some os1 -> opts w !! o2 = Some os2 ->
        p ∈ closures_of os1 -> p ∈ closures_of os2 -> o1 = o2).

Definition closures_wf (w : world) : Prop := registry_wf w /\ handles_wf w.

(** What [munge_on_destroy] does to the world for an allocated record. *)
Definition unref_world (r : Z) (w : world) : world :=
  if 0 <=? r then
    match r with
    | Zpos q => set_reg_refs (delete q (reg_refs w)) (log (Ev_unref r) w)
    | _ => log (Ev_unref r) w
    end
  else w.

Definition release (p : N) (w : world) : world :=
  log (Ev_delete p) (set_ctxs (delete p (ctxs w)) (unref_world (ctx_ref w p) w)).

Definition release_all (ps : list N) (w : world) : world :=
  foldl (fun w p => release p w) w ps.

Definition release_events (w : world) (ps : list N) : list event :=
  flat_map (fun p => [Ev_unref (ctx_ref w p); Ev_delete p]) ps.

(** What [munge_on_copy] does to the world for a record whose registry
    entry is the table [t]: a new context, a new table under a new
    reference, and the two fields copied. *)
Definition duplicate (t : N) (w : world) : world :=
  let p' := fresh (dom (ctxs w)) in
  let t' := fresh (dom (tables w)) in
  let r' := fresh (dom (reg_refs w)) in
  let hp0 := <[t' := ∅]> (tables w) in
  let hp1 := heap_set t' (VString "f") (tbl_get (VString "f") (hp0 !!! t)) hp0 in
  let hp2 := heap_set t' (VString "f_data") (tbl_get (VString "f_data") (hp1 !!! t)) hp1 in
  set_tables hp2
    (set_reg_refs (<[r' := VTable t']> (reg_refs w))
       (set_ctxs (<[p' := Ctx (Zpos r')]> (ctxs w)) w)).

Definition is_unref (r : Z) (e : event) : bool :=
  match e with
  | Ev_unref r' => r' =? r
  | _ => false
  end.

Definition is_delete (p : N) (e : event) : bool :=
  match e with
  | Ev_delete p' => (p' =? p)%N
  | _ => false
  end.

(** How often a reference was released, and a record freed, in a trace. *)
Definition unref_count (r : Z) (l : list event) : nat :=
  length (List.filter (is_unref r) l).
Definition delete_count (p : N) (l : list event) : nat :=
  length (List.filter (is_delete p) l).

(** The record behind [p] is the same in [w'] as in [w]: same context,
    same registry entry, same callable and user data. *)
Definition intact (w w' : world) (p : N) : Prop :=
  ctxs w' !! p = ctxs w !! p /\ closure_view w' p = closure_view w p.

(** From [w] to [w'] exactly the records [ps] were released: each had
    its registry reference released once and its context freed once,
    and every other allocated record is intact and was not touched. *)
Definition released (w w' : world) (ps : list N) : Prop :=
  exists added,
    trace w' = trace w ++ added
    /\ tables w' = tables w
    /\ (forall p, p ∈ ps ->
          ctxs w' !! p = None
          /\ exists r, ctx_ref w p = Zpos r
                       /\ reg_refs w' !! r = None
                       /\ unref_count (Zpos r) added = 1%nat
                       /\ delete_count p added = 1%nat)
    /\ (forall p, p ∉ ps -> is_Some (ctxs w !! p) ->
          intact w w' p
          /\ unref_count (ctx_ref w p) added = 0%nat
          /\ delete_count p added = 0%nat).

(** What the registering functions do before they call the library: a
    new context, a new table under a new reference, and the callable
    [vf] and the user data [vd] stored in it. *)
Definition registered (vf vd : value) (w : world) : world :=
  let p' := fresh (dom (ctxs w)) in
  let t' := fresh (dom (tables w)) in
  let r' := fresh (dom (reg_refs w)) in
  set_tables
    (heap_set t' (VString "f_data") vd
       (heap_set t' (VString "f") vf (<[t' := ∅]> (tables w))))
    (set_reg_refs (<[r' := VTable t']> (reg_refs w))
       (set_ctxs (<[p' := Ctx (Zpos r')]> (ctxs w)) w)).

(** [w'] has every context, registry entry and table of [w]. *)
Definition extends (w w' : world) : Prop :=
  ctxs w ⊆ ctxs w' /\ reg_refs w ⊆ reg_refs w' /\ tables w ⊆ tables w'.

(** In [w'] the record [p'] is a copy of the record [p] of [w] made
    since: its context, its registry reference and its table did not
    exist in [w], and its callable and user data are those of [p]. *)
Definition copied (w w' : world) (p p' : N) : Prop :=
  (p' ∉ dom (ctxs w))
  /\ exists r' t',
       ctxs w' !! p' = Some (Ctx (Zpos r'))
       /\ (r' ∉ dom (reg_refs w)) /\ reg_refs w' !! r' = Some (VTable t')
       /\ (t' ∉ dom (tables w))
       /\ closure_view w' p' = closure_view w p.

(** Two constraint lists that differ at most in the callback pointers,
    a NULL one staying NULL. *)
Definition same_shape (l l' : list nlopt_constraint) : Prop :=
  Forall2 (fun c c' => c_m c' = c_m c /\ c_f c' = c_f c /\ c_tol c' = c_tol c
                       /\ (c_f_data c' = None <-> c_f_data c = None)) l l'.

(** [w'] has the stack, the host functions, the named registry entries,
    the userdata, the optimisers and the trace of [w]. *)
Definition same_frame (w w' : world) : Prop :=
  stack w' = stack w /\ funs w' = funs w /\ reg_named w' = reg_named w
  /\ udata w' = udata w /\ opts w' = opts w /\ malloc_fails w' = malloc_fails w
  /\ trace w' = trace w.

(** [os'] is [os] with other callback pointers: same algorithm,
    dimension, callbacks, bounds, tolerances and hooks, and constraint
    lists of the same shape. *)
Definition same_settings (os os' : nlopt_opt_s) : Prop :=
  os' = with_h (o_h os') (with_fc (o_fc os') (with_f_data (o_f_data os') os))
  /\ (o_f_data os' = None <-> o_f_data os = None)
  /\ same_shape (o_fc os) (o_fc os')
  /\ same_shape (o_h os) (o_h os').

(** ** The remaining accessors (LuaNLopt.cpp)

    [nlopt_get_algorithm] and [nlopt_get_dimension] read a field of the
    object without a NULL test; the [nlopt_set_*1] functions store one
    value in every entry of a vector of the object. *)

Definition nlopt_get_algorithm (opt : option N) : M Z :=
  match opt with
  | Some o => os ← opt_read o; mret (o_algorithm os)
  | None => undefined
  end.

Definition nlopt_set_vec1 (fld : vec_field) (opt : option N) (v : lua_Number) : M Z :=
  emit (Ev_nlopt "nlopt_set_vec1" [] (Some [v]));;
  match opt with
  | Some o =>
      os ← opt_read o;
      let n := Z.to_nat (o_n os) in
      if decide (n <= length (vec_get fld os))%nat then
        opt_write o (vec_put fld (replicate n v ++ drop n (vec_get fld os)) os);;
        mret NLOPT_SUCCESS
      else undefined
  | None => mret NLOPT_INVALID_ARGS
  end.
Definition nlopt_set_lower_bounds1 := nlopt_set_vec1 F_lb.
Definition nlopt_set_upper_bounds1 := nlopt_set_vec1 F_ub.
Definition nlopt_set_xtol_abs1 := nlopt_set_vec1 F_xtol_abs.

Definition get_algorithm : M Z :=
  holder ← check 1;
  obj ← holder_obj holder;
  r ← nlopt_get_algorithm obj;
  lua_pushinteger r;;
  mret 1.

Definition get_dimension : M Z :=
  holder ← check 1;
  obj ← holder_obj holder;
  r ← nlopt_get_dimension obj;
  lua_pushinteger r;;
  mret 1.

Definition set_vec1 (nlopt_set1 : option N -> lua_Number -> M Z) : M Z :=
  holder ← check 1;
  lb ← luaL_checknumber 2;
  obj ← holder_obj holder;
  r ← nlopt_set1 obj lb;
  lua_pushinteger r;;
  mret 1.

Definition set_lower_bounds1 : M Z := set_vec1 nlopt_set_lower_bounds1.
Definition set_upper_bounds1 : M Z := set_vec1 nlopt_set_upper_bounds1.
Definition set_xtol_abs1 : M Z := set_vec1 nlopt_set_xtol_abs1.

(** The entries of [Methods] and the finalizer, as far as they are
    modelled: every function that starts with [check( L, 1 )]. *)
Definition handle_methods : list (M Z) :=
  [ finalize_nlopt_opt_s; copy; get_algorithm; get_dimension;
    set_lower_bounds; set_upper_bounds; set_lower_bounds1; set_upper_bounds1;
    get_lower_bounds; get_upper_bounds;
    set_min_objective; set_max_objective;
    add_inequality_constraint; add_equality_constraint;
    remove_inequality_constraints; remove_equality_constraints;
    add_inequality_mconstraint; add_equality_mconstraint;
    set_xtol_abs; get_xtol_abs; set_xtol_abs1; optimize ].

(** Whether a stack slot holds an optimiser object: a userdata whose
    metatable is the one registered under [nlopt_metaName]. *)
Definition is_handle (w : world) (v : option value) : bool :=
  match v with
  | Some (VUserdata u) =>
      match udata w !! u with
      | Some hd =>
          match metatable hd, reg_named w !! nlopt_metaName with
          | Some r, Some (VTable r') => (r =? r')%N
          | _, _ => false
          end
      | None => false
      end
  | _ => false
  end.

(** The exported setter, [*1] setter and getter of a vector of the
    object. *)
Definition setter (fld : vec_field) : M Z :=
  match fld with
  | F_lb => set_lower_bounds | F_ub => set_upper_bounds | F_xtol_abs => set_xtol_abs
  end.
Definition setter1 (fld : vec_field) : M Z :=
  match fld with
  | F_lb => set_lower_bounds1 | F_ub => set_upper_bounds1 | F_xtol_abs => set_xtol_abs1
  end.
Definition getter (fld : vec_field) : M Z :=
  match fld with
  | F_lb => get_lower_bounds | F_ub => get_upper_bounds | F_xtol_abs => get_xtol_abs
  end.

(** The library keeps [n] entries in each vector of an object of
    dimension [n]; the adapter holds [n] in an [int]. *)
Definition sized (os : nlopt_opt_s) : Prop :=
  0 <= o_n os <= INT_MAX
  /\ forall fld, length (vec_get fld os) = Z.to_nat (o_n os).

(** What a getter returns for the vector [v]: the status, then a table
    that did not exist before and holds exactly the entries 1..n of [v];
    nothing else changes but the trace. *)
Definition returns_vector (w w2 : world) (u : N) (v : list lua_Number) : Prop :=
  exists r',
    (r' ∉ dom (tables w))
    /\ stack w2 = [VTable r'; VNumber (cast_num NLOPT_SUCCESS); VUserdata u]
    /\ table_seq (tables w2 !!! r') (length v) = VNumber <$> v
    /\ (forall k, is_Some ((tables w2 !!! r') !! k) ->
          exists i, (i < length v)%nat /\ k = VNumber (cast_num (Z.of_nat i + 1)))
    /\ (forall t, t ∈ dom (tables w) -> tables w2 !! t = tables w !! t)
    /\ opts w2 = opts w /\ ctxs w2 = ctxs w /\ reg_refs w2 = reg_refs w
    /\ udata w2 = udata w /\ reg_named w2 = reg_named w.

(** [algorithm_name] (LuaNLopt.cpp): the name the library has for an
    algorithm id.  [nlopt_algorithm_name] is the library's table of
    names. *)
Definition lua_pushstring (s : string) : M unit := push (VString s).

Definition algorithm_name (nlopt_algorithm_name : Z -> string) : M Z :=
  i ← luaL_checkinteger 1;
  (if (i <? 0) || (NLOPT_NUM_ALGORITHMS <=? i)
   then luaL_argerror 1 "expecting nlopt.algorithm" else mret tt);;
  lua_pushstring (nlopt_algorithm_name i);;
  mret 1.

(** ** A concrete state

    One optimiser of dimension 2 behind the userdata 0: its objective is
    the record 2 (callable 2, which returns 7, with user data), its one
    inequality constraint the record 0 (callable 0, which raises), its
    one equality constraint the vector constraint of the record 1
    (callable 1, which writes 10, 20 into the results and 30, 40 into the
    gradient). Table 4 is the sequence {1.5, -2}, table 5 the sequence
    {1e-8, 1e-8}; the numbers are the bit patterns of the doubles. *)

Definition ex_str2d : string -> option lua_Number := fun _ => None.
Definition ex_type_metatable : Z -> option N := fun _ => None.
Definition ex_num_algorithms : Z := 43.
Definition ex_constraint_check
  : nlopt_opt_s -> bool -> Z -> option (list lua_Number) -> Z :=
  fun _ _ _ _ => NLOPT_SUCCESS.
Definition ex_algorithm : nlopt_opt_s -> list lua_Number -> native_run :=
  fun _ x => Eval_f x None (fun v _ => Finish NLOPT_SUCCESS x (Some v)).

Definition d_1_5 : lua_Number := 4609434218613702656.
Definition d_m2 : lua_Number := 13835058055282163712.
Definition d_1e_8 : lua_Number := 4487126258331716666.
Definition d_m0_5 : lua_Number := 13826050856027422720.
Definition d_5 : lua_Number := 4617315517961601024.
Definition d_7 : lua_Number := 4619567317775286272.
Definition d_10 : lua_Number := 4621819117588971520.
Definition d_20 : lua_Number := 4626322717216342016.
Definition d_30 : lua_Number := 4629137466983448576.
Definition d_40 : lua_Number := 4630826316843712512.

Definition ex_host (fid : N) : lua_function :=
  match fid with
  | 0%N => fun _ hp => (Raises (VString "boom"), hp)
  | 1%N => fun args hp =>
      match args with
      | [_; VTable rt; _; _; g; _] =>
          let hp1 := heap_set rt (VNumber (cast_num 1)) (VNumber d_10) hp in
          let hp2 := heap_set rt (VNumber (cast_num 2)) (VNumber d_20) hp1 in
          match g with
          | VTable gt =>
              let hp3 := heap_set gt (VNumber (cast_num 1)) (VNumber d_30) hp2 in
              (Returns [], heap_set gt (VNumber (cast_num 2)) (VNumber d_40) hp3)
          | _ => (Returns [], hp2)
          end
      | _ => (Raises (VString "bad arguments"), hp)
      end
  | _ => fun _ hp => (Returns [VNumber d_7], hp)
  end.

Definition ex_tables : heap :=
  <[0%N := ∅]>
  (<[1%N := {[VString "f" := VFunction 0]}]>
  (<[2%N := {[VString "f" := VFunction 1]}]>
  (<[3%N := <[VString "f" := VFunction 2]> {[VString "f_data" := VString "ud"]}]>
  (<[4%N := <[VNumber (cast_num 1) := VNumber d_1_5]>
              {[VNumber (cast_num 2) := VNumber d_m2]}]>
  (<[5%N := <[VNumber (cast_num 1) := VNumber d_1e_8]>
              {[VNumber (cast_num 2) := VNumber d_1e_8]}]> ∅))))).
Definition ex_reg_refs : gmap positive value :=
  <[1%positive := VTable 1]> (<[2%positive := VTable 2]> (<[3%positive := VTable 3]> ∅)).
Definition ex_ctxs : gmap N callback_context :=
  <[0%N := Ctx 1]> (<[1%N := Ctx 2]> (<[2%N := Ctx 3]> ∅)).
Definition ex_os : nlopt_opt_s :=
  Opt 0 2 (Some fn_func) (Some 2%N) false
      [Constraint 1 fn_func (Some 0%N) (Some [0])]
      [Constraint 2 fn_mfunc (Some 1%N) (Some [0; 0])]
      [neg_HUGE_VAL; neg_HUGE_VAL] [HUGE_VAL; HUGE_VAL] [0; 0]
      (Some fn_munge_on_destroy) (Some fn_munge_on_copy).
Definition ex_world : world :=
  World [] ex_tables ex_host ex_reg_refs {[nlopt_metaName := VTable 0]}
        {[0%N := Holder (Some 0%N) (Some 0%N)]} ex_ctxs {[0%N := ex_os]} false [].

(** * Proofs *)

(** ** Running the monad symbolically *)

#[local] Arguments index2adr : simpl never.
#[local] Arguments Z.of_nat : simpl never.
#[local] Arguments Z.ltb : simpl nomatch.
#[local] Arguments Z.leb : simpl nomatch.
#[local] Arguments Z.eqb : simpl nomatch.
#[local] Arguments length : simpl never.
#[local] Arguments mbind {_ _ _ _} _ _ /.
#[local] Arguments mret {_ _ _} _ /.
#[local] Arguments M_bind {A B} k m w /.
#[local] Arguments M_ret {A} a w /.
#[local] Arguments set_stack s w /.
#[local] Arguments set_tables t w /.
#[local] Arguments set_reg_refs r w /.
#[local] Arguments set_udata u w /.
#[local] Arguments set_ctxs c w /.
#[local] Arguments set_opts o w /.
#[local] Arguments log e w /.
#[local] Arguments get_world w /.
#[local] Arguments modify g w /.
#[local] Arguments throw {A} e w /.
#[local] Arguments undefined {A} w /.
#[local] Arguments emit e /.
#[local] Arguments push v /.
#[local] Arguments pop1 w /.
#[local] Arguments index2table idx w /.
#[local] Arguments lua_rawgeti idx n /.
#[local] Arguments lua_rawseti idx n /.
#[local] Arguments lua_rawget idx /.
#[local] Arguments lua_rawset idx /.
#[local] Arguments luaV_gettable : simpl never.
#[local] Arguments luaV_settable : simpl never.
#[local] Arguments MAXTAGLOOP : simpl never.
#[local] Arguments lua_gettable idx /.
#[local] Arguments lua_settable idx /.
#[local] Arguments lua_gettop w /.
#[local] Arguments lua_pushliteral s /.
#[local] Arguments lua_pushnumber d /.
#[local] Arguments lua_pushinteger i /.
#[local] Arguments lua_pushnil /.
#[local] Arguments lua_pushvalue idx /.
#[local] Arguments lua_pop n /.
#[local] Arguments lua_isfunction idx /.
#[local] Arguments lua_istable idx /.
#[local] Arguments lua_isnil idx /.
#[local] Arguments lua_type idx /.
#[local] Arguments lua_tonumber idx /.
#[local] Arguments lua_newtable /.
#[local] Arguments lua_createtable narr nrec /.
#[local] Arguments lua_newuserdata /.
#[local] Arguments luaL_getmetatable tname /.
#[local] Arguments lua_setmetatable idx /.
#[local] Arguments luaL_ref_registry /.
#[local] Arguments luaL_unref_registry r /.
#[local] Arguments luaL_argerror {A} narg extramsg /.
#[local] Arguments luaL_error {A} msg /.
#[local] Arguments luaL_checkinteger narg /.
#[local] Arguments luaL_checktype narg t /.
#[local] Arguments luaL_checkudata ud tname /.
#[local] Arguments check narg /.
#[local] Arguments holder_obj u w /.
#[local] Arguments holder_set_obj u obj w /.
#[local] Arguments lua_pcall nargs nresults w /.
#[local] Arguments new_callback_context /.
#[local] Arguments ctx_read p w /.
#[local] Arguments ctx_set_ref p r w /.
#[local] Arguments delete_ctx p w /.
#[local] Arguments buf_read b i /.
#[local] Arguments buf_write b i v /.
#[local] Arguments opt_read o w /.
#[local] Arguments opt_write o os /.
#[local] Arguments opt_free o /.
#[local] Arguments new_vector n /.
#[local] Arguments scratch_table : simpl never.
#[local] Arguments store_array : simpl never.
#[local] Arguments load_array : simpl never.
#[local] Arguments read_vector : simpl never.
#[local] Arguments write_back : simpl never.
#[local] Arguments registry_get : simpl never.
#[local] Arguments cast_num : simpl never.
#[local] Arguments cast_int : simpl never.
#[local] Arguments cast_unsigned : simpl never.
#[local] Arguments lua_number2integer : simpl never.

(** An absolute index taken with [lua_gettop] keeps pointing at the value
    that was on top then, whatever is pushed above it. *)
Lemma index2adr_suffix (pre st : list value) (v : value) :
  head st = Some v -> index2adr (Z.of_nat (length st)) (pre ++ st) = Some v.
Proof.
  intros H. destruct st as [|v' st]; [done|]. injection H as ->.
  unfold index2adr.
  assert ((0 <? Z.of_nat (length (v :: st))) = true) as ->
    by (apply Z.ltb_lt; rewrite length_cons; lia).
  assert ((Z.of_nat (length (v :: st)) <=? Z.of_nat (length (pre ++ v :: st))) = true) as ->.
  { apply Z.leb_le. rewrite length_app. lia. }
  rewrite Nat2Z.id, length_app.
  replace (length pre + length (v :: st) - length (v :: st))%nat
    with (length pre + 0)%nat by lia.
  by rewrite lookup_app_r, Nat.add_0_r, Nat.sub_diag by lia.
Qed.

Lemma abs0 v st : index2adr (Z.of_nat (length (v :: st))) (v :: st) = Some v.
Proof. exact (index2adr_suffix [] (v :: st) v eq_refl). Qed.
Lemma abs1 a v st : index2adr (Z.of_nat (length (v :: st))) (a :: v :: st) = Some v.
Proof. exact (index2adr_suffix [a] (v :: st) v eq_refl). Qed.
Lemma abs2 a b v st :
  index2adr (Z.of_nat (length (v :: st))) (a :: b :: v :: st) = Some v.
Proof. exact (index2adr_suffix [a; b] (v :: st) v eq_refl). Qed.
Lemma abs3 a b c v st :
  index2adr (Z.of_nat (length (v :: st))) (a :: b :: c :: v :: st) = Some v.
Proof. exact (index2adr_suffix [a; b; c] (v :: st) v eq_refl). Qed.
Lemma abs4 a b c d v st :
  index2adr (Z.of_nat (length (v :: st))) (a :: b :: c :: d :: v :: st) = Some v.
Proof. exact (index2adr_suffix [a; b; c; d] (v :: st) v eq_refl). Qed.
Lemma abs5 a b c d e v st :
  index2adr (Z.of_nat (length (v :: st))) (a :: b :: c :: d :: e :: v :: st) = Some v.
Proof. exact (index2adr_suffix [a; b; c; d; e] (v :: st) v eq_refl). Qed.
Lemma abs6 a b c d e f v st :
  index2adr (Z.of_nat (length (v :: st))) (a :: b :: c :: d :: e :: f :: v :: st) = Some v.
Proof. exact (index2adr_suffix [a; b; c; d; e; f] (v :: st) v eq_refl). Qed.
Lemma abs7 a b c d e f g v st :
  index2adr (Z.of_nat (length (v :: st))) (a :: b :: c :: d :: e :: f :: g :: v :: st)
  = Some v.
Proof. exact (index2adr_suffix [a; b; c; d; e; f; g] (v :: st) v eq_refl). Qed.
Lemma neg1 v st : index2adr (-1) (v :: st) = Some v.
Proof. reflexivity. Qed.
Lemma neg2 a v st : index2adr (-2) (a :: v :: st) = Some v.
Proof. reflexivity. Qed.

Ltac idx :=
  rewrite ?abs0, ?abs1, ?abs2, ?abs3, ?abs4, ?abs5, ?abs6, ?abs7, ?neg1, ?neg2.
Ltac run := repeat (cbn -[for_loop]; idx).

Lemma world_eta (w : world) :
  World (stack w) (tables w) (funs w) (reg_refs w) (reg_named w) (udata w)
        (ctxs w) (opts w) (malloc_fails w) (trace w) = w.
Proof. by destruct w. Qed.

(** ** Integers as doubles *)

Lemma cast_num_small (i : Z) :
  0 < i < 2 ^ 53 ->
  cast_num i = (Z.log2 i + 1022) * 2 ^ 52 + i * 2 ^ (52 - Z.log2 i)
  /\ 0 <= Z.log2 i <= 52
  /\ 2 ^ 52 <= i * 2 ^ (52 - Z.log2 i) < 2 ^ 53.
Proof.
  intros Hi.
  assert (He : 0 <= Z.log2 i) by apply Z.log2_nonneg.
  destruct (Z.log2_spec i) as [Hlo Hhi]; [lia|].
  assert (He' : Z.log2 i <= 52).
  { destruct (Z_le_gt_dec (Z.log2 i) 52) as [|Hgt]; [done|].
    assert (2 ^ 53 <= 2 ^ Z.log2 i) by (apply Z.pow_le_mono_r; lia). lia. }
  assert (Hp : 2 ^ Z.log2 i * 2 ^ (52 - Z.log2 i) = 2 ^ 52).
  { rewrite <- Z.pow_add_r by lia. f_equal. lia. }
  assert (Hq : 0 < 2 ^ (52 - Z.log2 i)) by (apply Z.pow_pos_nonneg; lia).
  split; [|split; [done|]].
  - unfold cast_num.
    destruct (Z.eqb_spec i 0) as [|_]; [lia|].
    rewrite Z.abs_eq by lia.
    destruct (Z.ltb_spec i 0) as [|_]; [lia|].
    destruct (Z.leb_spec (Z.log2 i) 52) as [_|]; [|lia]. lia.
  - split.
    + rewrite <- Hp. apply Z.mul_le_mono_nonneg_r; lia.
    + replace (2 ^ 53) with (2 ^ Z.succ (Z.log2 i) * 2 ^ (52 - Z.log2 i)).
      * apply Z.mul_lt_mono_pos_r; lia.
      * rewrite Z.pow_succ_r by lia. rewrite <- Z.mul_assoc, Hp. reflexivity.
Qed.

Lemma cast_num_inj (i j : Z) :
  0 < i < 2 ^ 53 -> 0 < j < 2 ^ 53 -> cast_num i = cast_num j -> i = j.
Proof.
  intros Hi Hj.
  destruct (cast_num_small i Hi) as (-> & Hei & Hmi).
  destruct (cast_num_small j Hj) as (-> & Hej & Hmj).
  intros Heq.
  assert (Z.log2 i = Z.log2 j) as Hl by nia.
  rewrite Hl in Heq.
  assert (0 < 2 ^ (52 - Z.log2 j)) by (apply Z.pow_pos_nonneg; lia).
  nia.
Qed.

Lemma cast_int_small (i : Z) : 0 <= i <= INT_MAX -> cast_int i = i.
Proof.
  unfold cast_int, INT_MAX. intros Hi.
  rewrite Z.mod_small by lia.
  destruct (Z.leb_spec i (2 ^ 31 - 1)); lia.
Qed.

(** ** Stack indices that survive pushes *)

Lemma designates_top v st : designates (Z.of_nat (length (v :: st))) (v :: st) v.
Proof. intros pre. by apply index2adr_suffix. Qed.

Lemma designates_push t st v a : designates t st v -> designates t (a :: st) v.
Proof. intros H pre. specialize (H (pre ++ [a])). by rewrite <- app_assoc in H. Qed.

Lemma designates_0 t st v : designates t st v -> index2adr t st = Some v.
Proof. intros H. exact (H []). Qed.
Lemma designates_1 t st v a : designates t st v -> index2adr t (a :: st) = Some v.
Proof. intros H. exact (H [a]). Qed.
Lemma designates_2 t st v a b :
  designates t st v -> index2adr t (a :: b :: st) = Some v.
Proof. intros H. exact (H [a; b]). Qed.
Lemma designates_3 t st v a b c :
  designates t st v -> index2adr t (a :: b :: c :: st) = Some v.
Proof. intros H. exact (H [a; b; c]). Qed.

Lemma designates_positive (k : nat) (args : list value) (v : value) :
  reverse args !! k = Some v -> designates (Z.of_nat (S k)) args v.
Proof.
  intros Hk pre. unfold index2adr.
  assert (Hlen : (k < length args)%nat).
  { apply lookup_lt_Some in Hk. by rewrite length_reverse in Hk. }
  assert ((0 <? Z.of_nat (S k)) = true) as -> by (apply Z.ltb_lt; lia).
  assert ((Z.of_nat (S k) <=? Z.of_nat (length (pre ++ args))) = true) as ->.
  { apply Z.leb_le. rewrite length_app. lia. }
  rewrite Nat2Z.id, length_app, lookup_app_r by lia.
  rewrite reverse_lookup in Hk by done.
  rewrite <- Hk. f_equal. lia.
Qed.

(** ** The loops *)

Lemma for_loop_step {A} (c : nat) (from : Z) (body : Z -> A -> M A) (acc : A) (w : world) :
  for_loop (S c) from body acc w
  = match body from acc w with
    | Ret a w' => for_loop c (from + 1) body a w'
    | Throw e w' => Throw e w'
    | Undefined => Undefined
    end.
Proof. reflexivity. Qed.

Lemma store_loop_frame (b : list lua_Number) (idx : Z) (key : Z -> Z) count :
  forall from w,
    for_loop count from (fun i (_ : unit) =>
        v ← buf_read b i; lua_pushnumber v;; lua_rawseti idx (key i)) tt w = Undefined
    \/ exists hp, for_loop count from (fun i (_ : unit) =>
        v ← buf_read b i; lua_pushnumber v;; lua_rawseti idx (key i)) tt w
        = Ret tt (set_tables hp w).
Proof.
  set (body := fun i (_ : unit) => _).
  induction count as [|c IH]; intros from w.
  - right. exists (tables w). by destruct w.
  - rewrite for_loop_step.
    destruct w as [S T F RR RN U C O MF TR].
    assert (Hb : body from tt (World S T F RR RN U C O MF TR) = Undefined
                 \/ exists hp, body from tt (World S T F RR RN U C O MF TR)
                               = Ret tt (World S hp F RR RN U C O MF TR)).
    { unfold body. cbn.
      destruct (b !! Z.to_nat from) as [v|]; cbn; [|by left].
      destruct (index2adr idx (VNumber v :: S)) as [[]|]; cbn; try by left.
      right. by eexists. }
    destruct Hb as [->|[hp ->]]; [by left|].
    destruct (IH (from + 1) (World S hp F RR RN U C O MF TR)) as [->|[hp' ->]];
      [by left|right; by exists hp'].
Qed.

Lemma store_array_frame idx n b w :
  store_array idx n b w = Undefined
  \/ exists hp, store_array idx n b w = Ret tt (set_tables hp w).
Proof. apply store_loop_frame. Qed.

Lemma store_loop_ok (b : list lua_Number) (idx : Z) (key : Z -> Z) (r : N) count :
  forall from w,
    (forall v, index2adr idx (v :: stack w) = Some (VTable r)) ->
    0 <= from -> (Z.to_nat from + count <= length b)%nat ->
    for_loop count from (fun i (_ : unit) =>
        v ← buf_read b i; lua_pushnumber v;; lua_rawseti idx (key i)) tt w
    = Ret tt (set_tables (store_seq r key b count from (tables w)) w).
Proof.
  set (body := fun i (_ : unit) => _).
  induction count as [|c IH]; intros from w Hidx Hfrom Hlen.
  - by destruct w.
  - rewrite for_loop_step.
    destruct (lookup_lt_is_Some_2 b (Z.to_nat from)) as [v Hv]; [lia|].
    destruct w as [S T F RR RN U C O MF TR]; cbn in Hidx.
    assert (Hb : body from tt (World S T F RR RN U C O MF TR)
                 = Ret tt (World S (heap_set r (VNumber (cast_num (key from)))
                                             (VNumber v) T) F RR RN U C O MF TR)).
    { unfold body. cbn. rewrite Hv. cbn. by rewrite Hidx. }
    rewrite Hb, IH; [|done|lia|lia].
    cbn. by rewrite (list_lookup_total_correct _ _ _ Hv).
Qed.

Lemma store_array_ok idx n b r w :
  (forall v, index2adr idx (v :: stack w) = Some (VTable r)) ->
  (Z.to_nat n <= length b)%nat ->
  store_array idx n b w
  = Ret tt (set_tables (store_seq r (fun i => cast_int (i + 1)) b (Z.to_nat n) 0 (tables w)) w).
Proof. intros. by apply store_loop_ok. Qed.

Lemma load_array_frame idx n b w :
  load_array idx n b w = Undefined \/ exists b', load_array idx n b w = Ret b' w.
Proof.
  unfold load_array, for_upto. generalize 0 as from. revert b w.
  set (body := fun i (b : list lua_Number) => _).
  induction (Z.to_nat n) as [|c IH]; intros b w from.
  - right. by exists b.
  - rewrite for_loop_step.
    assert (Hb : body from b w = Undefined \/ exists b', body from b w = Ret b' w).
    { unfold body. destruct w as [S T F RR RN U C O MF TR]. cbn.
      destruct (idx =? LUA_REGISTRYINDEX); cbn.
      - destruct (decide _); cbn; [|by left]. right. by eexists.
      - destruct (index2adr idx S) as [[]|]; cbn; try by left.
        destruct (decide _); cbn; [|by left]. right. by eexists. }
    destruct Hb as [->|[b' ->]]; [by left|]. apply IH.
Qed.

Lemma scratch_table_frame t name w :
  scratch_table t name w = Undefined
  \/ exists r hp, scratch_table t name w
                  = Ret tt (set_stack (VTable r :: stack w) (set_tables hp w)).
Proof.
  destruct w as [S T F RR RN U C O MF TR]. unfold scratch_table. run.
  destruct (index2adr t (VString name :: S)) as [[| | | |r0| |]|]; run; try by left.
  destruct (tbl_get (VString name) (T !!! r0)) as [| | | |r1| |] eqn:Hg; run;
    try (destruct (index2adr t _) as [[| | | |r2| |]|]; run; try (by left);
         right; by eexists _, _).
  right. by exists r1, T.
Qed.

Lemma scratch_table_ok t name rt w :
  designates t (stack w) (VTable rt) ->
  exists r hp, scratch_table t name w
               = Ret tt (set_stack (VTable r :: stack w) (set_tables hp w)).
Proof.
  intros Ht. destruct w as [S T F RR RN U C O MF TR]. cbn in Ht.
  unfold scratch_table. run. rewrite (designates_1 _ _ _ _ Ht). run.
  destruct (tbl_get (VString name) (T !!! rt)) as [| | | |r1| |] eqn:Hg; run;
    rewrite ?(designates_3 _ _ _ _ _ _ Ht); run; by eexists _, _.
Qed.

(** ** The scalar trampoline *)

Ltac desig := cbn; repeat first [apply designates_top | apply designates_push].

Ltac scratch_ok rt :=
  match goal with
  | |- context [scratch_table ?t ?nm ?w] =>
      let r := fresh "r" in
      let hp := fresh "hp" in
      destruct (scratch_table_ok t nm rt w) as (r & hp & ->); [desig|]
  end.

Ltac store_ok r :=
  match goal with
  | |- context [store_array ?t ?n ?b ?w] =>
      rewrite (store_array_ok t n b r w); [|intros ?; by idx|]
  end.

Lemma func_call_site_cps w n x grad p r t fid (P : outcome (lua_Number * option (list lua_Number)) -> Prop) :
  ctxs w !! p = Some (Ctx (Zpos r)) ->
  reg_refs w !! r = Some (VTable t) ->
  tbl_get (VString "f") (tables w !!! t) = VFunction fid ->
  (Z.to_nat n <= length x)%nat ->
  (forall g, grad = Some g -> (Z.to_nat n <= length g)%nat) ->
  (forall out xt garg hp,
      (grad = None -> garg = VNil /\ (hp !!! t) !! VString "grad" = None) ->
      (is_Some grad -> exists gt, garg = VTable gt) ->
      let args := [VNumber (cast_num n); VTable xt; garg;
                   tbl_get (VString "f_data") (hp !!! t)] in
      (forall e hp', funs w fid args hp = (Raises e, hp') ->
         out = Ret (0, grad)
                 (log (Ev_pcall (VFunction fid) args hp LUA_ERRRUN) (set_tables hp' w))) ->
      (forall vs hp', funs w fid args hp = (Returns vs, hp') ->
         (grad = None ->
          out = Ret (tonumber (head vs), None)
                    (log (Ev_pcall (VFunction fid) args hp 0) (set_tables hp' w)))
         /\ (out = Undefined
             \/ exists res g',
                 out = Ret (res, g')
                         (log (Ev_pcall (VFunction fid) args hp 0) (set_tables hp' w)))) ->
      P out) ->
  P (func n x grad (Some p) w).
Proof.
  destruct w as [S T F RR RN U C O MF TR]. cbn.
  intros Hctx Hreg Hf Hx Hg HP.
  unfold func. run. rewrite Hctx. run. unfold registry_get. cbn. rewrite Hreg. run. rewrite Hf. run.
  scratch_ok t. run. store_ok r0; [|done]. run.
  destruct grad as [g|].
  - run. scratch_ok t. run. store_ok r1; [|by apply Hg]. run.
    match goal with
    | |- context [F fid ?args ?hp] => destruct (F fid args hp) as [[vs|e] hp'] eqn:Hcall
    end; run.
    + destruct vs as [|v1 vs]; run;
        (match goal with
         | |- context [load_array ?i ?n ?b ?w] =>
             destruct (load_array_frame i n b w) as [->|[b' ->]]
         end); run;
        (eapply HP;
         [ done
         | intros _; by eexists
         | intros ? ?; cbn; rewrite Hcall; done
         | intros ? ?; cbn; rewrite Hcall; intros [= <- <-]; split; [done|];
           first [ by left | right; by eexists _, _ ] ]).
    + eapply HP;
        [ done
        | intros _; by eexists
        | intros ? ?; cbn; rewrite Hcall; by intros [= <- <-]
        | intros ? ?; cbn; rewrite Hcall; done ].
  - run.
    assert (Hgrad : forall hp : heap,
               (heap_set t (VString "grad") VNil hp !!! t) !! VString "grad" = None).
    { intros hp1. unfold heap_set. rewrite lookup_total_insert_eq. cbn.
      apply lookup_delete_eq. }
    match goal with
    | |- context [F fid ?args ?hp] => destruct (F fid args hp) as [[vs|e] hp'] eqn:Hcall
    end; run.
    + destruct vs as [|v1 vs]; run;
        (eapply HP;
         [ intros _; split; [reflexivity|apply Hgrad]
         | by intros [? [=]]
         | intros ? ?; cbn; rewrite Hcall; done
         | intros ? ?; cbn; rewrite Hcall; intros [= <- <-]; split; [done|];
           right; by eexists _, _ ]).
    + eapply HP;
        [ intros _; split; [reflexivity|apply Hgrad]
        | by intros [? [=]]
        | intros ? ?; cbn; rewrite Hcall; by intros [= <- <-]
        | intros ? ?; cbn; rewrite Hcall; done ].
Qed.

(** ** The vector trampoline *)

Lemma mfunc_call_site_cps w m result n x grad p r t fid
    (P : outcome (list lua_Number * option (list lua_Number)) -> Prop) :
  ctxs w !! p = Some (Ctx (Zpos r)) ->
  reg_refs w !! r = Some (VTable t) ->
  tbl_get (VString "f") (tables w !!! t) = VFunction fid ->
  (Z.to_nat m <= length result)%nat ->
  (Z.to_nat n <= length x)%nat ->
  (forall g, grad = Some g -> (Z.to_nat (cast_unsigned (n * m)) <= length g)%nat) ->
  (forall out rt xt garg hp,
      (grad = None -> garg = VNil /\ (hp !!! t) !! VString "grad" = None) ->
      (is_Some grad -> exists gt, garg = VTable gt) ->
      let args := [VNumber (cast_num m); VTable rt; VNumber (cast_num n); VTable xt;
                   garg; tbl_get (VString "f_data") (hp !!! t)] in
      (forall e hp', funs w fid args hp = (Raises e, hp') ->
         out = Ret (result, grad)
                 (log (Ev_pcall (VFunction fid) args hp LUA_ERRRUN) (set_tables hp' w))) ->
      (forall vs hp', funs w fid args hp = (Returns vs, hp') ->
         out = Undefined
         \/ exists res g',
             out = Ret (res, g')
                     (set_stack (VTable t :: stack w)
                        (log (Ev_pcall (VFunction fid) args hp 0) (set_tables hp' w)))
             /\ (grad = None -> g' = None)) ->
      P out) ->
  P (mfunc m result n x grad (Some p) w).
Proof.
  destruct w as [S T F RR RN U C O MF TR]. cbn.
  intros Hctx Hreg Hf Hres Hx Hg HP.
  unfold mfunc. run. rewrite Hctx. run. unfold registry_get. cbn. rewrite Hreg. run. rewrite Hf. run.
  scratch_ok t. run. store_ok r0; [|done]. run.
  scratch_ok t. run. store_ok r1; [|done]. run.
  destruct grad as [g|].
  - run. scratch_ok t. run. store_ok r2; [|by apply Hg]. run.
    match goal with
    | |- context [F fid ?args ?hp] => destruct (F fid args hp) as [[vs|e] hp'] eqn:Hcall
    end; run.
    + match goal with
      | |- context [load_array ?i ?n ?b ?w] =>
          destruct (load_array_frame i n b w) as [->|[b' ->]]
      end; run;
        [|match goal with
          | |- context [load_array ?i ?n ?b ?w] =>
              destruct (load_array_frame i n b w) as [->|[b'' ->]]
          end; run];
        (eapply HP;
         [ done
         | intros _; by eexists
         | intros ? ?; cbn; rewrite Hcall; done
         | intros ? ?; cbn; rewrite Hcall;
           first [ by left
                 | intros [= <- <-]; right; eexists _, _; split; [reflexivity|done] ] ]).
    + eapply HP;
        [ done
        | intros _; by eexists
        | intros ? ?; cbn; rewrite Hcall; by intros [= <- <-]
        | intros ? ?; cbn; rewrite Hcall; done ].
  - run.
    assert (Hgrad : forall hp : heap,
               (heap_set t (VString "grad") VNil hp !!! t) !! VString "grad" = None).
    { intros hp1. unfold heap_set. rewrite lookup_total_insert_eq. cbn.
      apply lookup_delete_eq. }
    match goal with
    | |- context [F fid ?args ?hp] => destruct (F fid args hp) as [[vs|e] hp'] eqn:Hcall
    end; run.
    + match goal with
      | |- context [load_array ?i ?n ?b ?w] =>
          destruct (load_array_frame i n b w) as [->|[b' ->]]
      end; run;
        (eapply HP;
         [ intros _; split; [reflexivity|apply Hgrad]
         | by intros [? [=]]
         | intros ? ?; cbn; rewrite Hcall; done
         | intros ? ?; cbn; rewrite Hcall;
           first [ by left
                 | intros [= <- <-]; right; eexists _, _; split; [reflexivity|done] ] ]).
    + eapply HP;
        [ intros _; split; [reflexivity|apply Hgrad]
        | by intros [? [=]]
        | intros ? ?; cbn; rewrite Hcall; by intros [= <- <-]
        | intros ? ?; cbn; rewrite Hcall; done ].
Qed.

Lemma closure_record_inv w p t :
  closure_record w p = Some t ->
  exists r, ctxs w !! p = Some (Ctx (Zpos r)) /\ reg_refs w !! r = Some (VTable t).
Proof.
  unfold closure_record. intros H.
  destruct (ctxs w !! p) as [[[|r|]]|]; try done.
  destruct (reg_refs w !! r) as [[]|] eqn:Hr; try done.
  injection H as ->. by exists r.
Qed.

(** ** Claims on the trampolines *)

(** C1. A registered scalar objective or constraint closure whose host
    callable raises during the invocation: [func] returns normally with
    the value 0.0, the gradient buffer it was given, the stack as it found
    it, and only the tables (as the callable left them) and the trace
    changed.  [args] and [hp] are the arguments and the heap of the one
    protected call of the invocation, as the second part pins down. *)
Theorem func_contains_callback_error (w : world) (n : Z) (x : list lua_Number)
    (grad : option (list lua_Number)) (p t fid : N) :
  closure_record w p = Some t ->
  closure_field w t "f" = VFunction fid ->
  length x = Z.to_nat n ->
  (forall g, grad = Some g -> length g = Z.to_nat n) ->
  exists args hp,
    (forall e hp', funs w fid args hp = (Raises e, hp') ->
       func n x grad (Some p) w
       = Ret (0, grad)
             (log (Ev_pcall (VFunction fid) args hp LUA_ERRRUN) (set_tables hp' w)))
    /\ (forall vs hp', funs w fid args hp = (Returns vs, hp') ->
        forall a w', func n x grad (Some p) w = Ret a w' ->
          trace w' = trace w ++ [Ev_pcall (VFunction fid) args hp 0]).
Proof.
  intros Hrec Hf Hx Hg.
  destruct (closure_record_inv _ _ _ Hrec) as (r & Hctx & Hreg).
  apply (func_call_site_cps w n x grad p r t fid); try done; try lia.
  { intros g Hgr. rewrite (Hg g Hgr). lia. }
  intros out xt garg hp _ _ args Hraise Hret.
  exists args, hp. split; [done|].
  intros vs hp' Hcall a w' Hout.
  destruct (Hret vs hp' Hcall) as [_ [Hu|(res & g' & Hr)]]; [congruence|].
  rewrite Hr in Hout. injection Hout as _ <-. by destruct w.
Qed.

(** C5. No gradient buffer from the native side: the callable is called
    with nil in the gradient position, on a heap in which the "grad" slot
    of the closure record is empty; the outcome of the trampoline is the
    one of that call. *)
Theorem trampoline_passes_nil_gradient (w : world) (p t fid : N) :
  closure_record w p = Some t ->
  closure_field w t "f" = VFunction fid ->
  (forall n x, length x = Z.to_nat n ->
     exists xt hp,
       (hp !!! t) !! VString "grad" = None
       /\ let args := [VNumber (cast_num n); VTable xt; VNil;
                       tbl_get (VString "f_data") (hp !!! t)] in
          func n x None (Some p) w
          = match funs w fid args hp with
            | (Returns vs, hp') =>
                Ret (tonumber (head vs), None)
                    (log (Ev_pcall (VFunction fid) args hp 0) (set_tables hp' w))
            | (Raises e, hp') =>
                Ret (0, None)
                    (log (Ev_pcall (VFunction fid) args hp LUA_ERRRUN) (set_tables hp' w))
            end)
  /\ (forall m result n x, length result = Z.to_nat m -> length x = Z.to_nat n ->
      exists rt xt hp,
        (hp !!! t) !! VString "grad" = None
        /\ let args := [VNumber (cast_num m); VTable rt; VNumber (cast_num n);
                        VTable xt; VNil; tbl_get (VString "f_data") (hp !!! t)] in
           match funs w fid args hp with
           | (Returns vs, hp') =>
               mfunc m result n x None (Some p) w = Undefined
               \/ exists res,
                   mfunc m result n x None (Some p) w
                   = Ret (res, None)
                         (set_stack (VTable t :: stack w)
                            (log (Ev_pcall (VFunction fid) args hp 0) (set_tables hp' w)))
           | (Raises e, hp') =>
               mfunc m result n x None (Some p) w
               = Ret (result, None)
                     (log (Ev_pcall (VFunction fid) args hp LUA_ERRRUN) (set_tables hp' w))
           end).
Proof.
  intros Hrec Hf.
  destruct (closure_record_inv _ _ _ Hrec) as (r & Hctx & Hreg).
  split.
  - intros n x Hx.
    apply (func_call_site_cps w n x None p r t fid); try done; try lia.
    intros out xt garg hp Hnil _ args Hraise Hret.
    destruct (Hnil eq_refl) as [-> Hslot].
    exists xt, hp. split; [done|]. cbn zeta. fold args.
    destruct (funs w fid args hp) as [[vs|e] hp'] eqn:Hcall.
    + by apply (Hret vs hp' eq_refl).
    + by apply (Hraise e hp').
  - intros m result n x Hres Hx.
    apply (mfunc_call_site_cps w m result n x None p r t fid); try done; try lia.
    intros out rt xt garg hp Hnil _ args Hraise Hret.
    destruct (Hnil eq_refl) as [-> Hslot].
    exists rt, xt, hp. split; [done|]. cbn zeta. fold args.
    destruct (funs w fid args hp) as [[vs|e] hp'] eqn:Hcall.
    + destruct (Hret vs hp' eq_refl) as [Hu|(res & g' & Hr & Hn)]; [by left|].
      right. exists res. by rewrite <- (Hn eq_refl).
    + by apply (Hraise e hp').
Qed.

(** ** Claims on the module functions *)

#[local] Arguments nlopt_srand seed /.
#[local] Arguments nlopt_create algorithm n /.
#[local] Arguments nlopt_set_munge opt d c /.
#[local] Arguments nlopt_get_dimension opt /.
#[local] Arguments cast_ulong : simpl never.

Lemma lua_number2integer_range (d : lua_Number) :
  - 2 ^ 63 <= lua_number2integer d < 2 ^ 63.
Proof.
  unfold lua_number2integer, INT64_MIN.
  repeat match goal with
         | |- context [if ?b then _ else _] => destruct b eqn:?
         end; try lia.
  all: match goal with
       | H : (_ && _) = true |- _ => apply andb_prop in H as [?%Z.leb_le ?%Z.ltb_lt]
       end; lia.
Qed.

Lemma checkinteger_number (narg : Z) (w : world) :
  isnumber (index2adr narg (stack w)) = true ->
  luaL_checkinteger narg w
  = Ret (lua_number2integer (tonumber (index2adr narg (stack w)))) w.
Proof. intros H. cbn. rewrite H. by rewrite andb_false_r. Qed.

(** An integer that a double holds exactly comes back from the two
    conversions as it went in. *)
Lemma number2integer_cast_num_pos (a : Z) (sign : bool) :
  0 < a < 2 ^ 53 ->
  lua_number2integer ((if sign then 2 ^ 63 else 0) + cast_num a)
  = if sign then - a else a.
Proof.
  intros Ha. destruct (cast_num_small a Ha) as (-> & He & HM).
  set (e := Z.log2 a) in *. set (M := a * 2 ^ (52 - e)) in *.
  set (hi := if sign then 2 ^ 11 else 0).
  assert (Hhi : 0 <= hi <= 2 ^ 11) by (unfold hi; destruct sign; lia).
  assert (Ed : (if sign then 2 ^ 63 else 0) + ((e + 1022) * 2 ^ 52 + M)
               = (M - 2 ^ 52) + (hi + e + 1023) * 2 ^ 52).
  { unfold hi. destruct sign; lia. }
  rewrite Ed. unfold lua_number2integer. cbv zeta.
  assert (Hbit : Z.testbit (M - 2 ^ 52 + (hi + e + 1023) * 2 ^ 52) 63 = sign).
  { rewrite Z.testbit_eqb by lia.
    replace (M - 2 ^ 52 + (hi + e + 1023) * 2 ^ 52)
      with ((M - 2 ^ 52 + (e + 1023) * 2 ^ 52) + (if sign then 1 else 0) * 2 ^ 63)
      by (unfold hi; destruct sign; lia).
    rewrite Z.div_add by lia. rewrite Z.div_small by lia.
    by destruct sign. }
  assert (Hsh : Z.shiftr (M - 2 ^ 52 + (hi + e + 1023) * 2 ^ 52) 52 mod 2 ^ 11
                = e + 1023).
  { rewrite Z.shiftr_div_pow2 by lia. rewrite Z.div_add by lia.
    rewrite Z.div_small by lia. cbn [Z.add].
    replace (0 + (hi + e + 1023)) with ((e + 1023) + (if sign then 1 else 0) * 2 ^ 11)
      by (unfold hi; destruct sign; lia).
    rewrite Z.mod_add by lia. apply Z.mod_small. lia. }
  assert (Hm : (M - 2 ^ 52 + (hi + e + 1023) * 2 ^ 52) mod 2 ^ 52 = M - 2 ^ 52).
  { rewrite Z.mod_add by lia. apply Z.mod_small. lia. }
  rewrite Hbit, Hsh, Hm.
  destruct (Z.eqb_spec (e + 1023) 0) as [|_]; [lia|].
  destruct (Z.eqb_spec (e + 1023) 2047) as [|_]; [lia|].
  replace (2 ^ 52 + (M - 2 ^ 52)) with M by lia.
  assert (Hmag : (if 0 <=? e + 1023 - 1075 then M * 2 ^ (e + 1023 - 1075)
                  else M / 2 ^ (- (e + 1023 - 1075))) = a).
  { destruct (Z.leb_spec 0 (e + 1023 - 1075)) as [Hex|Hex].
    - assert (e = 52) as He52 by lia. unfold M. rewrite He52. cbn. lia.
    - replace (- (e + 1023 - 1075)) with (52 - e) by lia. unfold M.
      apply Z.div_mul. apply Z.pow_nonzero; lia. }
  rewrite Hmag. unfold INT64_MIN.
  destruct sign.
  - destruct (Z.leb_spec (- 2 ^ 63) (- a)) as [_|]; [|lia].
    destruct (Z.ltb_spec (- a) (2 ^ 63)) as [_|]; [done|lia].
  - destruct (Z.leb_spec (- 2 ^ 63) a) as [_|]; [|lia].
    destruct (Z.ltb_spec a (2 ^ 63)) as [_|]; [done|lia].
Qed.

Lemma cast_num_neg (a : Z) :
  0 < a < 2 ^ 53 -> cast_num (- a) = 2 ^ 63 + cast_num a.
Proof.
  intros Ha. destruct (cast_num_small a Ha) as (_ & He & _).
  unfold cast_num. rewrite Z.abs_opp, Z.abs_eq by lia.
  destruct (Z.eqb_spec (- a) 0) as [|_]; [lia|].
  destruct (Z.eqb_spec a 0) as [|_]; [lia|].
  destruct (Z.ltb_spec (- a) 0) as [_|]; [|lia].
  destruct (Z.ltb_spec a 0) as [|_]; [lia|].
  destruct (Z.leb_spec (Z.log2 a) 52) as [_|]; [|lia]. lia.
Qed.

Lemma number2integer_cast_num (s : Z) :
  - 2 ^ 53 < s < 2 ^ 53 -> lua_number2integer (cast_num s) = s.
Proof.
  intros Hs. destruct (Z.lt_trichotomy s 0) as [Hneg|[->|Hpos]].
  - assert (Ea : exists a, s = - a /\ 0 < a < 2 ^ 53) by (exists (- s); lia).
    destruct Ea as (a & -> & Ha). rewrite cast_num_neg by done.
    by apply (number2integer_cast_num_pos a true).
  - reflexivity.
  - apply (number2integer_cast_num_pos s false). lia.
Qed.

(** C10. [srand] on a numeric argument whose conversion to [lua_Integer]
    is [i]: an argument error for position 1 when [i] is negative, raised
    before the library is called; otherwise the library's seed function
    is called with [i] converted to [unsigned long], its low 32 bits, and
    no value is returned.  So an integer seed [s] that a double holds
    exactly is refused when it is negative and forwarded as it is when
    it is below 2^32. *)
Theorem srand_checks_sign_and_forwards (w : world) :
  isnumber (index2adr 1 (stack w)) = true ->
  let i := lua_number2integer (tonumber (index2adr 1 (stack w))) in
  (i < 0 -> srand w = Throw (ArgError 1 "expecting unsigned long") w)
  /\ (0 <= i ->
      srand w = Ret 0 (log (Ev_nlopt "nlopt_srand" [i mod 2 ^ 32] None) w))
  /\ (forall s, index2adr 1 (stack w) = Some (VNumber (cast_num s)) ->
      (- 2 ^ 53 < s < 0 ->
       srand w = Throw (ArgError 1 "expecting unsigned long") w)
      /\ (0 <= s < 2 ^ 32 ->
          srand w = Ret 0 (log (Ev_nlopt "nlopt_srand" [s] None) w))).
Proof.
  intros Hnum. cbv zeta.
  pose proof (checkinteger_number 1 w Hnum) as C1.
  assert (Hneg : forall i, lua_number2integer (tonumber (index2adr 1 (stack w))) = i ->
            i < 0 -> srand w = Throw (ArgError 1 "expecting unsigned long") w).
  { intros i Ei Hi. unfold srand. cbn -[luaL_checkinteger]. rewrite C1, Ei. cbn.
    destruct (Z.ltb_spec i 0); [done|lia]. }
  assert (Hpos : forall i, lua_number2integer (tonumber (index2adr 1 (stack w))) = i ->
            0 <= i ->
            srand w = Ret 0 (log (Ev_nlopt "nlopt_srand" [i mod 2 ^ 32] None) w)).
  { intros i Ei Hi. unfold srand. cbn -[luaL_checkinteger]. rewrite C1, Ei. cbn.
    destruct (Z.ltb_spec i 0); [lia|]. cbn. by destruct w. }
  split; [by apply Hneg|]. split; [by apply Hpos|].
  intros s Hs. rewrite Hs in Hneg, Hpos. cbn [tonumber] in Hneg, Hpos. split.
  - intros Hr. apply (Hneg s); [|lia]. apply number2integer_cast_num. lia.
  - intros Hr. rewrite <- (Z.mod_small s (2 ^ 32)) by lia.
    apply (Hpos s); [|lia]. apply number2integer_cast_num. lia.
Qed.

(** C7. [create] on numeric arguments with integer values [algorithm] and
    [n]: an argument error for position 1 when the algorithm is outside
    [0, NLOPT_NUM_ALGORITHMS), else one for position 2 when [n] is
    negative, both with the world untouched (no call of the library);
    "out of memory" when [nlopt_create] gives NULL, with no userdata
    pushed or allocated; otherwise one value, a new userdata with the
    metatable, holding a new optimiser with both munge hooks set. *)
Theorem create_checks_and_installs_hooks (w : world) :
  isnumber (index2adr 1 (stack w)) = true ->
  let algorithm := lua_number2integer (tonumber (index2adr 1 (stack w))) in
  let n := lua_number2integer (tonumber (index2adr 2 (stack w))) in
  (algorithm < 0 \/ NLOPT_NUM_ALGORITHMS <= algorithm ->
   create w = Throw (ArgError 1 "expecting nlopt.algorithm") w)
  /\ (isnumber (index2adr 2 (stack w)) = true ->
      0 <= algorithm < NLOPT_NUM_ALGORITHMS ->
      (n < 0 -> create w = Throw (ArgError 2 "expecting unsigned integer") w)
      /\ (0 <= n -> malloc_fails w = true ->
          create w
          = Throw (RuntimeError "nlopt_create out of memory")
                  (log (Ev_nlopt "nlopt_create" [algorithm; cast_unsigned n] None) w))
      /\ (0 <= n -> malloc_fails w = false ->
          forall mt, reg_named w !! nlopt_metaName = Some (VTable mt) ->
          let o := fresh (dom (opts w)) in
          let u := fresh (dom (udata w)) in
          (o ∉ dom (opts w)) /\ (u ∉ dom (udata w))
          /\ create w
             = Ret 1
                 (set_stack (VUserdata u :: stack w)
                    (set_udata (<[u := Holder (Some o) (Some mt)]> (udata w))
                       (set_opts
                          (<[o := Opt algorithm (cast_unsigned n) None None false [] []
                                      (replicate (Z.to_nat (cast_unsigned n)) neg_HUGE_VAL)
                                      (replicate (Z.to_nat (cast_unsigned n)) HUGE_VAL)
                                      (replicate (Z.to_nat (cast_unsigned n)) 0)
                                      (Some fn_munge_on_destroy)
                                      (Some fn_munge_on_copy)]> (opts w))
                          (log (Ev_nlopt "nlopt_create" [algorithm; cast_unsigned n] None)
                               w)))))).
Proof.
  intros H1. cbv zeta.
  pose proof (checkinteger_number 1 w H1) as C1.
  set (algorithm := lua_number2integer (tonumber (index2adr 1 (stack w)))) in *.
  clearbody algorithm. unfold create. split.
  - intros Ha. cbn -[luaL_checkinteger]. rewrite C1. cbn.
    destruct (Z.ltb_spec algorithm 0); [done|].
    destruct (Z.leb_spec NLOPT_NUM_ALGORITHMS algorithm); [done|lia].
  - intros H2 Ha.
    pose proof (checkinteger_number 2 w H2) as C2.
    set (n := lua_number2integer (tonumber (index2adr 2 (stack w)))) in *.
    clearbody n.
    assert (Ha1 : (algorithm <? 0) = false) by (apply Z.ltb_ge; lia).
    assert (Ha2 : (NLOPT_NUM_ALGORITHMS <=? algorithm) = false) by (apply Z.leb_gt; lia).
    split; [|split].
    + intros Hn. cbn -[luaL_checkinteger]. rewrite C1, Ha1, Ha2.
      cbn -[luaL_checkinteger]. rewrite C2.
      by destruct (Z.ltb_spec n 0); [|lia].
    + intros Hn Hoom. cbn -[luaL_checkinteger]. rewrite C1, Ha1, Ha2.
      cbn -[luaL_checkinteger]. rewrite C2.
      destruct (Z.ltb_spec n 0); [lia|]. cbn. rewrite Hoom. cbn.
      by destruct w.
    + intros Hn Hoom mt Hmt.
      split; [apply is_fresh|]. split; [apply is_fresh|].
      cbn -[luaL_checkinteger]. rewrite C1, Ha1, Ha2.
      cbn -[luaL_checkinteger]. rewrite C2.
      destruct (Z.ltb_spec n 0); [lia|]. cbn. rewrite Hoom. cbn.
      rewrite lookup_insert_eq. cbn.
      rewrite lookup_insert_eq. cbn. rewrite Hmt. run.
      destruct w; cbn. unfold with_munge; cbn.
      rewrite !insert_insert_eq. rewrite alter_insert_eq. by cbn.
Qed.

(** ** Sequences in tables *)

Lemma heap_set_lookup_same r k v hp :
  v <> VNil -> (heap_set r k v hp !!! r) !! k = Some v.
Proof.
  intros Hv. unfold heap_set. rewrite lookup_total_insert_eq.
  destruct v; try done; apply lookup_insert_eq.
Qed.

Lemma heap_set_lookup_other r k k' v hp :
  k <> k' -> (heap_set r k v hp !!! r) !! k' = (hp !!! r) !! k'.
Proof.
  intros Hk. unfold heap_set. rewrite lookup_total_insert_eq.
  destruct v; cbn; first [by apply lookup_delete_ne | by apply lookup_insert_ne].
Qed.

Lemma heap_set_other_table r r' k v hp : r <> r' -> heap_set r k v hp !!! r' = hp !!! r'.
Proof. intros Hr. unfold heap_set. by rewrite lookup_total_insert_ne. Qed.

Lemma store_seq_other_table r r' key b count from hp :
  r <> r' -> store_seq r key b count from hp !!! r' = hp !!! r'.
Proof.
  revert from hp. induction count as [|c IH]; intros from hp Hr; [done|].
  cbn. rewrite IH by done. by apply heap_set_other_table.
Qed.

(** Keys [key from .. key (from + count - 1)] are written, the others kept. *)
Lemma store_seq_lookup_out r key b count :
  forall from hp k,
    (forall i, (i < count)%nat -> k <> VNumber (cast_num (key (from + Z.of_nat i)))) ->
    (store_seq r key b count from hp !!! r) !! k = (hp !!! r) !! k.
Proof.
  induction count as [|c IH]; intros from hp k Hk; [done|].
  cbn [store_seq]. rewrite IH.
  - apply heap_set_lookup_other. intros <-. apply (Hk 0%nat); [lia|].
    by rewrite Z.add_0_r.
  - intros i Hi. replace (from + 1 + Z.of_nat i) with (from + Z.of_nat (S i)) by lia.
    apply Hk. lia.
Qed.

Lemma store_seq_lookup_in r key b count :
  forall from hp j,
    (forall i i', (i < count)%nat -> (i' < count)%nat ->
       cast_num (key (from + Z.of_nat i)) = cast_num (key (from + Z.of_nat i')) -> i = i') ->
    (j < count)%nat ->
    (store_seq r key b count from hp !!! r) !! VNumber (cast_num (key (from + Z.of_nat j)))
    = Some (VNumber (b !!! Z.to_nat (from + Z.of_nat j))).
Proof.
  induction count as [|c IH]; intros from hp j Hinj Hj; [lia|].
  cbn [store_seq]. destruct j as [|j].
  - rewrite Z.add_0_r. rewrite store_seq_lookup_out.
    + by apply heap_set_lookup_same.
    + intros i Hi [= Heq].
      replace (from + 1 + Z.of_nat i) with (from + Z.of_nat (S i)) in Heq by lia.
      replace from with (from + Z.of_nat 0) in Heq at 1 by lia.
      apply Hinj in Heq; lia.
  - replace (from + Z.of_nat (S j)) with (from + 1 + Z.of_nat j) by lia.
    apply IH; [|lia].
    intros i i' Hi Hi' Heq.
    replace (from + 1 + Z.of_nat i) with (from + Z.of_nat (S i)) in Heq by lia.
    replace (from + 1 + Z.of_nat i') with (from + Z.of_nat (S i')) in Heq by lia.
    apply Hinj in Heq; lia.
Qed.

Lemma store_seq_dom r key b count :
  forall from hp k,
    is_Some ((store_seq r key b count from hp !!! r) !! k) ->
    is_Some ((hp !!! r) !! k)
    \/ exists i, (i < count)%nat /\ k = VNumber (cast_num (key (from + Z.of_nat i))).
Proof.
  induction count as [|c IH]; intros from hp k Hk; [by left|].
  cbn [store_seq] in Hk. apply IH in Hk as [Hk|(i & Hi & ->)].
  - destruct (decide (k = VNumber (cast_num (key from)))) as [->|Hne].
    + right. exists 0%nat. split; [lia|]. by rewrite Z.add_0_r.
    + left. by rewrite heap_set_lookup_other in Hk.
  - right. exists (S i). split; [lia|]. do 3 f_equal. lia.
Qed.

Lemma read_seq_length key tb count :
  forall from v, length (read_seq key tb count from v) = length v.
Proof.
  induction count as [|c IH]; intros from v; [done|].
  cbn. by rewrite IH, length_insert.
Qed.

Lemma read_seq_lookup key tb count :
  forall from v j,
    0 <= from -> (Z.to_nat from + count <= length v)%nat ->
    read_seq key tb count from v !! j
    = if decide (Z.to_nat from <= j < Z.to_nat from + count)%nat
      then Some (tonumber (Some (tbl_get (VNumber (cast_num (key (Z.of_nat j)))) tb)))
      else v !! j.
Proof.
  induction count as [|c IH]; intros from v j Hfrom Hlen.
  - cbn. case_decide; [lia|done].
  - cbn [read_seq]. rewrite IH by (rewrite ?length_insert; lia).
    replace (Z.to_nat (from + 1)) with (Datatypes.S (Z.to_nat from)) by lia.
    destruct (decide (j = Z.to_nat from)) as [->|Hne].
    + rewrite decide_False by lia. rewrite decide_True by lia.
      rewrite list_lookup_insert_eq by lia. by rewrite Z2Nat.id.
    + rewrite list_lookup_insert_ne by done.
      repeat case_decide; try lia; done.
Qed.

(** Reading a whole vector gives the numeric readings of entries 1..n. *)
Lemma read_seq_table_seq tb (n : nat) :
  read_seq (fun i => i + 1) tb n 0 (replicate n 0)
  = (fun v => tonumber (Some v)) <$> table_seq tb n.
Proof.
  apply list_eq. intros j.
  rewrite read_seq_lookup by (rewrite ?length_replicate; lia).
  unfold table_seq. rewrite <- list_fmap_compose, list_lookup_fmap.
  case_decide as Hj.
  - rewrite lookup_seq_lt by lia. done.
  - rewrite lookup_seq_ge by lia. cbn. apply lookup_replicate_None. lia.
Qed.

Lemma tonumber_numbers (v : list lua_Number) :
  (fun v => tonumber (Some v)) <$> (VNumber <$> v) = v.
Proof. rewrite <- list_fmap_compose. by rewrite <- (list_fmap_id v) at 2. Qed.

Lemma cast_num_keys_inj (key : Z -> Z) (n : nat) :
  (forall i, 0 <= i < Z.of_nat n -> key i = i + 1) -> Z.of_nat n < 2 ^ 52 ->
  forall i i', (i < n)%nat -> (i' < n)%nat ->
    cast_num (key (0 + Z.of_nat i)) = cast_num (key (0 + Z.of_nat i')) -> i = i'.
Proof.
  intros Hkey Hn i j Hi Hj Heq.
  rewrite !Hkey in Heq by lia.
  assert (0 + Z.of_nat i + 1 = 0 + Z.of_nat j + 1); [|lia].
  apply cast_num_inj; [lia|lia|done].
Qed.

(** After storing [b] under keys 1..n of a table, the table holds [b] as
    its sequence, and nothing else was added. *)
Lemma store_seq_table_seq r key b (n : nat) hp :
  (forall i, 0 <= i < Z.of_nat n -> key i = i + 1) ->
  Z.of_nat n < 2 ^ 52 -> length b = n ->
  table_seq (store_seq r key b n 0 hp !!! r) n = VNumber <$> b
  /\ forall k, is_Some ((store_seq r key b n 0 hp !!! r) !! k) ->
               is_Some ((hp !!! r) !! k)
               \/ exists i, (i < n)%nat /\ k = VNumber (cast_num (Z.of_nat i + 1)).
Proof.
  intros Hkey Hn Hlen.
  pose proof (cast_num_keys_inj key n Hkey Hn) as Hinj.
  split.
  - apply list_eq. intros j. unfold table_seq. rewrite !list_lookup_fmap.
    destruct (decide (j < n)%nat) as [Hj|Hj].
    + rewrite lookup_seq_lt by lia. cbn. unfold tbl_get.
      pose proof (store_seq_lookup_in r key b n 0 hp j Hinj Hj) as Hl.
      rewrite Z.add_0_l, Hkey in Hl by lia. rewrite Hl. cbn.
      rewrite Nat2Z.id.
      destruct (lookup_lt_is_Some_2 b j) as [x Hx]; [lia|].
      by rewrite Hx, (list_lookup_total_correct _ _ _ Hx).
    + rewrite lookup_seq_ge by lia. cbn. symmetry.
      rewrite lookup_ge_None_2; [done|lia].
  - intros k Hk. apply store_seq_dom in Hk as [Hk|(i & Hi & ->)]; [by left|].
    right. exists i. split; [done|]. by rewrite Z.add_0_l, Hkey by lia.
Qed.

(** ** Vectors across the boundary *)

Lemma read_vector_ok idx n v0 r w :
  (forall k, index2adr idx (k :: stack w) = Some (VTable r)) ->
  read_vector idx n v0 w
  = Ret (read_seq (fun i => i + 1) (tables w !!! r) (Z.to_nat n) 0 v0) w.
Proof.
  intros Hidx. unfold read_vector, for_upto. generalize 0 as from. revert v0.
  set (body := fun i (v : list lua_Number) => _).
  induction (Z.to_nat n) as [|c IH]; intros v0 from; [done|].
  rewrite for_loop_step.
  assert (Hb : body from v0 w
               = Ret (<[Z.to_nat from :=
                         tonumber (Some (tbl_get (VNumber (cast_num (from + 1)))
                                                 (tables w !!! r)))]> v0) w).
  { unfold body. destruct w as [S T F RR RN U C O MF TR]; cbn in *.
    rewrite Hidx. by cbn. }
  rewrite Hb. apply IH.
Qed.

Lemma write_back_ok idx n x r w :
  (forall a b, index2adr idx (a :: b :: stack w) = Some (VTable r)) ->
  (Z.to_nat n <= length x)%nat ->
  write_back idx n x w
  = Ret tt (set_tables (store_seq r (fun i => i + 1) x (Z.to_nat n) 0 (tables w)) w).
Proof.
  intros Hidx. unfold write_back, for_upto.
  assert (Hfrom : 0 <= 0) by lia. revert Hfrom.
  replace (Z.to_nat n <= length x)%nat with (Z.to_nat 0 + Z.to_nat n <= length x)%nat
    by (f_equal; lia).
  generalize 0 as from. revert w Hidx.
  set (body := fun i (_ : unit) => _).
  induction (Z.to_nat n) as [|c IH]; intros w Hidx from Hfrom Hlen.
  - by destruct w.
  - rewrite for_loop_step.
    destruct (lookup_lt_is_Some_2 x (Z.to_nat from)) as [v Hv]; [lia|].
    destruct w as [S T F RR RN U C O MF TR]; cbn in Hidx.
    assert (Hb : body from tt (World S T F RR RN U C O MF TR)
                 = Ret tt (World S (heap_set r (VNumber (cast_num (from + 1)))
                                             (VNumber v) T) F RR RN U C O MF TR)).
    { unfold body. cbn. rewrite Hv. cbn. by rewrite Hidx. }
    rewrite Hb, IH; [|done|lia|lia].
    cbn. by rewrite (list_lookup_total_correct _ _ _ Hv).
Qed.

Lemma check_ok w u o os :
  designates 1 (stack w) (VUserdata u) -> valid_handle w u o os ->
  check 1 w = Ret u w /\ holder_obj u w = Ret (Some o) w /\ opt_read o w = Ret os w.
Proof.
  intros H1 (mt & Hu & Hmt & Ho). cbn.
  rewrite (designates_0 _ _ _ H1), Hu, Ho. cbn. rewrite Hmt.
  by rewrite N.eqb_refl.
Qed.

Lemma designates_call_1 v args w : designates 1 (stack (call (v :: args) w)) v.
Proof.
  change (stack (call (v :: args) w)) with (reverse (v :: args)).
  apply (designates_positive 0). by rewrite reverse_involutive.
Qed.

Lemma designates_call_2 v1 v args w : designates 2 (stack (call (v1 :: v :: args) w)) v.
Proof.
  change (stack (call (v1 :: v :: args) w)) with (reverse (v1 :: v :: args)).
  apply (designates_positive 1). by rewrite reverse_involutive.
Qed.

Lemma cast_int_dim (os : nlopt_opt_s) :
  0 <= o_n os <= INT_MAX -> cast_int (o_n os) = o_n os.
Proof. apply cast_int_small. Qed.

Lemma vec_get_put fld l os : vec_get fld (vec_put fld l os) = l.
Proof. by destruct fld. Qed.

Lemma o_n_vec_put fld l os : o_n (vec_put fld l os) = o_n os.
Proof. by destruct fld. Qed.

#[local] Arguments nlopt_set_vec fld opt v /.
#[local] Arguments nlopt_get_vec fld opt buf /.
#[local] Arguments call args w /.

Lemma set_vec_run (fld : vec_field) (w : world) (u o r : N) (os : nlopt_opt_s) :
  designates 1 (stack w) (VUserdata u) ->
  designates 2 (stack w) (VTable r) ->
  valid_handle w u o os ->
  0 <= o_n os <= INT_MAX ->
  let x := (fun v => tonumber (Some v)) <$> table_seq (tables w !!! r) (Z.to_nat (o_n os)) in
  set_vec (nlopt_set_vec fld) w
  = Ret 1 (set_stack (VNumber (cast_num NLOPT_SUCCESS) :: stack w)
             (set_opts (<[o := vec_put fld x os]> (opts w))
                (log (Ev_nlopt "nlopt_set_vec" [] (Some x)) w))).
Proof.
  intros D1 D2 Hh Hn x.
  destruct (check_ok _ _ _ _ D1 Hh) as (Hc & Ho & Hos).
  assert (Hn' : (o_n os <? 0) = false) by (apply Z.ltb_ge; lia).
  unfold set_vec. cbn -[check holder_obj opt_read].
  rewrite Hc. cbn -[check holder_obj opt_read].
  rewrite (designates_0 _ _ _ D2). cbn -[check holder_obj opt_read].
  rewrite Ho. cbn -[check holder_obj opt_read].
  rewrite Hos. cbn -[check holder_obj opt_read].
  rewrite (cast_int_dim os Hn), Hn'. cbn -[check holder_obj opt_read].
  rewrite (read_vector_ok 2 _ _ r); [|intros k; apply (designates_1 _ _ _ _ D2)].
  rewrite read_seq_table_seq. fold x.
  destruct Hh as (mt & Hu & Hmt & Hoo).
  destruct w as [S T F RR RN U C O MF TR]; cbn in *.
  rewrite Hoo. cbn.
  assert (Hlx : length x = Z.to_nat (o_n os)).
  { unfold x, table_seq. by rewrite !length_fmap, length_seq. }
  rewrite decide_True by lia. cbn.
  by rewrite <- Hlx, firstn_all.
Qed.

Lemma get_vec_run (fld : vec_field) (w : world) (u o : N) (os : nlopt_opt_s) :
  designates 1 (stack w) (VUserdata u) ->
  valid_handle w u o os ->
  0 <= o_n os <= INT_MAX ->
  length (vec_get fld os) = Z.to_nat (o_n os) ->
  let r' := fresh (dom (tables w)) in
  get_vec (nlopt_get_vec fld) w
  = Ret 2 (set_stack (VTable r' :: VNumber (cast_num NLOPT_SUCCESS) :: stack w)
             (set_tables
                (store_seq r' (fun i => cast_int (i + 1)) (vec_get fld os)
                           (Z.to_nat (o_n os)) 0 (<[r' := ∅]> (tables w)))
                (log (Ev_nlopt "nlopt_get_vec" [] None) w))).
Proof.
  intros D1 Hh Hn Hlen r'.
  destruct (check_ok _ _ _ _ D1 Hh) as (Hc & Ho & Hos).
  assert (Hn' : (o_n os <? 0) = false) by (apply Z.ltb_ge; lia).
  unfold get_vec. cbn -[check holder_obj opt_read].
  rewrite Hc. cbn -[check holder_obj opt_read].
  rewrite Ho. cbn -[check holder_obj opt_read].
  rewrite Hos. cbn -[check holder_obj opt_read].
  rewrite (cast_int_dim os Hn), Hn'. cbn -[check holder_obj opt_read].
  destruct Hh as (mt & Hu & Hmt & Hoo).
  destruct w as [S T F RR RN U C O MF TR]; cbn in *.
  rewrite Hoo. cbn.
  rewrite decide_True by (rewrite length_replicate; lia). cbn.
  rewrite (store_array_ok (-2) _ _ r'); [|intros ?; by idx|].
  - cbn. rewrite <- Hlen, firstn_all, drop_replicate, Nat.sub_diag. cbn.
    by rewrite app_nil_r.
  - cbn. rewrite length_app, length_take. lia.
Qed.

Lemma vec_roundtrip (fld : vec_field) (w : world) (u o r : N) (os : nlopt_opt_s)
    (v : list lua_Number) :
  valid_handle w u o os ->
  0 <= o_n os <= INT_MAX ->
  length v = Z.to_nat (o_n os) ->
  table_seq (tables w !!! r) (length v) = VNumber <$> v ->
  roundtrips (set_vec (nlopt_set_vec fld)) (get_vec (nlopt_get_vec fld)) w u r v.
Proof.
  intros Hh Hn Hlen Hv.
  unfold roundtrips.
  pose proof (designates_call_1 (VUserdata u) [VTable r] w) as D1.
  pose proof (designates_call_2 (VUserdata u) (VTable r) [] w) as D2.
  assert (Hh' : valid_handle (call [VUserdata u; VTable r] w) u o os) by by destruct w.
  rewrite (set_vec_run fld _ u o r os D1 D2 Hh' Hn).
  eexists. split; [reflexivity|].
  set (w1 := call [VUserdata u] _).
  assert (Hx : (fun v => tonumber (Some v)) <$>
                 table_seq (tables (call [VUserdata u; VTable r] w) !!! r)
                           (Z.to_nat (o_n os)) = v).
  { rewrite <- Hlen. destruct w; cbn in *. rewrite Hv. apply tonumber_numbers. }
  assert (Hh1 : valid_handle w1 u o (vec_put fld v os)).
  { destruct Hh as (mt & Hu & Hmt & Hoo). exists mt. subst w1.
    destruct w; cbn in *. rewrite Hx. split; [done|]. split; [done|].
    apply lookup_insert_eq. }
  pose proof (designates_call_1 (VUserdata u) [] (set_stack
     (VNumber (cast_num NLOPT_SUCCESS) :: stack (call [VUserdata u; VTable r] w))
     (set_opts
        (<[o:=vec_put fld
                ((fun v => tonumber (Some v)) <$>
                 table_seq (tables (call [VUserdata u; VTable r] w) !!! r)
                   (Z.to_nat (o_n os))) os]>
           (opts (call [VUserdata u; VTable r] w)))
        (log
           (Ev_nlopt "nlopt_set_vec" []
              (Some
                 ((fun v => tonumber (Some v)) <$>
                  table_seq (tables (call [VUserdata u; VTable r] w) !!! r)
                    (Z.to_nat (o_n os)))))
           (call [VUserdata u; VTable r] w))))) as D1'.
  fold w1 in D1'.
  rewrite (get_vec_run fld w1 u o (vec_put fld v os) D1' Hh1);
    [|by rewrite o_n_vec_put|by rewrite vec_get_put, o_n_vec_put].
  eexists _, _. split; [reflexivity|].
  rewrite vec_get_put, o_n_vec_put. cbn [stack tables set_stack set_tables log].
  split; [by subst w1; destruct w|].
  rewrite <- Hlen.
  destruct (store_seq_table_seq (fresh (dom (tables w1))) (fun i => cast_int (i + 1)) v
              (length v) (<[fresh (dom (tables w1)) := ∅]> (tables w1))) as [Hs Hd].
  - intros i Hi. apply cast_int_small. unfold INT_MAX in *. lia.
  - unfold INT_MAX in *. lia.
  - done.
  - split; [done|]. intros k Hk. apply Hd in Hk as [Hk|Hk]; [|done].
    rewrite lookup_total_insert_eq, lookup_empty in Hk. by destruct Hk.
Qed.

(** C9. On a handle of dimension n (within [int]) and a table holding the
    n doubles [v], each vector setter followed by its getter returns a
    table whose entries 1..n are the bit patterns of [v], and no other
    entry. *)
Theorem vector_bounds_round_trip (w : world) (u o r : N) (os : nlopt_opt_s)
    (v : list lua_Number) :
  valid_handle w u o os ->
  0 <= o_n os <= INT_MAX ->
  length v = Z.to_nat (o_n os) ->
  table_seq (tables w !!! r) (length v) = VNumber <$> v ->
  roundtrips set_lower_bounds get_lower_bounds w u r v
  /\ roundtrips set_upper_bounds get_upper_bounds w u r v
  /\ roundtrips set_xtol_abs get_xtol_abs w u r v.
Proof.
  intros Hh Hn Hlen Hv.
  split; [|split].
  - exact (vec_roundtrip F_lb w u o r os v Hh Hn Hlen Hv).
  - exact (vec_roundtrip F_ub w u o r os v Hh Hn Hlen Hv).
  - exact (vec_roundtrip F_xtol_abs w u o r os v Hh Hn Hlen Hv).
Qed.

(** ** What a callback invocation leaves behind *)

Lemma frame_ext_refl w : frame_ext w w.
Proof. exists [], (tables w), []. destruct w; cbn. by rewrite app_nil_r. Qed.

Lemma frame_ext_trans w1 w2 w3 : frame_ext w1 w2 -> frame_ext w2 w3 -> frame_ext w1 w3.
Proof.
  intros (j1 & h1 & t1 & ->) (j2 & h2 & t2 & ->). cbn.
  exists (j2 ++ j1), h2, (t1 ++ t2). by rewrite !app_assoc.
Qed.

Ltac frame_step :=
  match goal with
  | |- context [scratch_table ?t ?nm ?w] =>
      destruct (scratch_table_frame t nm w) as [->|(? & ? & ->)]
  | |- context [store_array ?i ?n ?b ?w] =>
      destruct (store_array_frame i n b w) as [->|(? & ->)]
  | |- context [load_array ?i ?n ?b ?w] =>
      destruct (load_array_frame i n b w) as [->|(? & ->)]
  end.

Ltac frame_done :=
  first
    [ done
    | intros [= <- <-];
      first [ eexists [], _, []; cbn; by rewrite app_nil_r
            | by eexists [], _, [_]
            | by eexists [_], _, [_] ] ].

Lemma func_frame n x grad fd w a w' :
  func n x grad fd w = Ret a w' -> frame_ext w w'.
Proof.
  destruct w as [S T F RR RN U C O MF TR]. unfold func, frame_ext.
  destruct fd as [p|]; [|frame_done].
  run. destruct (C !! p) as [[r]|]; [|done]. run.
  destruct (registry_get r _) as [| | | |t| |]; try done. run.
  destruct (tbl_get (VString "f") (T !!! t)) as [| | | | |fid|]; run; try frame_done.
  frame_step; run; [done|].
  frame_step; run; [done|].
  destruct grad as [g|]; run.
  - frame_step; run; [done|].
    frame_step; run; [done|].
    match goal with
    | |- context [F fid ?args ?hp] => destruct (F fid args hp) as [[[|v1 vs]|e] hp']
    end; run; try frame_done.
    all: match goal with
         | |- context [match tbl_get ?k ?tb with _ => _ end] => idtac
         | _ => idtac
         end.
    all: frame_step; run; frame_done.
  - match goal with
    | |- context [F fid ?args ?hp] => destruct (F fid args hp) as [[[|v1 vs]|e] hp']
    end; run; frame_done.
Qed.

Lemma mfunc_frame m result n x grad fd w a w' :
  mfunc m result n x grad fd w = Ret a w' -> frame_ext w w'.
Proof.
  destruct w as [S T F RR RN U C O MF TR]. unfold mfunc, frame_ext.
  destruct fd as [p|]; [|frame_done].
  run. destruct (C !! p) as [[r]|]; [|done]. run.
  destruct (registry_get r _) as [| | | |t| |]; try done. run.
  destruct (tbl_get (VString "f") (T !!! t)) as [| | | | |fid|]; run; try frame_done.
  frame_step; run; [done|].
  frame_step; run; [done|].
  frame_step; run; [done|].
  frame_step; run; [done|].
  destruct grad as [g|]; run.
  - frame_step; run; [done|].
    frame_step; run; [done|].
    match goal with
    | |- context [F fid ?args ?hp] => destruct (F fid args hp) as [[vs|e] hp']
    end; run; try frame_done.
    frame_step; run; [done|].
    frame_step; run; frame_done.
  - match goal with
    | |- context [F fid ?args ?hp] => destruct (F fid args hp) as [[vs|e] hp']
    end; run; try frame_done.
    frame_step; run; frame_done.
Qed.

Lemma run_native_frame o r optf :
  forall w res w', run_native o r optf w = Ret res w' -> frame_ext w w'.
Proof.
  induction r as [ret x' f'|x grad k IH|equality i result x grad k IH]; intros w res w'.
  - cbn. intros [= <- <-]. apply frame_ext_refl.
  - cbn. destruct (opts w !! o) as [os|] eqn:Ho; [|done]. cbn.
    destruct (o_f os) as [[]|]; try done.
    cbn. destruct (func _ _ _ _ w) as [vg w1| |] eqn:Hf; try done.
    intros Hr. apply func_frame in Hf. apply IH in Hr.
    by apply (frame_ext_trans _ w1).
  - cbn. destruct (opts w !! o) as [os|] eqn:Ho; [|done]. cbn.
    destruct (_ !! i) as [c|]; [|done].
    destruct (c_f c); cbn.
    + destruct (func _ _ _ _ w) as [vg w1| |] eqn:Hf; try done.
      intros Hr. apply func_frame in Hf. apply IH in Hr.
      by apply (frame_ext_trans _ w1).
    + destruct (mfunc _ _ _ _ _ _ w) as [vg w1| |] eqn:Hf; try done.
      intros Hr. apply mfunc_frame in Hf. apply IH in Hr.
      by apply (frame_ext_trans _ w1).
Qed.

Lemma nlopt_optimize_frame opt x optf w res w' :
  nlopt_optimize opt x optf w = Ret res w' -> frame_ext w w'.
Proof.
  unfold nlopt_optimize. cbn.
  destruct opt as [o|].
  - cbn. destruct (opts w !! o) as [os|] eqn:Ho; cbn; [|done].
    intros Hr. apply run_native_frame in Hr.
    eapply frame_ext_trans; [|exact Hr].
    exists [], (tables w), [Ev_nlopt "nlopt_optimize" [] (Some x)]. by destruct w.
  - cbn. intros [= <- <-].
    exists [], (tables w), [Ev_nlopt "nlopt_optimize" [] (Some x)]. by destruct w.
Qed.

#[local] Arguments nlopt_optimize : simpl never.

Lemma optimize_run (w : world) (u o r : N) (os : nlopt_opt_s) ret x1 optf w1 :
  designates 1 (stack w) (VUserdata u) ->
  designates 2 (stack w) (VTable r) ->
  valid_handle w u o os ->
  0 <= o_n os <= INT_MAX ->
  let n := Z.to_nat (o_n os) in
  let x0 := (fun v => tonumber (Some v)) <$> table_seq (tables w !!! r) n in
  nlopt_optimize (Some o) x0 indeterminate w = Ret (ret, x1, optf) w1 ->
  length x1 = n ->
  frame_ext w w1
  /\ optimize w
     = Ret 2 (set_stack (VNumber optf :: VNumber (cast_num ret) :: stack w1)
                (set_tables (store_seq r (fun i => i + 1) x1 n 0 (tables w1)) w1)).
Proof.
  intros D1 D2 Hh Hn n x0 Hopt Hlen.
  pose proof (nlopt_optimize_frame _ _ _ _ _ _ Hopt) as Hfr.
  split; [done|].
  destruct (check_ok _ _ _ _ D1 Hh) as (Hc & Ho & Hos).
  assert (Hn' : (o_n os <? 0) = false) by (apply Z.ltb_ge; lia).
  unfold optimize. cbn -[check holder_obj opt_read].
  rewrite Hc. cbn -[check holder_obj opt_read].
  rewrite (designates_0 _ _ _ D2). cbn -[check holder_obj opt_read].
  rewrite Ho. cbn -[check holder_obj opt_read].
  rewrite Hos. cbn -[check holder_obj opt_read].
  rewrite (cast_int_dim os Hn), Hn'. cbn -[check holder_obj opt_read].
  rewrite (read_vector_ok 2 _ _ r); [|intros k; apply (designates_1 _ _ _ _ D2)].
  rewrite read_seq_table_seq. fold n x0. rewrite Hopt.
  cbn -[check holder_obj opt_read].
  destruct Hfr as (junk & hp & tr & ->).
  rewrite (write_back_ok 2 _ _ r); [done| |cbn; lia].
  intros a b. cbn. exact (D2 (a :: b :: VNumber optf :: VNumber (cast_num ret) :: junk)).
Qed.

(** C8. [optimize] on a handle of dimension n (within [int]) and a table
    [r]: the vector handed to [nlopt_optimize] is the numeric reading of
    entries 1..n of [r]; when the library returns the status [ret], the
    point [x1] and the objective value [optf], [optimize] returns two
    values, [ret] below [optf] on the stack, and entries 1..n of the
    same table [r] hold [x1]. *)
Theorem optimize_returns_pair_and_writes_back (w : world) (u o r : N)
    (os : nlopt_opt_s) (ret : Z) (x1 : list lua_Number) (optf : lua_Number)
    (w1 : world) :
  valid_handle w u o os ->
  0 <= o_n os <= INT_MAX ->
  let n := Z.to_nat (o_n os) in
  let x0 := (fun v => tonumber (Some v)) <$> table_seq (tables w !!! r) n in
  nlopt_optimize (Some o) x0 indeterminate (call [VUserdata u; VTable r] w)
  = Ret (ret, x1, optf) w1 ->
  length x1 = n ->
  exists w2 junk,
    optimize (call [VUserdata u; VTable r] w) = Ret 2 w2
    /\ stack w2 = VNumber optf :: VNumber (cast_num ret) :: junk ++ [VTable r; VUserdata u]
    /\ table_seq (tables w2 !!! r) n = VNumber <$> x1.
Proof.
  intros Hh Hn n x0 Hopt Hlen.
  pose proof (designates_call_1 (VUserdata u) [VTable r] w) as D1.
  pose proof (designates_call_2 (VUserdata u) (VTable r) [] w) as D2.
  assert (Hh' : valid_handle (call [VUserdata u; VTable r] w) u o os) by by destruct w.
  assert (Ht : tables (call [VUserdata u; VTable r] w) = tables w) by by destruct w.
  destruct (optimize_run _ u o r os ret x1 optf w1 D1 D2 Hh' Hn) as [Hfr Hrun].
  { by rewrite Ht. }
  { done. }
  rewrite Hrun. destruct Hfr as (junk & hp & tr & ->).
  eexists _, junk. split; [reflexivity|]. split; [done|].
  cbn [tables set_stack set_tables].
  apply store_seq_table_seq; [done| |done].
  unfold INT_MAX in Hn. lia.
Qed.

(** ** The munge hooks *)

Lemma munge_on_destroy_run (p : N) (c : callback_context) (w : world) :
  ctxs w !! p = Some c ->
  munge_on_destroy (Some p) w = Ret None (release p w).
Proof.
  intros Hp. unfold munge_on_destroy, release, unref_world, ctx_ref.
  cbn. rewrite Hp. cbn.
  destruct (Z.leb_spec 0 (ref c)) as [Hr|Hr]; cbn.
  - destruct (ref c) as [|q|q] eqn:Hq; cbn; rewrite ?Hp; cbn; try done.
  - rewrite Hp. by destruct w.
Qed.

Lemma munge_on_copy_run (p : N) (r : positive) (t : N) (w : world) :
  ctxs w !! p = Some (Ctx (Zpos r)) ->
  reg_refs w !! r = Some (VTable t) ->
  munge_on_copy (Some p) w = Ret (Some (fresh (dom (ctxs w)))) (duplicate t w).
Proof.
  intros Hp Hr. destruct w as [S T F RR RN U C O MF TR]. cbn in *.
  unfold munge_on_copy, duplicate. run. rewrite Hp. run.
  unfold registry_get. cbn. rewrite Hr. run.
  rewrite lookup_insert_eq. run. by rewrite insert_insert_eq.
Qed.

(** ** Releasing records *)

Lemma release_fields (p : N) (r : positive) (w : world) :
  ctxs w !! p = Some (Ctx (Zpos r)) ->
  release p w
  = World (stack w) (tables w) (funs w) (delete r (reg_refs w)) (reg_named w)
          (udata w) (delete p (ctxs w)) (opts w) (malloc_fails w)
          (trace w ++ [Ev_unref (Zpos r); Ev_delete p]).
Proof.
  intros Hp. unfold release, unref_world, ctx_ref. rewrite Hp. cbn.
  by rewrite <- app_assoc.
Qed.

Lemma release_ctxs p w : ctxs (release p w) = delete p (ctxs w).
Proof.
  unfold release, unref_world. cbn.
  destruct (0 <=? ctx_ref w p); [|done]. by destruct (ctx_ref w p).
Qed.

Lemma registry_wf_release p w :
  registry_wf w -> is_Some (ctxs w !! p) -> registry_wf (release p w).
Proof.
  intros (G1 & G2 & G3) [c Hc].
  destruct (G1 p c Hc) as (r & t & -> & Hr & Ht).
  rewrite (release_fields p r w Hc). split; [|split]; cbn.
  - intros p2 c2 Hp2. apply lookup_delete_Some in Hp2 as [Hne Hp2].
    destruct (G1 p2 c2 Hp2) as (r2 & t2 & -> & Hr2 & Ht2).
    exists r2, t2. split; [done|]. split; [|done].
    rewrite lookup_delete_ne; [done|].
    intros <-. by apply Hne, (G2 p p2 (Ctx (Zpos r))).
  - intros p1 p2 c1 H1 H2.
    apply lookup_delete_Some in H1 as [_ H1]. apply lookup_delete_Some in H2 as [_ H2].
    by apply (G2 p1 p2 c1).
  - assert (Hsub : forall q t', closure_record
             (World (stack w) (tables w) (funs w) (delete r (reg_refs w)) (reg_named w)
                    (udata w) (delete p (ctxs w)) (opts w) (malloc_fails w)
                    (trace w ++ [Ev_unref (Zpos r); Ev_delete p])) q = Some t'
             -> closure_record w q = Some t').
    { intros q t'. unfold closure_record. cbn. intros H.
      destruct (delete p (ctxs w) !! q) as [[[|rq|]]|] eqn:Hq; try done.
      apply lookup_delete_Some in Hq as [_ ->].
      destruct (delete r (reg_refs w) !! rq) as [v|] eqn:Hrq; [|done].
      apply lookup_delete_Some in Hrq as [_ ->]. done. }
    intros p1 p2 t' H1 H2. apply (G3 p1 p2 t'); by apply Hsub.
Qed.

Lemma ptrs_cons c l :
  ptrs (c :: l) = match c_f_data c with Some p => p :: ptrs l | None => ptrs l end.
Proof. reflexivity. Qed.

Lemma munge_constraints_destroy_run (l : list nlopt_constraint) :
  forall w,
    NoDup (ptrs l) ->
    (forall p, p ∈ ptrs l -> is_Some (ctxs w !! p)) ->
    munge_constraints fn_munge_on_destroy l w = Ret tt (release_all (ptrs l) w).
Proof.
  unfold munge_constraints.
  induction l as [|c l IH]; intros w Hnd Hall; [done|].
  cbn [forM_]. rewrite ptrs_cons in *.
  destruct (c_f_data c) as [p|] eqn:Hp; cbn [call_munge].
  - apply NoDup_cons in Hnd as [Hnot Hnd].
    destruct (Hall p) as [c' Hc']; [by left|].
    cbn -[munge_on_destroy forM_ release_all].
    rewrite (munge_on_destroy_run p c' w Hc'). cbn -[forM_ release_all].
    rewrite IH; [done|done|].
    intros p2 Hp2. rewrite release_ctxs, lookup_delete_ne; [|by intros ->].
    apply Hall. by right.
  - cbn -[forM_ release_all]. by apply IH.
Qed.

Lemma ctx_ref_release_ne p q w : p <> q -> ctx_ref (release p w) q = ctx_ref w q.
Proof. intros Hne. unfold ctx_ref. by rewrite release_ctxs, lookup_delete_ne. Qed.

Lemma release_events_ext w w' ps :
  (forall q, q ∈ ps -> ctx_ref w' q = ctx_ref w q) ->
  release_events w' ps = release_events w ps.
Proof.
  induction ps as [|q ps IH]; intros H; [done|].
  cbn. rewrite H by (by left). do 2 f_equal. apply IH. intros q' Hq'. apply H. by right.
Qed.

Lemma release_all_cons p ps w : release_all (p :: ps) w = release_all ps (release p w).
Proof. reflexivity. Qed.

Lemma release_all_app ps1 ps2 w :
  release_all (ps1 ++ ps2) w = release_all ps2 (release_all ps1 w).
Proof. apply foldl_app. Qed.

Lemma release_all_fields ps :
  forall w,
    registry_wf w -> NoDup ps -> (forall p, p ∈ ps -> is_Some (ctxs w !! p)) ->
    let w' := release_all ps w in
    registry_wf w'
    /\ stack w' = stack w /\ tables w' = tables w /\ funs w' = funs w
    /\ reg_named w' = reg_named w /\ udata w' = udata w /\ opts w' = opts w
    /\ malloc_fails w' = malloc_fails w
    /\ trace w' = trace w ++ release_events w ps
    /\ (forall p, ctxs w' !! p = if decide (p ∈ ps) then None else ctxs w !! p)
    /\ (forall r, reg_refs w' !! r
                  = if decide (Zpos r ∈ ctx_ref w <$> ps) then None else reg_refs w !! r).
Proof.
  induction ps as [|p ps IH]; intros w Hwf Hnd Hall.
  - cbn. rewrite app_nil_r. do 9 (split; [done|]). split; intros ?.
    + rewrite decide_False; [done|apply not_elem_of_nil].
    + rewrite decide_False; [done|apply not_elem_of_nil].
  - apply NoDup_cons in Hnd as [Hnot Hnd].
    destruct (Hall p) as [c Hc]; [by left|].
    pose proof Hwf as (G1 & G2 & G3).
    destruct (G1 p c Hc) as (r & t & -> & Hr & Ht).
    assert (Hall1 : forall q, q ∈ ps -> is_Some (ctxs (release p w) !! q)).
    { intros q Hq. rewrite release_ctxs, lookup_delete_ne; [|by intros ->].
      apply Hall. by right. }
    destruct (IH (release p w) (registry_wf_release p w Hwf (Hall p ltac:(by left)))
                 Hnd Hall1)
      as (W & E1 & E2 & E3 & E4 & E5 & E6 & E7 & E8 & E9 & E10).
    rewrite release_all_cons. cbv zeta.
    pose proof (release_fields p r w Hc) as Hrel.
    assert (Hs1 : stack (release p w) = stack w) by by rewrite Hrel.
    assert (Hs2 : tables (release p w) = tables w) by by rewrite Hrel.
    assert (Hs3 : funs (release p w) = funs w) by by rewrite Hrel.
    assert (Hs4 : reg_named (release p w) = reg_named w) by by rewrite Hrel.
    assert (Hs5 : udata (release p w) = udata w) by by rewrite Hrel.
    assert (Hs6 : opts (release p w) = opts w) by by rewrite Hrel.
    assert (Hs7 : malloc_fails (release p w) = malloc_fails w) by by rewrite Hrel.
    assert (Hs8 : trace (release p w) = trace w ++ [Ev_unref (Zpos r); Ev_delete p])
      by by rewrite Hrel.
    assert (Hs9 : reg_refs (release p w) = delete r (reg_refs w)) by by rewrite Hrel.
    rewrite Hs1 in E1. rewrite Hs2 in E2. rewrite Hs3 in E3. rewrite Hs4 in E4.
    rewrite Hs5 in E5. rewrite Hs6 in E6. rewrite Hs7 in E7. rewrite Hs8 in E8.
    assert (E9' : forall q, ctxs (release_all ps (release p w)) !! q
                            = if decide (q ∈ ps) then None else delete p (ctxs w) !! q).
    { intros q. by rewrite E9, release_ctxs. }
    assert (E10' : forall r0, reg_refs (release_all ps (release p w)) !! r0
                     = if decide (Zpos r0 ∈ ctx_ref (release p w) <$> ps) then None
                       else delete r (reg_refs w) !! r0).
    { intros r0. by rewrite E10, Hs9. }
    clear E9 E10. rename E9' into E9. rename E10' into E10.
    do 8 (split; [done|]). split; [|split].
    + rewrite E8, <- app_assoc. f_equal. cbn.
      unfold ctx_ref at 1. rewrite Hc. cbn. do 2 f_equal.
      apply release_events_ext. intros q Hq. apply ctx_ref_release_ne. by intros ->.
    + intros q. rewrite E9.
      destruct (decide (q = p)) as [->|Hne].
      * rewrite (decide_True (P := p ∈ p :: ps)) by by left.
        case_decide; [done|]. apply lookup_delete_eq.
      * rewrite lookup_delete_ne by done.
        destruct (decide (q ∈ ps)).
        -- by rewrite decide_True by by right.
        -- rewrite decide_False; [done|]. by intros [->|?]%elem_of_cons.
    + intros r0. rewrite E10.
      assert (Hmap : ctx_ref (release p w) <$> ps = ctx_ref w <$> ps).
      { apply list_fmap_ext. intros i q Hq. apply ctx_ref_release_ne.
        intros ->. apply Hnot. by eapply list_elem_of_lookup_2. }
      assert (Hrp : ctx_ref w p = Zpos r) by (unfold ctx_ref; by rewrite Hc).
      rewrite Hmap, fmap_cons, Hrp.
      destruct (decide (r0 = r)) as [->|Hne].
      * rewrite (decide_True (P := Zpos r ∈ Zpos r :: _)) by by left.
        case_decide; [done|]. apply lookup_delete_eq.
      * rewrite lookup_delete_ne by done.
        destruct (decide (Zpos r0 ∈ ctx_ref w <$> ps)).
        -- by rewrite decide_True by by right.
        -- rewrite decide_False; [done|]. intros [[=]|?]%elem_of_cons; done.
Qed.

Lemma unref_count_app z l1 l2 :
  unref_count z (l1 ++ l2) = (unref_count z l1 + unref_count z l2)%nat.
Proof. unfold unref_count. by rewrite List.filter_app, length_app. Qed.

Lemma delete_count_app p l1 l2 :
  delete_count p (l1 ++ l2) = (delete_count p l1 + delete_count p l2)%nat.
Proof. unfold delete_count. by rewrite List.filter_app, length_app. Qed.

Lemma unref_count_step z r q l :
  unref_count z (Ev_unref r :: Ev_delete q :: l)
  = ((if (r =? z)%Z then 1 else 0) + unref_count z l)%nat.
Proof.
  unfold unref_count. cbn [List.filter is_unref].
  destruct (r =? z); by rewrite ?length_cons.
Qed.

Lemma delete_count_step p r q l :
  delete_count p (Ev_unref r :: Ev_delete q :: l)
  = ((if (q =? p)%N then 1 else 0) + delete_count p l)%nat.
Proof.
  unfold delete_count. cbn [List.filter is_delete].
  destruct (q =? p)%N; by rewrite ?length_cons.
Qed.

Lemma release_events_cons w q ps :
  release_events w (q :: ps)
  = Ev_unref (ctx_ref w q) :: Ev_delete q :: release_events w ps.
Proof. reflexivity. Qed.

Lemma unref_count_release_events w ps z :
  (z ∉ ctx_ref w <$> ps -> unref_count z (release_events w ps) = 0%nat)
  /\ (NoDup (ctx_ref w <$> ps) -> z ∈ ctx_ref w <$> ps ->
      unref_count z (release_events w ps) = 1%nat).
Proof.
  induction ps as [|q ps [IH0 IH1]].
  - split; [done|]. by intros _ ?%elem_of_nil.
  - rewrite release_events_cons, unref_count_step, fmap_cons. split.
    + intros Hz. apply not_elem_of_cons in Hz as [Hne Hz].
      destruct (Z.eqb_spec (ctx_ref w q) z); [congruence|]. by rewrite IH0.
    + intros [Hq Hnd]%NoDup_cons [Hz|Hz]%elem_of_cons.
      * subst z. by rewrite Z.eqb_refl, IH0.
      * destruct (Z.eqb_spec (ctx_ref w q) z) as [<-|]; [done|]. by rewrite IH1.
Qed.

Lemma delete_count_release_events w ps p :
  (p ∉ ps -> delete_count p (release_events w ps) = 0%nat)
  /\ (NoDup ps -> p ∈ ps -> delete_count p (release_events w ps) = 1%nat).
Proof.
  induction ps as [|q ps [IH0 IH1]].
  - split; [done|]. by intros _ ?%elem_of_nil.
  - rewrite release_events_cons, delete_count_step. split.
    + intros Hz. apply not_elem_of_cons in Hz as [Hne Hz].
      destruct (N.eqb_spec q p); [congruence|]. by rewrite IH0.
    + intros [Hq Hnd]%NoDup_cons [Hz|Hz]%elem_of_cons.
      * subst p. by rewrite N.eqb_refl, IH0.
      * destruct (N.eqb_spec q p) as [<-|]; [done|]. by rewrite IH1.
Qed.

Lemma ctx_ref_inj w p1 p2 :
  registry_wf w -> is_Some (ctxs w !! p1) -> is_Some (ctxs w !! p2) ->
  ctx_ref w p1 = ctx_ref w p2 -> p1 = p2.
Proof.
  intros (G1 & G2 & G3) [c1 H1] [c2 H2]. unfold ctx_ref. rewrite H1, H2.
  destruct c1 as [r1], c2 as [r2]. cbn. intros <-. by apply (G2 p1 p2 (Ctx r1)).
Qed.

Lemma NoDup_ctx_refs w ps :
  registry_wf w -> NoDup ps -> (forall p, p ∈ ps -> is_Some (ctxs w !! p)) ->
  NoDup (ctx_ref w <$> ps).
Proof.
  intros Hwf Hnd Hall. induction Hnd as [|p ps Hnot Hnd IH]; [constructor|].
  cbn. constructor.
  - intros (q & Hq & Hin)%list_elem_of_fmap.
    apply Hnot. replace p with q; [done|].
    symmetry. apply (ctx_ref_inj w); [done|apply Hall; by left|apply Hall; by right|done].
  - apply IH. intros q Hq. apply Hall. by right.
Qed.

(** Releasing the records [ps] of a well-formed world releases each of
    them once and touches no other record. *)
Lemma release_all_released ps w :
  registry_wf w -> NoDup ps -> (forall p, p ∈ ps -> is_Some (ctxs w !! p)) ->
  released w (release_all ps w) ps.
Proof.
  intros Hwf Hnd Hall.
  destruct (release_all_fields ps w Hwf Hnd Hall)
    as (W & E1 & E2 & E3 & E4 & E5 & E6 & E7 & E8 & E9 & E10).
  pose proof (NoDup_ctx_refs w ps Hwf Hnd Hall) as Hndr.
  exists (release_events w ps). split; [done|]. split; [done|]. split.
  - intros p Hp. split; [by rewrite E9, decide_True|].
    destruct (Hall p Hp) as [c Hc]. pose proof Hwf as (G1 & _).
    destruct (G1 p c Hc) as (r & t & -> & Hr & Ht).
    assert (Href : ctx_ref w p = Zpos r) by (unfold ctx_ref; by rewrite Hc).
    assert (Hin : Zpos r ∈ ctx_ref w <$> ps).
    { rewrite <- Href. by apply list_elem_of_fmap_2. }
    exists r. split; [done|]. split; [by rewrite E10, decide_True|]. split.
    + by apply unref_count_release_events.
    + by apply delete_count_release_events.
  - intros p Hp Hal.
    assert (Hnr : ctx_ref w p ∉ ctx_ref w <$> ps).
    { intros (q & Hq & Hin)%list_elem_of_fmap. apply Hp.
      replace p with q; [done|]. symmetry.
      apply (ctx_ref_inj w); [done|done|by apply Hall|done]. }
    split; [|split].
    + assert (Hc : ctxs (release_all ps w) !! p = ctxs w !! p).
      { by rewrite E9, decide_False. }
      split; [done|].
      unfold closure_view, closure_record, closure_field. rewrite Hc, E2.
      destruct (ctxs w !! p) as [[[|r|]]|] eqn:Hcp; try done.
      rewrite E10, decide_False; [done|].
      unfold ctx_ref in Hnr. by rewrite Hcp in Hnr.
    + by apply unref_count_release_events.
    + by apply delete_count_release_events.
Qed.

Lemma unref_count_nlopt z name args tol l :
  unref_count z (Ev_nlopt name args tol :: l) = unref_count z l.
Proof. reflexivity. Qed.

Lemma delete_count_nlopt p name args tol l :
  delete_count p (Ev_nlopt name args tol :: l) = delete_count p l.
Proof. reflexivity. Qed.

(** [released] looks at the contexts, the registry, the tables and the
    trace only, and a native call recorded before the releases does not
    count as one. *)
Lemma released_ext (w0 w w' w'' : world) ps name args tol :
  ctxs w = ctxs w0 -> reg_refs w = reg_refs w0 -> tables w = tables w0 ->
  trace w = trace w0 ++ [Ev_nlopt name args tol] ->
  ctxs w'' = ctxs w' -> reg_refs w'' = reg_refs w' -> tables w'' = tables w' ->
  trace w'' = trace w' ->
  released w w' ps -> released w0 w'' ps.
Proof.
  intros Hc Hr Ht Htr Hc' Hr' Ht' Htr' (added & E1 & E2 & E3 & E4).
  assert (Href : forall p, ctx_ref w p = ctx_ref w0 p).
  { intros p. unfold ctx_ref. by rewrite Hc. }
  assert (Hview : forall p, closure_view w'' p = closure_view w' p
                            /\ closure_view w p = closure_view w0 p).
  { intros p. unfold closure_view, closure_record, closure_field.
    by rewrite Hc, Hr, Ht, Hc', Hr', Ht'. }
  exists (Ev_nlopt name args tol :: added). split; [|split; [|split]].
  - rewrite Htr', E1, Htr, <- app_assoc. done.
  - by rewrite Ht', E2.
  - intros p Hp. destruct (E3 p Hp) as (F1 & r & F2 & F3 & F4 & F5).
    split; [by rewrite Hc'|]. exists r.
    rewrite <- Href, Hr', unref_count_nlopt, delete_count_nlopt. done.
  - intros p Hp Hal. rewrite <- Hc in Hal.
    destruct (E4 p Hp Hal) as ((F1 & F2) & F3 & F4).
    rewrite unref_count_nlopt, delete_count_nlopt, <- Href.
    split; [|done]. split.
    + by rewrite Hc', F1, Hc.
    + destruct (Hview p) as [-> <-]. done.
Qed.

Lemma munge_f_data_destroy_run (fd : option N) (w : world) :
  (forall p, p ∈ option_list fd -> is_Some (ctxs w !! p)) ->
  munge_on_destroy fd w = Ret None (release_all (option_list fd) w).
Proof.
  destruct fd as [p|]; intros Hall; [|done].
  destruct (Hall p) as [c Hc]; [by left|].
  by rewrite (munge_on_destroy_run p c w Hc).
Qed.

Lemma NoDup_option_list {A} (o : option A) : NoDup (option_list o).
Proof. destruct o; cbn; [apply NoDup_singleton|apply NoDup_nil_2]. Qed.

#[local] Arguments munge_on_destroy : simpl never.
#[local] Arguments munge_constraints : simpl never.
#[local] Arguments release_all : simpl never.
#[local] Arguments call_munge hook p /.

(** [nlopt_destroy] hands every callback pointer of the object to the
    destroy hook, in the order objective, inequality, equality. *)
Lemma nlopt_destroy_run (o : N) (os : nlopt_opt_s) (w : world) :
  registry_wf w -> opts w !! o = Some os ->
  o_munge_on_destroy os = Some fn_munge_on_destroy ->
  NoDup (closures_of os) ->
  (forall p, p ∈ closures_of os -> is_Some (ctxs w !! p)) ->
  let w' := release_all (closures_of os) (log (Ev_nlopt "nlopt_destroy" [] None) w) in
  nlopt_destroy (Some o) w = Ret tt (set_opts (delete o (opts w)) w')
  /\ released w (set_opts (delete o (opts w)) w') (closures_of os).
Proof.
  intros Hwf Ho Hm Hnd Hall w'.
  set (w0 := log (Ev_nlopt "nlopt_destroy" [] None) w) in *.
  assert (Hwf0 : registry_wf w0) by done.
  assert (Hall0 : forall p, p ∈ closures_of os -> is_Some (ctxs w0 !! p)) by done.
  pose proof (release_all_released _ _ Hwf0 Hnd Hall0) as Hrel.
  split; [|by eapply (released_ext w w0 w')].
  unfold closures_of in *.
  apply NoDup_app in Hnd as (Hnd1 & Hd12 & Hnd23).
  apply NoDup_app in Hnd23 as (Hnd2 & Hd23 & Hnd3).
  destruct (release_all_fields (option_list (o_f_data os)) w0 Hwf0 Hnd1)
    as (W1 & _ & _ & _ & _ & _ & O1 & _ & _ & C1 & _).
  { intros p Hp. apply Hall0. apply elem_of_app. by left. }
  set (w1 := release_all (option_list (o_f_data os)) w0) in *.
  assert (Hall1 : forall p, p ∈ ptrs (o_fc os) ++ ptrs (o_h os) -> is_Some (ctxs w1 !! p)).
  { intros p Hp. rewrite C1, decide_False.
    - apply Hall0. apply elem_of_app. by right.
    - intros Hin. by apply (Hd12 p). }
  destruct (release_all_fields (ptrs (o_fc os)) w1 W1 Hnd2)
    as (W2 & _ & _ & _ & _ & _ & O2 & _ & _ & C2 & _).
  { intros p Hp. apply Hall1. apply elem_of_app. by left. }
  set (w2 := release_all (ptrs (o_fc os)) w1) in *.
  assert (Hall2 : forall p, p ∈ ptrs (o_h os) -> is_Some (ctxs w2 !! p)).
  { intros p Hp. rewrite C2, decide_False.
    - apply Hall1. apply elem_of_app. by right.
    - intros Hin. by apply (Hd23 p). }
  destruct (release_all_fields (ptrs (o_h os)) w2 W2 Hnd3)
    as (W3 & _ & _ & _ & _ & _ & O3 & _ & _ & C3 & _); [done|].
  assert (Hw' : w' = release_all (ptrs (o_h os)) w2).
  { unfold w', w2, w1. by rewrite !release_all_app. }
  unfold nlopt_destroy. cbn -[log]. fold w0. change (opts w0 !! o) with (opts w !! o).
  rewrite Ho, Hm. cbn -[log].
  rewrite (munge_f_data_destroy_run (o_f_data os) w0)
    by (intros p Hp; apply Hall0, elem_of_app; by left).
  fold w1. cbn.
  rewrite (munge_constraints_destroy_run (o_fc os) w1 Hnd2)
    by (intros p Hp; apply Hall1, elem_of_app; by left).
  fold w2. cbn.
  rewrite (munge_constraints_destroy_run (o_h os) w2 Hnd3 Hall2).
  rewrite <- Hw'. cbn.
  assert (HO : opts w' = opts w) by (rewrite Hw', O3, O2, O1; done).
  rewrite HO. done.
Qed.

(** [nlopt_remove_(in)equality_constraints] hands the callback pointers
    of the one list to the destroy hook and empties the list. *)
Lemma nlopt_remove_constraints_run (equality : bool) (o : N) (os : nlopt_opt_s)
    (w : world) :
  registry_wf w -> opts w !! o = Some os ->
  o_munge_on_destroy os = Some fn_munge_on_destroy ->
  let l := if equality then o_h os else o_fc os in
  NoDup (ptrs l) ->
  (forall p, p ∈ ptrs l -> is_Some (ctxs w !! p)) ->
  let w' := release_all (ptrs l)
              (log (Ev_nlopt "nlopt_remove_constraints" [] None) w) in
  let os' := if equality then with_h [] os else with_fc [] os in
  nlopt_remove_constraints equality (Some o) w
  = Ret NLOPT_SUCCESS (set_opts (<[o := os']> (opts w)) w')
  /\ released w (set_opts (<[o := os']> (opts w)) w') (ptrs l).
Proof.
  intros Hwf Ho Hm l Hnd Hall w' os'.
  set (w0 := log (Ev_nlopt "nlopt_remove_constraints" [] None) w) in *.
  assert (Hwf0 : registry_wf w0) by done.
  assert (Hall0 : forall p, p ∈ ptrs l -> is_Some (ctxs w0 !! p)) by done.
  pose proof (release_all_released _ _ Hwf0 Hnd Hall0) as Hrel.
  split; [|by eapply (released_ext w w0 w')].
  destruct (release_all_fields (ptrs l) w0 Hwf0 Hnd Hall0)
    as (_ & _ & _ & _ & _ & _ & O1 & _).
  unfold nlopt_remove_constraints. cbn -[log]. fold w0.
  change (opts w0 !! o) with (opts w !! o). rewrite Ho, Hm. cbn -[log].
  fold l. rewrite (munge_constraints_destroy_run l w0 Hnd Hall0). fold w'.
  cbn. fold os'. fold w' in O1. change (opts w0) with (opts w) in O1. by rewrite O1.
Qed.

Lemma closures_of_fc os p : p ∈ ptrs (o_fc os) -> p ∈ closures_of os.
Proof. intros H. unfold closures_of. rewrite !elem_of_app. auto. Qed.

Lemma closures_of_h os p : p ∈ ptrs (o_h os) -> p ∈ closures_of os.
Proof. intros H. unfold closures_of. rewrite !elem_of_app. auto. Qed.

Lemma NoDup_closures_of os :
  NoDup (closures_of os) -> NoDup (ptrs (o_fc os)) /\ NoDup (ptrs (o_h os)).
Proof.
  unfold closures_of. intros (_ & _ & H)%NoDup_app.
  by apply NoDup_app in H as (? & _ & ?).
Qed.

(** The records of another optimiser are none of [o]'s, and what is not
    released is intact. *)
Lemma released_other_handles (w w1 : world) (o : N) (os : nlopt_opt_s) ps :
  handles_wf w -> opts w !! o = Some os ->
  (forall p, p ∈ ps -> p ∈ closures_of os) ->
  released w w1 ps ->
  forall o2 os2 p,
    o2 <> o -> opts w !! o2 = Some os2 -> p ∈ closures_of os2 ->
    (p ∉ closures_of os) /\ intact w w1 p.
Proof.
  intros (H1 & H2) Ho Hsub (added & _ & _ & _ & E4) o2 os2 p Hne Ho2 Hp.
  assert (Hnot : p ∉ closures_of os).
  { intros Hin. apply Hne. by apply (H2 o2 o os2 os p). }
  split; [done|].
  destruct (H1 o2 os2 Ho2) as (_ & _ & _ & Hal).
  apply E4; [|by apply Hal]. intros Hin. by apply Hnot, Hsub.
Qed.

(** Records held by no optimiser but [o] are released, and [o] is then
    freed ([keep = None]) or left with records [os'] that are allocated,
    not among the released, and not held by another optimiser: every
    optimiser still has allocated records of its own. *)
Lemma handles_wf_released (w w1 : world) (o : N) (os : nlopt_opt_s) (ps : list N)
    (keep : option nlopt_opt_s) :
  handles_wf w -> opts w !! o = Some os -> released w w1 ps ->
  opts w1 = match keep with
            | Some os' => <[o := os']> (opts w)
            | None => delete o (opts w)
            end ->
  (forall os', keep = Some os' ->
     NoDup (closures_of os')
     /\ o_munge_on_destroy os' = Some fn_munge_on_destroy
     /\ o_munge_on_copy os' = Some fn_munge_on_copy
     /\ forall p, p ∈ closures_of os' ->
          (p ∉ ps) /\ is_Some (ctxs w !! p)
          /\ forall o2 os2, opts w !! o2 = Some os2 -> p ∈ closures_of os2 -> o2 = o) ->
  (forall p o2 os2, p ∈ ps -> opts w !! o2 = Some os2 -> p ∈ closures_of os2 -> o2 = o) ->
  handles_wf w1.
Proof.
  intros (H1 & H2) Ho (added & _ & _ & _ & E4) Hopts Hkeep Hown.
  assert (Hstay : forall p, p ∉ ps -> is_Some (ctxs w !! p) -> is_Some (ctxs w1 !! p)).
  { intros p Hp Hp'. destruct (E4 p Hp Hp') as ((-> & _) & _). done. }
  assert (Hcases : forall o2 os2, opts w1 !! o2 = Some os2 ->
            (o2 = o /\ keep = Some os2) \/ (o2 <> o /\ opts w !! o2 = Some os2)).
  { intros o2 os2. rewrite Hopts. destruct keep as [os'|].
    - intros [[<- <-]|[Hne Ho2]]%lookup_insert_Some; auto.
    - intros [Hne Ho2]%lookup_delete_Some; auto. }
  split.
  - intros o2 os2 Ho2. destruct (Hcases o2 os2 Ho2) as [[-> Hk]|[Hne Ho2']].
    + destruct (Hkeep os2 Hk) as (K1 & K2 & K3 & K4).
      do 3 (split; [done|]). intros p Hp.
      destruct (K4 p Hp) as (Q1 & Q2 & _). by apply Hstay.
    + destruct (H1 o2 os2 Ho2') as (B1 & B2 & B3 & B4).
      do 3 (split; [done|]). intros p Hp. apply Hstay; [|by apply B4].
      intros Hin. apply Hne. by apply (Hown p o2 os2).
  - intros o1 o2 os1 os2 p Ho1 Ho2 Hp1 Hp2.
    destruct (Hcases o1 os1 Ho1) as [[-> Hk1]|[Hne1 Ho1']],
             (Hcases o2 os2 Ho2) as [[-> Hk2]|[Hne2 Ho2']]; try done.
    + destruct (Hkeep os1 Hk1) as (_ & _ & _ & K4).
      destruct (K4 p Hp1) as (_ & _ & Q3). symmetry. by apply (Q3 o2 os2).
    + destruct (Hkeep os2 Hk2) as (_ & _ & _ & K4).
      destruct (K4 p Hp2) as (_ & _ & Q3). by apply (Q3 o1 os1).
    + by apply (H2 o1 o2 os1 os2 p).
Qed.

Lemma closures_of_with_fc_nil os :
  closures_of (with_fc [] os) = option_list (o_f_data os) ++ ptrs (o_h os).
Proof. reflexivity. Qed.

Lemma closures_of_with_h_nil os :
  closures_of (with_h [] os) = option_list (o_f_data os) ++ ptrs (o_fc os).
Proof. unfold closures_of. cbn. by rewrite app_nil_r. Qed.

(** The adapter functions that release records, run on a handle of a
    well-formed world. *)
Lemma finalize_run (w : world) (u o : N) (os : nlopt_opt_s) :
  closures_wf w -> valid_handle w u o os ->
  exists w1,
    finalize_nlopt_opt_s (call [VUserdata u] w) = Ret 0 w1
    /\ opts w1 = delete o (opts w)
    /\ closures_wf w1
    /\ released w w1 (closures_of os)
    /\ forall o2 os2 p,
         o2 <> o -> opts w !! o2 = Some os2 -> p ∈ closures_of os2 ->
         (p ∉ closures_of os) /\ intact w w1 p.
Proof.
  intros [Hwf Hh] Hv.
  pose proof Hh as (H1 & H2).
  pose proof Hv as (mt & Hu & Hmt & Ho).
  destruct (H1 o os Ho) as (Hnd & Hd & Hc & Hal).
  set (wc := call [VUserdata u] w).
  assert (Hvc : valid_handle wc u o os) by done.
  destruct (check_ok wc u o os (designates_call_1 _ _ _) Hvc) as (Hck & Hob & _).
  destruct (nlopt_destroy_run o os wc Hwf Ho Hd Hnd Hal) as [Hrun Hrel].
  destruct (release_all_fields (closures_of os)
              (log (Ev_nlopt "nlopt_destroy" [] None) wc) Hwf Hnd Hal) as [W _].
  set (w1 := set_opts (delete o (opts wc))
               (release_all (closures_of os)
                  (log (Ev_nlopt "nlopt_destroy" [] None) wc))) in *.
  assert (Hrel' : released w w1 (closures_of os)) by exact Hrel.
  exists w1. split; [|split; [|split; [|split]]].
  - unfold finalize_nlopt_opt_s. cbn -[check holder_obj nlopt_destroy].
    rewrite Hck. cbn -[check holder_obj nlopt_destroy].
    rewrite Hob. cbn -[check holder_obj nlopt_destroy].
    rewrite Hrun. reflexivity.
  - reflexivity.
  - split; [exact W|].
    apply (handles_wf_released w w1 o os (closures_of os) None); try done.
    intros p o2 os2 Hp Ho2 Hp2. by apply (H2 o2 o os2 os p).
  - exact Hrel'.
  - by apply (released_other_handles w _ o os (closures_of os)).
Qed.

Lemma remove_constraints_run (equality : bool) (w : world) (u o : N)
    (os : nlopt_opt_s) :
  closures_wf w -> valid_handle w u o os ->
  let l := if equality then o_h os else o_fc os in
  exists w1,
    (if equality then remove_equality_constraints else remove_inequality_constraints)
      (call [VUserdata u] w) = Ret 1 w1
    /\ opts w1 = <[o := if equality then with_h [] os else with_fc [] os]> (opts w)
    /\ closures_wf w1
    /\ released w w1 (ptrs l)
    /\ forall o2 os2 p,
         o2 <> o -> opts w !! o2 = Some os2 -> p ∈ closures_of os2 ->
         (p ∉ closures_of os) /\ intact w w1 p.
Proof.
  intros [Hwf Hh] Hv l.
  pose proof Hh as (H1 & H2).
  pose proof Hv as (mt & Hu & Hmt & Ho).
  destruct (H1 o os Ho) as (Hnd & Hd & Hc & Hal).
  destruct (NoDup_closures_of os Hnd) as [Hndf Hndh].
  assert (Hsub : forall p, p ∈ ptrs l -> p ∈ closures_of os).
  { intros p. unfold l. destruct equality; [apply closures_of_h|apply closures_of_fc]. }
  assert (Hndl : NoDup (ptrs l)) by (unfold l; by destruct equality).
  set (wc := call [VUserdata u] w).
  assert (Hvc : valid_handle wc u o os) by done.
  destruct (check_ok wc u o os (designates_call_1 _ _ _) Hvc) as (Hck & Hob & _).
  assert (Hall : forall p, p ∈ ptrs l -> is_Some (ctxs wc !! p)).
  { intros p Hp. by apply Hal, Hsub. }
  destruct (nlopt_remove_constraints_run equality o os wc Hwf Ho Hd Hndl Hall)
    as [Hrun Hrel].
  destruct (release_all_fields (ptrs l)
              (log (Ev_nlopt "nlopt_remove_constraints" [] None) wc) Hwf Hndl Hall)
    as [W _].
  set (os' := if equality then with_h [] os else with_fc [] os) in *.
  set (w' := set_opts (<[o := os']> (opts wc))
               (release_all (ptrs l)
                  (log (Ev_nlopt "nlopt_remove_constraints" [] None) wc))) in *.
  assert (Hrel' : released w (set_stack (VNumber (cast_num NLOPT_SUCCESS) :: stack w') w')
                    (ptrs l)) by exact Hrel.
  exists (set_stack (VNumber (cast_num NLOPT_SUCCESS) :: stack w') w').
  split; [|split; [|split; [|split]]].
  - unfold os' in *. destruct equality;
      [unfold remove_equality_constraints, nlopt_remove_equality_constraints
      |unfold remove_inequality_constraints, nlopt_remove_inequality_constraints];
      cbn -[check holder_obj nlopt_remove_constraints];
      rewrite Hck; cbn -[check holder_obj nlopt_remove_constraints];
      rewrite Hob; cbn -[check holder_obj nlopt_remove_constraints];
      rewrite Hrun; reflexivity.
  - reflexivity.
  - split; [exact W|].
    assert (Hown : forall p, p ∈ closures_of os ->
              is_Some (ctxs w !! p)
              /\ forall o2 os2, opts w !! o2 = Some os2 -> p ∈ closures_of os2 -> o2 = o).
    { intros p Hp. split; [by apply Hal|].
      intros o2 os2 Ho2 Hp2. by apply (H2 o2 o os2 os p). }
    apply (handles_wf_released w _ o os (ptrs l) (Some os')); try done.
    2: { intros p o2 os2 Hp. by apply Hown, Hsub. }
    intros ? [= <-]. unfold os', l, closures_of in *.
    apply NoDup_app in Hnd as (N1 & D12 & N23).
    apply NoDup_app in N23 as (N2 & D23 & N3).
    destruct equality; cbn [o_f_data o_fc o_h with_h with_fc ptrs omap
                            o_munge_on_destroy o_munge_on_copy].
    + rewrite app_nil_r. split; [|split; [done|split; [done|]]].
      * apply NoDup_app. split; [done|]. split; [|done].
        intros p Hp Hp'. apply (D12 p Hp). apply elem_of_app. by left.
      * intros p [Hp|Hp]%elem_of_app.
        -- split; [|apply Hown, elem_of_app; by left].
           intros Hp'. apply (D12 p Hp). apply elem_of_app. by right.
        -- split; [|apply Hown; rewrite !elem_of_app; auto].
           intros Hp'. by apply (D23 p Hp).
    + split; [|split; [done|split; [done|]]].
      * apply NoDup_app. split; [done|]. split; [|done].
        intros p Hp Hp'. apply (D12 p Hp). apply elem_of_app. by right.
      * intros p [Hp|Hp]%elem_of_app.
        -- split; [|apply Hown, elem_of_app; by left].
           intros Hp'. apply (D12 p Hp). apply elem_of_app. by left.
        -- split; [|apply Hown; rewrite !elem_of_app; auto].
           intros Hp'. by apply (D23 p Hp').
  - exact Hrel'.
  - by apply (released_other_handles w _ o os (ptrs l)).
Qed.

(** C4. On a well-formed world, the finalizer of a handle releases the
    registry reference of every closure record of its optimiser exactly
    once and frees the record; [remove_inequality_constraints] and
    [remove_equality_constraints] do so for the records of the one
    constraint list, which they empty. In each case every other allocated
    record is left as it was with no release recorded for it (part of
    [released]), in particular the records held by any other optimiser;
    and the world stays well-formed: the released records are held by no
    optimiser any more, so that no later call releases them again. *)
Theorem destroy_and_clear_release_once (w : world) (u o : N) (os : nlopt_opt_s) :
  closures_wf w -> valid_handle w u o os ->
  (exists w1,
      finalize_nlopt_opt_s (call [VUserdata u] w) = Ret 0 w1
      /\ opts w1 = delete o (opts w)
      /\ closures_wf w1
      /\ released w w1 (closures_of os)
      /\ forall o2 os2 p,
           o2 <> o -> opts w !! o2 = Some os2 -> p ∈ closures_of os2 ->
           (p ∉ closures_of os) /\ intact w w1 p)
  /\ (exists w1,
      remove_inequality_constraints (call [VUserdata u] w) = Ret 1 w1
      /\ opts w1 = <[o := with_fc [] os]> (opts w)
      /\ closures_wf w1
      /\ released w w1 (ptrs (o_fc os))
      /\ forall o2 os2 p,
           o2 <> o -> opts w !! o2 = Some os2 -> p ∈ closures_of os2 ->
           (p ∉ closures_of os) /\ intact w w1 p)
  /\ (exists w1,
      remove_equality_constraints (call [VUserdata u] w) = Ret 1 w1
      /\ opts w1 = <[o := with_h [] os]> (opts w)
      /\ closures_wf w1
      /\ released w w1 (ptrs (o_h os))
      /\ forall o2 os2 p,
           o2 <> o -> opts w !! o2 = Some os2 -> p ∈ closures_of os2 ->
           (p ∉ closures_of os) /\ intact w w1 p).
Proof.
  intros Hwf Hv. split; [|split].
  - exact (finalize_run w u o os Hwf Hv).
  - exact (remove_constraints_run false w u o os Hwf Hv).
  - exact (remove_constraints_run true w u o os Hwf Hv).
Qed.

(** ** Copying records *)

Lemma tbl_get_heap_set_same r k v hp : tbl_get k (heap_set r k v hp !!! r) = v.
Proof.
  unfold heap_set, tbl_get. rewrite lookup_total_insert_eq.
  destruct v; cbn; by rewrite ?lookup_delete_eq, ?lookup_insert_eq.
Qed.

Lemma tbl_get_heap_set_other r k k' v hp :
  k <> k' -> tbl_get k' (heap_set r k v hp !!! r) = tbl_get k' (hp !!! r).
Proof. intros Hk. unfold tbl_get. by rewrite heap_set_lookup_other. Qed.

Lemma extends_refl w : extends w w.
Proof. by repeat split. Qed.

Lemma extends_trans w1 w2 w3 : extends w1 w2 -> extends w2 w3 -> extends w1 w3.
Proof.
  intros (A1 & A2 & A3) (B1 & B2 & B3).
  repeat split; by etransitivity.
Qed.

Lemma extends_dom w w' :
  extends w w' ->
  dom (ctxs w) ⊆ dom (ctxs w') /\ dom (reg_refs w) ⊆ dom (reg_refs w')
  /\ dom (tables w) ⊆ dom (tables w').
Proof. intros (A1 & A2 & A3). repeat split; by apply subseteq_dom. Qed.

Lemma closure_view_alloc w p :
  registry_wf w -> is_Some (ctxs w !! p) ->
  exists r t, ctxs w !! p = Some (Ctx (Zpos r)) /\ reg_refs w !! r = Some (VTable t)
              /\ t ∈ dom (tables w)
              /\ closure_view w p
                 = Some (closure_field w t "f", closure_field w t "f_data").
Proof.
  intros (G1 & _) [c Hc]. destruct (G1 p c Hc) as (r & t & -> & Hr & Ht).
  exists r, t. do 3 (split; [done|]).
  unfold closure_view, closure_record. by rewrite Hc, Hr.
Qed.

(** A record allocated in a well-formed world looks the same in every
    extension. *)
Lemma extends_view w w' p :
  registry_wf w -> extends w w' -> is_Some (ctxs w !! p) -> intact w w' p.
Proof.
  intros Hwf (A1 & A2 & A3) Hal.
  destruct (closure_view_alloc w p Hwf Hal) as (r & t & Hc & Hr & Ht & Hv).
  pose proof (lookup_weaken _ _ _ _ Hc A1) as Hc'.
  pose proof (lookup_weaken _ _ _ _ Hr A2) as Hr'.
  apply elem_of_dom in Ht as [tb Htb].
  pose proof (lookup_weaken _ _ _ _ Htb A3) as Htb'.
  split; [by rewrite Hc, Hc'|].
  rewrite Hv. unfold closure_view, closure_record, closure_field.
  rewrite Hc', Hr'. by rewrite (lookup_total_correct _ _ _ Htb), (lookup_total_correct _ _ _ Htb').
Qed.

Lemma duplicate_fields (t : N) (w : world) :
  let w' := duplicate t w in
  stack w' = stack w /\ funs w' = funs w /\ reg_named w' = reg_named w
  /\ udata w' = udata w /\ opts w' = opts w /\ malloc_fails w' = malloc_fails w
  /\ trace w' = trace w.
Proof. by repeat split. Qed.

(** A new context, under a new registry reference to a new table, keeps
    the registry well-formed. *)
Lemma new_record_wf (w w' : world) (X : table) :
  registry_wf w ->
  ctxs w' = <[fresh (dom (ctxs w)) := Ctx (Zpos (fresh (dom (reg_refs w))))]> (ctxs w) ->
  reg_refs w' = <[fresh (dom (reg_refs w)) := VTable (fresh (dom (tables w)))]> (reg_refs w) ->
  tables w' = <[fresh (dom (tables w)) := X]> (tables w) ->
  registry_wf w' /\ extends w w'.
Proof.
  intros Hwf. pose proof Hwf as (G1 & G2 & G3).
  set (p' := fresh (dom (ctxs w))). set (t' := fresh (dom (tables w))).
  set (r' := fresh (dom (reg_refs w))). intros Ectx Ereg Etab.
  assert (Hp' : p' ∉ dom (ctxs w)) by apply is_fresh.
  assert (Ht' : t' ∉ dom (tables w)) by apply is_fresh.
  assert (Hr' : r' ∉ dom (reg_refs w)) by apply is_fresh.
  apply not_elem_of_dom in Hp' as Hp'n. apply not_elem_of_dom in Hr' as Hr'n.
  apply not_elem_of_dom in Ht' as Ht'n.
  split.
  - split; [|split].
    + intros q c. rewrite Ectx, Ereg, Etab.
      intros [[<- <-]|[Hq Hcq]]%lookup_insert_Some.
      * exists r', t'. rewrite lookup_insert_eq. split; [done|]. split; [done|].
        apply elem_of_dom. by rewrite lookup_insert_eq.
      * destruct (G1 q c Hcq) as (rq & tq & -> & Hrq & Htq).
        exists rq, tq. split; [done|]. split.
        -- rewrite lookup_insert_ne; [done|]. intros <-. congruence.
        -- rewrite dom_insert. apply elem_of_union. by right.
    + intros p1 p2 c. rewrite Ectx.
      intros [[<- <-]|[Hq1 Hc1]]%lookup_insert_Some
             [[<- E2]|[Hq2 Hc2]]%lookup_insert_Some; try done.
      * destruct (G1 p2 _ Hc2) as (rq & tq & [= <-] & Hrq & _). congruence.
      * subst c. destruct (G1 p1 _ Hc1) as (rq & tq & [= <-] & Hrq & _). congruence.
      * by apply (G2 p1 p2 c).
    + assert (Hrec : forall q tq, closure_record w' q = Some tq ->
                (q = p' /\ tq = t') \/ (q <> p' /\ closure_record w q = Some tq
                                         /\ tq ∈ dom (tables w))).
      { intros q tq. unfold closure_record. rewrite Ectx, Ereg.
        destruct (decide (q = p')) as [->|Hq].
        - rewrite !lookup_insert_eq. intros [= <-]. by left.
        - rewrite lookup_insert_ne by done. intros H. right. split; [done|].
          destruct (ctxs w !! q) as [[[|rq|]]|] eqn:Hcq; try done.
          destruct (G1 q _ Hcq) as (rq' & tq' & [= <-] & Hrq & Htq).
          rewrite lookup_insert_ne in H by (intros <-; congruence).
          rewrite Hrq in *. by injection H as <-. }
      intros p1 p2 tq H1 H2.
      destruct (Hrec p1 tq H1) as [[E1 E1']|(N1 & R1 & D1)],
               (Hrec p2 tq H2) as [[E2 E2']|(N2 & R2 & D2)].
      * congruence.
      * by subst tq.
      * by subst tq.
      * by apply (G3 p1 p2 tq).
  - split; [|split].
    + rewrite Ectx. by apply insert_subseteq.
    + rewrite Ereg. by apply insert_subseteq.
    + rewrite Etab. by apply insert_subseteq.
Qed.

(** What [munge_on_copy] leaves: a well-formed extension in which the new
    record is a copy of the old one. *)
Lemma duplicate_spec (p : N) (r : positive) (t : N) (w : world) :
  registry_wf w ->
  ctxs w !! p = Some (Ctx (Zpos r)) -> reg_refs w !! r = Some (VTable t) ->
  let w' := duplicate t w in
  registry_wf w' /\ extends w w' /\ copied w w' p (fresh (dom (ctxs w))).
Proof.
  intros Hwf Hc Hr w'. pose proof Hwf as (G1 & G2 & G3).
  destruct (G1 p _ Hc) as (r0 & t0 & [= <-] & Hr0 & Ht).
  rewrite Hr in Hr0. injection Hr0 as <-.
  set (p' := fresh (dom (ctxs w))). set (t' := fresh (dom (tables w))).
  set (r' := fresh (dom (reg_refs w))).
  assert (Hp' : p' ∉ dom (ctxs w)) by apply is_fresh.
  assert (Ht' : t' ∉ dom (tables w)) by apply is_fresh.
  assert (Hr' : r' ∉ dom (reg_refs w)) by apply is_fresh.
  assert (Hne : t <> t') by (by intros ->).
  assert (Ectx : ctxs w' = <[p' := Ctx (Zpos r')]> (ctxs w)) by done.
  assert (Ereg : reg_refs w' = <[r' := VTable t']> (reg_refs w)) by done.
  assert (Etab : exists X,
             tables w' = <[t' := X]> (tables w)
             /\ tbl_get (VString "f") X = tbl_get (VString "f") (tables w !!! t)
             /\ tbl_get (VString "f_data") X
                = tbl_get (VString "f_data") (tables w !!! t)).
  { set (hp0 := <[t' := ∅]> (tables w)).
    set (hp1 := heap_set t' (VString "f") (tbl_get (VString "f") (hp0 !!! t)) hp0).
    set (hp2 := heap_set t' (VString "f_data")
                  (tbl_get (VString "f_data") (hp1 !!! t)) hp1).
    assert (Hhp0 : hp0 !!! t = tables w !!! t).
    { unfold hp0. by rewrite lookup_total_insert_ne. }
    assert (Hhp1 : hp1 !!! t = tables w !!! t).
    { unfold hp1. by rewrite heap_set_other_table. }
    exists (hp2 !!! t'). split; [|split].
    - change (tables w') with hp2.
      assert (E2 : hp2 = <[t' := hp2 !!! t']> hp1).
      { unfold hp2 at 1, heap_set at 1. f_equal.
        unfold hp2, heap_set. by rewrite lookup_total_insert_eq. }
      rewrite E2 at 1. unfold hp1, hp0, heap_set. by rewrite !insert_insert_eq.
    - unfold hp2. rewrite tbl_get_heap_set_other by done.
      unfold hp1 at 1. by rewrite tbl_get_heap_set_same, Hhp0.
    - unfold hp2. by rewrite tbl_get_heap_set_same, Hhp1. }
  destruct Etab as (X & Etab & Xf & Xd).
  destruct (new_record_wf w w' X Hwf Ectx Ereg Etab) as [W Hext].
  assert (Hview' : closure_view w' p' = closure_view w p).
  { unfold closure_view, closure_record, closure_field.
    rewrite Ectx, Ereg, Etab, Hc, Hr, !lookup_insert_eq, lookup_total_insert_eq.
    by rewrite Xf, Xd. }
  split; [done|]. split; [done|].
  split; [done|]. exists r', t'.
  rewrite Ectx, Ereg, !lookup_insert_eq. done.
Qed.

Lemma same_frame_refl w : same_frame w w.
Proof. by repeat split. Qed.

Lemma same_frame_trans w1 w2 w3 : same_frame w1 w2 -> same_frame w2 w3 -> same_frame w1 w3.
Proof.
  intros (A1 & A2 & A3 & A4 & A5 & A6 & A7) (B1 & B2 & B3 & B4 & B5 & B6 & B7).
  repeat split; congruence.
Qed.

Lemma copied_weaken_r w0 w1 w2 p p' :
  copied w0 w1 p p' -> registry_wf w1 -> extends w1 w2 -> copied w0 w2 p p'.
Proof.
  intros (Hp' & r' & t' & Hc & Hr' & Hr & Ht' & Hv) Hwf Hext.
  destruct (extends_view w1 w2 p' Hwf Hext) as [_ Hv2]; [by eexists|].
  destruct Hext as (A1 & A2 & A3).
  split; [done|]. exists r', t'.
  split; [by apply (lookup_weaken _ _ _ _ Hc A1)|]. split; [done|].
  split; [by apply (lookup_weaken _ _ _ _ Hr A2)|]. split; [done|].
  by rewrite Hv2.
Qed.

Lemma copied_weaken_l w0 w1 w2 p p' :
  copied w1 w2 p p' -> registry_wf w0 -> extends w0 w1 -> is_Some (ctxs w0 !! p) ->
  copied w0 w2 p p'.
Proof.
  clear type_metatable.
  intros (Hp' & r' & t' & Hc & Hr' & Hr & Ht' & Hv) Hwf Hext Hal.
  destruct (extends_view w0 w1 p Hwf Hext Hal) as [_ Hv1].
  destruct (extends_dom w0 w1 Hext) as (D1 & D2 & D3).
  split; [set_solver|]. exists r', t'.
  split; [done|]. split; [set_solver|]. split; [done|]. split; [set_solver|].
  by rewrite Hv, Hv1.
Qed.

Lemma copied_allocated w0 w1 ps ps' :
  Forall2 (copied w0 w1) ps ps' ->
  forall x, x ∈ ps' -> (x ∉ dom (ctxs w0)) /\ is_Some (ctxs w1 !! x).
Proof.
  induction 1 as [|p p' ps ps' Hc _ IH]; intros x Hx.
  - by apply elem_of_nil in Hx.
  - apply elem_of_cons in Hx as [->|Hx]; [|by apply IH].
    destruct Hc as (Hp' & r' & t' & Hc & _). split; [done|by eexists].
Qed.

(** Copies made one after the other are copies of the whole, and no new
    record is made twice. *)
Lemma copied_app w0 w1 w2 ps ps' qs qs' :
  registry_wf w0 -> registry_wf w1 -> extends w0 w1 -> extends w1 w2 ->
  (forall p, p ∈ qs -> is_Some (ctxs w0 !! p)) ->
  Forall2 (copied w0 w1) ps ps' -> NoDup ps' ->
  Forall2 (copied w1 w2) qs qs' -> NoDup qs' ->
  Forall2 (copied w0 w2) (ps ++ qs) (ps' ++ qs') /\ NoDup (ps' ++ qs').
Proof.
  intros W0 W1 E01 E12 Hal F1 N1 F2 N2. split.
  - apply Forall2_app.
    + eapply Forall2_impl; [exact F1|]. intros p p' Hc.
      by apply (copied_weaken_r w0 w1 w2).
    + apply Forall2_same_length_lookup_2; [by eapply Forall2_length|].
      intros i p p' Hp Hp'.
      apply (copied_weaken_l w0 w1 w2); try done.
      * by eapply Forall2_lookup_lr.
      * apply Hal. by eapply list_elem_of_lookup_2.
  - apply NoDup_app. split; [done|]. split; [|done].
    intros x Hx1 Hx2.
    destruct (copied_allocated _ _ _ _ F1 x Hx1) as [_ Ha].
    destruct (copied_allocated _ _ _ _ F2 x Hx2) as [Hn _].
    apply Hn. by apply elem_of_dom.
Qed.

#[local] Arguments munge_on_copy : simpl never.
#[local] Arguments duplicate : simpl never.

Lemma copy_f_data_run (fd : option N) (w : world) :
  registry_wf w ->
  (forall p, p ∈ option_list fd -> is_Some (ctxs w !! p)) ->
  exists fd' w',
    copy_f_data (Some fn_munge_on_copy) fd w = Ret (Some fd') w'
    /\ registry_wf w' /\ extends w w' /\ same_frame w w'
    /\ Forall2 (copied w w') (option_list fd) (option_list fd')
    /\ NoDup (option_list fd').
Proof.
  intros Hwf Hal. destruct fd as [p|].
  - destruct (closure_view_alloc w p Hwf) as (r & t & Hc & Hr & Ht & _).
    { apply Hal. by left. }
    destruct (duplicate_spec p r t w Hwf Hc Hr) as (W & E & C).
    exists (Some (fresh (dom (ctxs w)))), (duplicate t w).
    split; [|split; [done|split; [done|split; [apply duplicate_fields|]]]].
    + cbn. by rewrite (munge_on_copy_run p r t w Hc Hr).
    + split; [|apply NoDup_singleton]. constructor; [done|constructor].
  - exists None, w. cbn.
    split; [done|]. split; [done|]. split; [apply extends_refl|].
    split; [apply same_frame_refl|]. split; [constructor|apply NoDup_nil_2].
Qed.

Lemma ptrs_as_app c l : ptrs (c :: l) = option_list (c_f_data c) ++ ptrs l.
Proof. rewrite ptrs_cons. by destruct (c_f_data c). Qed.

Lemma copy_constraints_run (l : list nlopt_constraint) :
  forall w,
    registry_wf w ->
    (forall p, p ∈ ptrs l -> is_Some (ctxs w !! p)) ->
    exists l' w',
      copy_constraints (Some fn_munge_on_copy) l w = Ret (Some l') w'
      /\ registry_wf w' /\ extends w w' /\ same_frame w w'
      /\ same_shape l l'
      /\ Forall2 (copied w w') (ptrs l) (ptrs l')
      /\ NoDup (ptrs l').
Proof.
  induction l as [|c l IH]; intros w Hwf Hal.
  - exists [], w. cbn. split; [done|]. split; [done|]. split; [apply extends_refl|].
    split; [apply same_frame_refl|]. split; [constructor|].
    split; [constructor|apply NoDup_nil_2].
  - rewrite ptrs_as_app in Hal.
    destruct (copy_f_data_run (c_f_data c) w Hwf) as (fd' & w1 & R1 & W1 & E1 & S1 & F1 & N1).
    { intros p Hp. apply Hal, elem_of_app. by left. }
    assert (Hal0 : forall p, p ∈ ptrs l -> is_Some (ctxs w !! p)).
    { intros p Hp. apply Hal, elem_of_app. by right. }
    destruct (IH w1 W1) as (l' & w2 & R2 & W2 & E2 & S2 & Sh & F2 & N2).
    { intros p Hp. destruct (Hal0 p Hp) as [cp Hcp].
      exists cp. destruct E1 as (A1 & _). by apply (lookup_weaken _ _ _ _ Hcp A1). }
    exists (with_c_f_data fd' c :: l'), w2.
    split; [|split; [done|split; [by eapply extends_trans|
             split; [by eapply same_frame_trans|split; [|]]]]].
    + cbn -[copy_f_data]. rewrite R1. cbn -[copy_f_data]. by rewrite R2.
    + constructor; [|done]. cbn. do 3 (split; [done|]).
      apply Forall2_length in F1. by destruct fd', (c_f_data c).
    + rewrite !ptrs_as_app. cbn [c_f_data with_c_f_data].
      by apply (copied_app w w1 w2).
Qed.

#[local] Arguments copy_f_data : simpl never.
#[local] Arguments copy_constraints : simpl never.

(** [nlopt_copy] on an optimiser with the adapter's hooks: a new object
    with the same settings, each callback pointer replaced by a copy of
    its record. *)
Lemma nlopt_copy_run (o : N) (os : nlopt_opt_s) (w : world) :
  registry_wf w -> opts w !! o = Some os ->
  o_munge_on_copy os = Some fn_munge_on_copy ->
  (forall p, p ∈ closures_of os -> is_Some (ctxs w !! p)) ->
  malloc_fails w = false ->
  exists os' w',
    nlopt_copy (Some o) w = Ret (Some (fresh (dom (opts w)))) w'
    /\ opts w' = <[fresh (dom (opts w)) := os']> (opts w)
    /\ registry_wf w' /\ extends w w'
    /\ stack w' = stack w /\ funs w' = funs w /\ reg_named w' = reg_named w
    /\ udata w' = udata w /\ malloc_fails w' = malloc_fails w
    /\ trace w' = trace w ++ [Ev_nlopt "nlopt_copy" [] None]
    /\ same_settings os os'
    /\ Forall2 (copied w w') (closures_of os) (closures_of os')
    /\ NoDup (closures_of os').
Proof.
  intros Hwf Ho Hm Hal Hmf.
  set (w0 := log (Ev_nlopt "nlopt_copy" [] None) w).
  assert (Hwf0 : registry_wf w0) by done.
  assert (Hal1 : forall p, p ∈ option_list (o_f_data os) -> is_Some (ctxs w0 !! p)).
  { intros p Hp. apply Hal. unfold closures_of. rewrite !elem_of_app. auto. }
  assert (Hal2 : forall p, p ∈ ptrs (o_fc os) -> is_Some (ctxs w0 !! p)).
  { intros p Hp. by apply Hal, closures_of_fc. }
  assert (Hal3 : forall p, p ∈ ptrs (o_h os) -> is_Some (ctxs w0 !! p)).
  { intros p Hp. by apply Hal, closures_of_h. }
  assert (Hkeep : forall wa wb (ps : list N), extends wa wb ->
            (forall p, p ∈ ps -> is_Some (ctxs wa !! p)) ->
            forall p, p ∈ ps -> is_Some (ctxs wb !! p)).
  { intros wa wb ps (A1 & _) H p Hp. destruct (H p Hp) as [c Hc].
    exists c. by apply (lookup_weaken _ _ _ _ Hc A1). }
  destruct (copy_f_data_run (o_f_data os) w0 Hwf0 Hal1)
    as (fd' & w1 & R1 & W1 & E1 & S1 & F1 & N1).
  destruct (copy_constraints_run (o_fc os) w1 W1 (Hkeep _ _ _ E1 Hal2))
    as (fc' & w2 & R2 & W2 & E2 & S2 & Sh2 & F2 & N2).
  pose proof (extends_trans _ _ _ E1 E2) as E02.
  destruct (copy_constraints_run (o_h os) w2 W2 (Hkeep _ _ _ E02 Hal3))
    as (h' & w3 & R3 & W3 & E3 & S3 & Sh3 & F3 & N3).
  pose proof (extends_trans _ _ _ E02 E3) as E03.
  pose proof (same_frame_trans _ _ _ (same_frame_trans _ _ _ S1 S2) S3)
    as (T1 & T2 & T3 & T4 & T5 & T6 & T7).
  destruct (copied_app w1 w2 w3 _ _ _ _ W1 W2 E2 E3 (Hkeep _ _ _ E1 Hal3) F2 N2 F3 N3)
    as [F23 N23].
  destruct (copied_app w0 w1 w3 (option_list (o_f_data os)) (option_list fd')
              (ptrs (o_fc os) ++ ptrs (o_h os)) (ptrs fc' ++ ptrs h'))
    as [F123 N123]; try done.
  { by eapply extends_trans. }
  { intros p [Hp|Hp]%elem_of_app; auto. }
  exists (with_h h' (with_fc fc' (with_f_data fd' os))),
         (set_opts (<[fresh (dom (opts w)) := with_h h' (with_fc fc' (with_f_data fd' os))]>
                      (opts w)) w3).
  split; [|split; [done|split; [done|split; [done|]]]].
  - unfold nlopt_copy. cbn -[log]. fold w0.
    change (opts w0 !! o) with (opts w !! o). rewrite Ho. cbn -[log].
    change (malloc_fails w0) with (malloc_fails w). rewrite Hmf, Hm. cbn -[log].
    rewrite R1. cbn -[log]. rewrite R2. cbn -[log]. rewrite R3. cbn -[log].
    by rewrite T5.
  - do 6 (split; [done|]). split; [|split; [exact F123|exact N123]].
    split; [done|]. split; [|done]. cbn.
    apply Forall2_length in F1. by destruct fd', (o_f_data os).
Qed.

#[local] Arguments nlopt_copy : simpl never.

(** [copy] on a handle of a well-formed world. *)
Lemma copy_run (w : world) (u o mt : N) (os : nlopt_opt_s) :
  registry_wf w ->
  udata w !! u = Some (Holder (Some o) (Some mt)) ->
  reg_named w !! nlopt_metaName = Some (VTable mt) ->
  opts w !! o = Some os ->
  o_munge_on_copy os = Some fn_munge_on_copy ->
  (forall p, p ∈ closures_of os -> is_Some (ctxs w !! p)) ->
  malloc_fails w = false ->
  let u' := fresh (dom (udata w)) in
  let o' := fresh (dom (opts w)) in
  exists os' w',
    copy (call [VUserdata u] w)
    = Ret 1 (set_stack [VUserdata u'; VUserdata u]
               (set_udata (<[u' := Holder (Some o') (Some mt)]> (udata w)) w'))
    /\ opts w' = <[o' := os']> (opts w)
    /\ registry_wf w' /\ extends w w'
    /\ funs w' = funs w /\ reg_named w' = reg_named w
    /\ malloc_fails w' = malloc_fails w
    /\ trace w' = trace w ++ [Ev_nlopt "nlopt_copy" [] None]
    /\ same_settings os os'
    /\ Forall2 (copied w w') (closures_of os) (closures_of os')
    /\ NoDup (closures_of os').
Proof.
  intros Hwf Hu Hmt Ho Hc Hal Hmf u' o'.
  set (wc := call [VUserdata u] w).
  assert (Hvc : valid_handle wc u o os) by (by exists mt).
  destruct (check_ok wc u o os (designates_call_1 _ _ _) Hvc) as (Hck & Hob & _).
  destruct (nlopt_copy_run o os wc Hwf Ho Hc Hal Hmf)
    as (os' & w' & R & O & W & E & S1 & S2 & S3 & S4 & S5 & S6 & SS & F & N).
  exists os', w'. split; [|done].
  unfold copy. cbn -[check holder_obj].
  rewrite Hck. cbn -[check holder_obj].
  rewrite Hob. cbn -[check holder_obj].
  change (opts wc) with (opts w) in R. rewrite R. cbn.
  change (udata wc) with (udata w) in S4. change (stack wc) with [VUserdata u] in S1.
  change (reg_named wc) with (reg_named w) in S3.
  rewrite S4, S1. cbn.
  rewrite lookup_insert_eq. cbn. rewrite S3, Hmt. run.
  destruct w'; cbn. rewrite !insert_insert_eq, alter_insert_eq. by cbn.
Qed.

Lemma same_settings_hooks os os' :
  same_settings os os' ->
  o_munge_on_destroy os' = o_munge_on_destroy os
  /\ o_munge_on_copy os' = o_munge_on_copy os.
Proof. intros (-> & _). by cbn. Qed.

(** C3. On a well-formed world [copy] returns a new handle on a new
    optimiser with the settings of the source; every closure record of
    the new optimiser is a copy of the source's record at the same
    position: a context, a registry reference and a table that did not
    exist before, holding the callable and the user data of the source
    record. The world stays well-formed, so no record is held by two
    optimisers or shares its table with another record, and the records
    that existed are as they were. Running the finalizer of the source
    or emptying one of its constraint lists afterwards leaves every
    record of the copy intact: same context, same registry entry, same
    callable and user data, which is what the trampolines read. *)
Theorem copy_reregisters_closures (w : world) (u o : N) (os : nlopt_opt_s) :
  closures_wf w -> valid_handle w u o os -> malloc_fails w = false ->
  exists w1 u' o' os',
    copy (call [VUserdata u] w) = Ret 1 w1
    /\ stack w1 = [VUserdata u'; VUserdata u]
    /\ (u' ∉ dom (udata w)) /\ (o' ∉ dom (opts w))
    /\ valid_handle w1 u' o' os' /\ valid_handle w1 u o os
    /\ same_settings os os'
    /\ Forall2 (copied w w1) (closures_of os) (closures_of os')
    /\ closures_wf w1
    /\ (forall p, is_Some (ctxs w !! p) -> intact w w1 p)
    /\ (exists w2,
         finalize_nlopt_opt_s (call [VUserdata u] w1) = Ret 0 w2
         /\ forall p', p' ∈ closures_of os' -> intact w1 w2 p')
    /\ (exists w2,
         remove_inequality_constraints (call [VUserdata u] w1) = Ret 1 w2
         /\ forall p', p' ∈ closures_of os' -> intact w1 w2 p')
    /\ (exists w2,
         remove_equality_constraints (call [VUserdata u] w1) = Ret 1 w2
         /\ forall p', p' ∈ closures_of os' -> intact w1 w2 p').
Proof.
  intros [Hwf Hh] Hv Hmf.
  pose proof Hv as (mt & Hu & Hmt & Ho).
  pose proof Hh as (H1 & H2).
  destruct (H1 o os Ho) as (Hnd & Hd & Hc & Hal).
  destruct (copy_run w u o mt os Hwf Hu Hmt Ho Hc Hal Hmf)
    as (os' & w' & R & O & W & E & S2 & S3 & S5 & S6 & SS & F & N).
  set (u' := fresh (dom (udata w))) in *. set (o' := fresh (dom (opts w))) in *.
  set (w1 := set_stack [VUserdata u'; VUserdata u]
               (set_udata (<[u' := Holder (Some o') (Some mt)]> (udata w)) w')) in *.
  assert (Hu' : u' ∉ dom (udata w)) by apply is_fresh.
  assert (Ho' : o' ∉ dom (opts w)) by apply is_fresh.
  assert (Hne_u : u <> u').
  { intros <-. apply Hu'. by apply elem_of_dom. }
  assert (Hne_o : o <> o').
  { intros <-. apply Ho'. by apply elem_of_dom. }
  assert (O1 : opts w1 = <[o' := os']> (opts w)) by exact O.
  destruct (same_settings_hooks os os' SS) as [Hd' Hc'].
  assert (Hv1 : valid_handle w1 u o os).
  { exists mt. split; [|split].
    - change (udata w1) with (<[u' := Holder (Some o') (Some mt)]> (udata w)).
      by rewrite lookup_insert_ne.
    - change (reg_named w1) with (reg_named w'). by rewrite S3.
    - rewrite O1. by rewrite lookup_insert_ne. }
  assert (Hv1' : valid_handle w1 u' o' os').
  { exists mt. split; [|split].
    - change (udata w1) with (<[u' := Holder (Some o') (Some mt)]> (udata w)).
      by rewrite lookup_insert_eq.
    - change (reg_named w1) with (reg_named w'). by rewrite S3.
    - rewrite O1. by rewrite lookup_insert_eq. }
  assert (Hkeep : forall p, is_Some (ctxs w !! p) -> is_Some (ctxs w1 !! p)).
  { intros p [c Hp]. exists c. destruct E as (A1 & _).
    by apply (lookup_weaken _ _ _ _ Hp A1). }
  assert (Hwf1 : closures_wf w1).
  { split; [exact W|]. split.
    - intros o2 os2. rewrite O1.
      intros [[<- <-]|[Hne Ho2]]%lookup_insert_Some.
      + split; [done|]. split; [congruence|]. split; [congruence|].
        intros p Hp. by apply (copied_allocated w w' _ _ F).
      + destruct (H1 o2 os2 Ho2) as (B1 & B2 & B3 & B4).
        do 3 (split; [done|]). intros p Hp. by apply Hkeep, B4.
    - intros o1 o2 os1 os2 p. rewrite O1.
      intros [[<- <-]|[Hn1 Ho1]]%lookup_insert_Some
             [[<- <-]|[Hn2 Ho2]]%lookup_insert_Some Hp1 Hp2; try done.
      + destruct (copied_allocated w w' _ _ F p Hp1) as [Hnew _].
        destruct (H1 o2 os2 Ho2) as (_ & _ & _ & B4).
        exfalso. apply Hnew, elem_of_dom. by apply B4.
      + destruct (copied_allocated w w' _ _ F p Hp2) as [Hnew _].
        destruct (H1 o1 os1 Ho1) as (_ & _ & _ & B4).
        exfalso. apply Hnew, elem_of_dom. by apply B4.
      + by apply (H2 o1 o2 os1 os2 p). }
  assert (Hlook : opts w1 !! o' = Some os') by (rewrite O1; apply lookup_insert_eq).
  exists w1, u', o', os'.
  do 7 (split; [done|]). split; [exact F|]. split; [done|]. split; [|split; [|split]].
  - intros p Hp. by apply (extends_view w w').
  - destruct (finalize_run w1 u o os Hwf1 Hv1) as (w2 & R2 & _ & _ & _ & Hoth).
    exists w2. split; [done|]. intros p' Hp'.
    by apply (Hoth o' os' p').
  - destruct (remove_constraints_run false w1 u o os Hwf1 Hv1) as (w2 & R2 & _ & _ & _ & Hoth).
    exists w2. split; [done|]. intros p' Hp'.
    by apply (Hoth o' os' p').
  - destruct (remove_constraints_run true w1 u o os Hwf1 Hv1) as (w2 & R2 & _ & _ & _ & Hoth).
    exists w2. split; [done|]. intros p' Hp'.
    by apply (Hoth o' os' p').
Qed.

(** ** Registering records

    [closures_wf] is an invariant of the adapter: [copy], the finalizer
    and the two remove functions keep it (above), and so do [create] and
    the functions that register a scalar callback (below). *)

Lemma register_callback_run (f_idx data_idx : Z) (w : world) :
  let t' := fresh (dom (tables w)) in
  let vf := default VNil (index2adr f_idx (VString "f" :: VTable t' :: stack w)) in
  let vd := default VNil (index2adr data_idx (VString "f_data" :: VTable t' :: stack w)) in
  register_callback f_idx data_idx w
  = Ret (fresh (dom (ctxs w))) (registered vf vd w).
Proof.
  destruct w as [S T F RR RN U C O MF TR]. unfold register_callback, registered.
  cbv zeta. run. rewrite lookup_insert_eq. run.
  by rewrite insert_insert_eq.
Qed.

Lemma registered_spec (vf vd : value) (w : world) :
  registry_wf w ->
  let w' := registered vf vd w in
  registry_wf w' /\ extends w w' /\ same_frame w w'
  /\ (fresh (dom (ctxs w)) ∉ dom (ctxs w))
  /\ is_Some (ctxs w' !! fresh (dom (ctxs w))).
Proof.
  intros Hwf w'.
  set (t' := fresh (dom (tables w))).
  set (hp := heap_set t' (VString "f_data") vd
               (heap_set t' (VString "f") vf (<[t' := ∅]> (tables w)))).
  assert (Etab : tables w' = <[t' := hp !!! t']> (tables w)).
  { change (tables w') with hp.
    assert (E : hp = <[t' := hp !!! t']> (heap_set t' (VString "f") vf (<[t' := ∅]> (tables w)))).
    { unfold hp at 1, heap_set at 1. f_equal. symmetry.
      unfold hp at 1, heap_set at 1. apply lookup_total_insert_eq. }
    rewrite E at 1. unfold heap_set. by rewrite !insert_insert_eq. }
  destruct (new_record_wf w w' (hp !!! t') Hwf eq_refl eq_refl Etab) as [W E].
  split; [done|]. split; [done|]. split; [by repeat split|].
  split; [apply is_fresh|].
  change (ctxs w') with (<[fresh (dom (ctxs w)) :=
                            Ctx (Zpos (fresh (dom (reg_refs w))))]> (ctxs w)).
  rewrite lookup_insert_eq. by eexists.
Qed.

Lemma handles_wf_extends (w w' : world) :
  handles_wf w -> ctxs w ⊆ ctxs w' -> opts w' = opts w -> handles_wf w'.
Proof.
  intros (H1 & H2) Hsub Ho. split.
  - intros o os. rewrite Ho. intros Hos.
    destruct (H1 o os Hos) as (B1 & B2 & B3 & B4).
    do 3 (split; [done|]). intros p Hp. destruct (B4 p Hp) as [c Hc].
    exists c. by apply (lookup_weaken _ _ _ _ Hc Hsub).
  - intros o1 o2 os1 os2 p. rewrite Ho. apply H2.
Qed.

Lemma released_nil_log (w : world) name args tol :
  released w (log (Ev_nlopt name args tol) w) [].
Proof.
  exists [Ev_nlopt name args tol]. split; [done|]. split; [done|]. split.
  - by intros p ?%elem_of_nil.
  - intros p _ _. by repeat split.
Qed.

#[local] Arguments registered : simpl never.

(** [nlopt_set_min_objective] / [nlopt_set_max_objective]: the pointer
    held for the old objective goes to the destroy hook. *)
Lemma nlopt_set_objective_run (mx : bool) (o : N) (os : nlopt_opt_s)
    (f : nlopt_callback) (fd : option N) (w : world) :
  registry_wf w -> opts w !! o = Some os ->
  o_munge_on_destroy os = Some fn_munge_on_destroy ->
  (forall p, p ∈ option_list (o_f_data os) -> is_Some (ctxs w !! p)) ->
  let w' := release_all (option_list (o_f_data os))
              (log (Ev_nlopt "nlopt_set_objective" [] None) w) in
  let w1 := set_opts (<[o := with_objective f fd mx os]> (opts w)) w' in
  nlopt_set_objective mx (Some o) f fd w = Ret NLOPT_SUCCESS w1
  /\ released w w1 (option_list (o_f_data os))
  /\ registry_wf w1
  /\ stack w1 = stack w /\ udata w1 = udata w /\ reg_named w1 = reg_named w.
Proof.
  intros Hwf Ho Hm Hall w' w1.
  set (w0 := log (Ev_nlopt "nlopt_set_objective" [] None) w) in *.
  assert (Hwf0 : registry_wf w0) by done.
  assert (Hall0 : forall p, p ∈ option_list (o_f_data os) -> is_Some (ctxs w0 !! p))
    by done.
  pose proof (NoDup_option_list (o_f_data os)) as Hnd.
  pose proof (release_all_released _ _ Hwf0 Hnd Hall0) as Hrel.
  destruct (release_all_fields _ w0 Hwf0 Hnd Hall0)
    as (W & S1 & _ & _ & S4 & S5 & O1 & _).
  split; [|split; [by eapply (released_ext w w0 w')|]].
  2: { split; [exact W|]. split; [exact S1|]. split; [exact S5|exact S4]. }
  unfold nlopt_set_objective. cbn -[log]. fold w0.
  change (opts w0 !! o) with (opts w !! o). rewrite Ho, Hm. cbn -[log].
  rewrite (munge_f_data_destroy_run (o_f_data os) w0 Hall0). fold w'.
  cbn. unfold w1. fold w' in O1. change (opts w0) with (opts w) in O1. by rewrite O1.
Qed.

(** The [nlopt_add_*_constraint] entries with a callback pointer [p]:
    refused, and [p] goes to the destroy hook, or accepted, and [p] is
    held at the end of the list. *)
Lemma nlopt_add_constraint_run (equality : bool) (o : N) (os : nlopt_opt_s) (m : Z)
    (f : nlopt_callback) (p : N) (tol : option (list lua_Number)) (w : world) :
  registry_wf w -> opts w !! o = Some os ->
  o_munge_on_destroy os = Some fn_munge_on_destroy ->
  is_Some (ctxs w !! p) ->
  let c := Constraint m f (Some p) tol in
  let os' := if equality then with_h (o_h os ++ [c]) os else with_fc (o_fc os ++ [c]) os in
  let chk := nlopt_constraint_check os equality m tol in
  exists w1,
    nlopt_add_constraint equality (Some o) m f (Some p) tol w
    = Ret (if m =? 0 then NLOPT_SUCCESS else chk) w1
    /\ registry_wf w1
    /\ stack w1 = stack w /\ udata w1 = udata w /\ reg_named w1 = reg_named w
    /\ if (m =? 0) || (chk <? 0)
       then opts w1 = opts w /\ released w w1 [p]
       else opts w1 = <[o := os']> (opts w) /\ released w w1 [].
Proof.
  intros Hwf Ho Hm Hp c os' chk.
  set (w0 := log (Ev_nlopt "nlopt_add_constraint" [m] tol) w) in *.
  assert (Hwf0 : registry_wf w0) by done.
  assert (Hall0 : forall q, q ∈ [p] -> is_Some (ctxs w0 !! q)).
  { by intros q ->%list_elem_of_singleton. }
  pose proof (NoDup_singleton p) as Hnd.
  pose proof (release_all_released _ _ Hwf0 Hnd Hall0) as Hrel.
  destruct (release_all_fields _ w0 Hwf0 Hnd Hall0)
    as (W & S1 & _ & _ & S4 & S5 & O1 & _).
  assert (Hrefuse : munge_on_destroy (Some p) w0 = Ret None (release_all [p] w0)).
  { destruct Hp as [cp Hcp]. by rewrite (munge_on_destroy_run p cp w0 Hcp). }
  unfold nlopt_add_constraint. cbn -[log]. fold w0.
  change (opts w0 !! o) with (opts w !! o). rewrite Ho. cbn -[log]. fold chk.
  destruct (m =? 0).
  - rewrite Hm. cbn -[log]. rewrite Hrefuse. cbn -[log].
    exists (release_all [p] w0). split; [done|]. split; [done|].
    do 3 (split; [done|]). split; [done|]. by eapply (released_ext w w0).
  - destruct (chk <? 0).
    + rewrite Hm. cbn -[log]. rewrite Hrefuse. cbn -[log].
      exists (release_all [p] w0). split; [done|]. split; [done|].
      do 3 (split; [done|]). split; [done|]. by eapply (released_ext w w0).
    + cbn -[log]. eexists. split; [reflexivity|]. split; [done|].
      do 3 (split; [done|]). split; [done|].
      apply (released_ext w w0 w0 _ [] "nlopt_add_constraint" [m] tol); try done.
      exists []. split; [by rewrite app_nil_r|]. split; [done|]. split.
      * by intros q ?%elem_of_nil.
      * intros q _ _. by repeat split.
Qed.

(** A record registered by [registered] is allocated and held by no
    optimiser. *)
Lemma registered_unheld (vf vd : value) (w : world) :
  closures_wf w ->
  let w' := registered vf vd w in
  let p' := fresh (dom (ctxs w)) in
  closures_wf w'
  /\ is_Some (ctxs w' !! p')
  /\ forall o2 os2, opts w' !! o2 = Some os2 -> p' ∉ closures_of os2.
Proof.
  intros [Hwf Hh] w' p'.
  destruct (registered_spec vf vd w Hwf) as (W & (E1 & _) & _ & Hfresh & Hal).
  split; [|split; [done|]].
  - split; [done|]. by apply (handles_wf_extends w w').
  - intros o2 os2 Ho2 Hin. destruct Hh as (H1 & _).
    destruct (H1 o2 os2 Ho2) as (_ & _ & _ & B4).
    apply Hfresh, elem_of_dom. by apply B4.
Qed.

Lemma held_conditions (w : world) (o : N) (os os' : nlopt_opt_s) (p' : N)
    (ps : list N) :
  handles_wf w -> opts w !! o = Some os ->
  is_Some (ctxs w !! p') ->
  (forall o2 os2, opts w !! o2 = Some os2 -> p' ∉ closures_of os2) ->
  (forall q, q ∈ closures_of os' -> (q ∉ ps) /\ (q = p' \/ q ∈ closures_of os)) ->
  forall q, q ∈ closures_of os' ->
    (q ∉ ps) /\ is_Some (ctxs w !! q)
    /\ forall o2 os2, opts w !! o2 = Some os2 -> q ∈ closures_of os2 -> o2 = o.
Proof.
  intros (H1 & H2) Ho Hal Hun Hin q Hq.
  destruct (Hin q Hq) as [Hqps [->|Hq']]; (split; [done|]).
  - split; [done|]. intros o2 os2 Ho2 Hp2. by destruct (Hun o2 os2 Ho2).
  - destruct (H1 o os Ho) as (_ & _ & _ & B4).
    split; [by apply B4|]. intros o2 os2 Ho2 Hp2. by apply (H2 o2 o os2 os q).
Qed.

#[local] Arguments register_callback : simpl never.
#[local] Arguments nlopt_set_objective : simpl never.
#[local] Arguments nlopt_add_constraint : simpl never.

Lemma set_objective_steps (mx : bool) (wc wr w1 : world) (u o fid p' : N)
    (hd : nlopt_opt_holder) (ret : Z) :
  check 1 wc = Ret u wc ->
  index2adr 2 (stack wc) = Some (VFunction fid) ->
  register_callback 2 3 wc = Ret p' wr ->
  udata wr !! u = Some hd -> d_obj hd = Some o ->
  nlopt_set_objective mx (Some o) fn_func (Some p') wr = Ret ret w1 ->
  (if mx then set_max_objective else set_min_objective) wc
  = Ret 1 (set_stack (VNumber (cast_num ret) :: stack w1) w1).
Proof.
  intros Hck Hf Hreg Hu Hobj Hrun.
  destruct mx; [unfold set_max_objective, nlopt_set_max_objective
               |unfold set_min_objective, nlopt_set_min_objective];
    cbn -[check]; rewrite Hck; cbn -[check]; rewrite Hf; cbn -[check];
    rewrite Hreg; cbn -[check]; rewrite Hu; cbn -[check]; rewrite Hobj, Hrun;
    reflexivity.
Qed.

(** The arguments of a call by their positions. *)
Lemma index2adr_call (k : nat) (args : list value) :
  index2adr (Z.of_nat (S k)) (reverse args) = args !! k.
Proof.
  destruct (args !! k) as [v|] eqn:Hk.
  - apply (designates_positive k (reverse args) v (eq_trans (f_equal (.!! k)
             (reverse_involutive args)) Hk) []).
  - apply lookup_ge_None in Hk. unfold index2adr.
    assert ((0 <? Z.of_nat (S k)) = true) as -> by (apply Z.ltb_lt; lia).
    assert ((Z.of_nat (S k) <=? Z.of_nat (length (reverse args))) = false) as ->; [|done].
    apply Z.leb_gt. rewrite length_reverse. lia.
Qed.

(** What the registration block finds at the user-data index [3]: the
    third argument, or the new record table itself when the call has only
    two arguments. *)
Lemma user_data_slot (a1 a2 : value) (rest : list value) (top t' : value) :
  default VNil (index2adr 3 (top :: t' :: reverse (a1 :: a2 :: rest)))
  = default t' (head rest).
Proof.
  destruct rest as [|a3 rest]; [done|].
  pose proof (designates_positive 2 (reverse (a1 :: a2 :: a3 :: rest)) a3
                (f_equal (.!! 2%nat) (reverse_involutive _)) [top; t']) as H.
  change (Z.of_nat 3) with 3 in H. cbn [app] in H. by rewrite H.
Qed.

(** The record [registered] makes holds the callable and the user data. *)
Lemma registered_view (vf vd : value) (w : world) :
  closure_view (registered vf vd w) (fresh (dom (ctxs w))) = Some (vf, vd).
Proof.
  unfold closure_view, closure_record, closure_field, registered. cbn.
  rewrite !lookup_insert_eq.
  by rewrite tbl_get_heap_set_same, tbl_get_heap_set_other, tbl_get_heap_set_same.
Qed.

(** X10. [set_min_objective] and [set_max_objective] on a valid handle
    with a callable: a new closure record is registered that holds the
    callable and the user data (the third argument, or the record table
    itself when the call has no third argument); the optimiser then has
    this record for its objective, minimised or maximised; the record of
    the objective it had before, if any, is released exactly once and no
    other record is touched; the status is pushed and the world stays
    well-formed. *)
Theorem set_objective_replaces_record (mx : bool) (w : world) (u o fid : N)
    (os : nlopt_opt_s) (rest : list value) :
  closures_wf w -> valid_handle w u o os ->
  let args := VUserdata u :: VFunction fid :: rest in
  let p' := fresh (dom (ctxs w)) in
  let vd := default (VTable (fresh (dom (tables w)))) (head rest) in
  let os1 := with_objective fn_func (Some p') mx os in
  exists w1,
    (if mx then set_max_objective else set_min_objective) (call args w) = Ret 1 w1
    /\ stack w1 = VNumber (cast_num NLOPT_SUCCESS) :: reverse args
    /\ opts w1 = <[o := os1]> (opts w)
    /\ closure_view w1 p' = Some (VFunction fid, vd)
    /\ released (registered (VFunction fid) vd (call args w)) w1
         (option_list (o_f_data os))
    /\ closures_wf w1 /\ valid_handle w1 u o os1.
Proof.
  intros Hcw Hv args p' vd os1.
  pose proof Hv as (mt & Hu & Hmt & Ho).
  set (wc := call args w).
  assert (Hvc : valid_handle wc u o os) by done.
  destruct (check_ok wc u o os (designates_call_1 _ _ _) Hvc) as (Hck & _ & _).
  pose proof (designates_0 _ _ _ (designates_call_2 (VUserdata u) (VFunction fid) rest w))
    as Hf.
  pose proof (register_callback_run 2 3 wc) as Hreg. cbv zeta in Hreg.
  change (stack wc) with (reverse args) in Hreg.
  rewrite (designates_2 _ _ _ _ _ (designates_call_2 (VUserdata u) (VFunction fid) rest w))
    in Hreg.
  unfold args in Hreg. rewrite user_data_slot in Hreg. cbn [default] in Hreg.
  change (fresh (dom (tables wc))) with (fresh (dom (tables w))) in Hreg. fold vd args in Hreg.
  set (vf := VFunction fid) in *.
  destruct (registered_unheld vf vd wc Hcw) as ([Wr Hr] & Halp & Hun).
  destruct (registered_spec vf vd wc (proj1 Hcw)) as (_ & (E1 & _) & _ & Hfresh & _).
  pose proof (registered_view vf vd wc) as Hview.
  set (wr := registered vf vd wc) in *.
  change (fresh (dom (ctxs wc))) with p' in *.
  pose proof Hcw as [_ (H1 & H2)].
  destruct (H1 o os Ho) as (Hnd & Hd & Hc & Hal).
  assert (Hold : forall q, q ∈ closures_of os -> is_Some (ctxs wr !! q)).
  { intros q Hq. destruct (Hal q Hq) as [c Hcq]. exists c.
    by apply (lookup_weaken _ _ _ _ Hcq E1). }
  assert (Hfd : forall q, q ∈ option_list (o_f_data os) -> q ∈ closures_of os).
  { intros q Hq. unfold closures_of. apply elem_of_app. by left. }
  assert (Hnew : p' ∉ closures_of os).
  { intros Hin. by apply Hfresh, elem_of_dom, Hal. }
  destruct (nlopt_set_objective_run mx o os fn_func (Some p') wr Wr Ho Hd)
    as (Hrun & Hrel & W1 & S1 & U1 & N1').
  { intros q Hq. by apply Hold, Hfd. }
  fold os1 in Hrun, Hrel, W1, S1, U1, N1'.
  set (w1 := set_opts (<[o := os1]> (opts wr)) _) in *.
  exists (set_stack (VNumber (cast_num NLOPT_SUCCESS) :: stack w1) w1).
  assert (Hvh : valid_handle (set_stack (VNumber (cast_num NLOPT_SUCCESS) :: stack w1) w1)
                  u o os1).
  { exists mt.
    split; [change (udata w1 !! u = Some (Holder (Some o) (Some mt))); rewrite U1; exact Hu|].
    split; [change (reg_named w1 !! nlopt_metaName = Some (VTable mt)); rewrite N1';
            exact Hmt|].
    change (opts (set_stack (VNumber (cast_num NLOPT_SUCCESS) :: stack w1) w1))
      with (<[o := os1]> (opts w)).
    apply lookup_insert_eq. }
  unfold closures_of in Hnd. apply NoDup_app in Hnd as (N1 & D12 & N23).
  split; [|split; [|split; [done|split; [|split; [exact Hrel|split; [|exact Hvh]]]]]].
  - apply (set_objective_steps mx wc wr w1 u o fid p' (Holder (Some o) (Some mt)));
      try done.
  - change (VNumber (cast_num NLOPT_SUCCESS) :: stack w1
            = VNumber (cast_num NLOPT_SUCCESS) :: reverse args).
    by rewrite S1.
  - destruct Hrel as (added & _ & _ & _ & Hkeep).
    destruct (Hkeep p') as ((_ & Hcv) & _); [by intros ?%Hfd|done|].
    change (closure_view w1 p' = Some (vf, vd)). by rewrite Hcv.
  - split; [exact W1|].
    apply (handles_wf_released wr _ o os (option_list (o_f_data os)) (Some os1));
      try done.
    + intros ? [= <-]. split; [|split; [done|split; [done|]]].
      * change (closures_of os1) with (p' :: ptrs (o_fc os) ++ ptrs (o_h os)).
        apply NoDup_cons. split; [|done].
        intros Hin. apply Hnew. unfold closures_of. apply elem_of_app. by right.
      * apply (held_conditions wr o os os1 p'); try done.
        change (closures_of os1) with (p' :: ptrs (o_fc os) ++ ptrs (o_h os)).
        intros q [->|Hq]%elem_of_cons.
        -- split; [|by left]. by intros ?%Hfd.
        -- split; [intros Hq'; by apply (D12 q Hq')|right].
           unfold closures_of. apply elem_of_app. by right.
    + intros q o2 os2 Hq Ho2 Hq2. apply (H2 o2 o os2 os q); try done. by apply Hfd.
Qed.

Lemma closures_of_added (equality : bool) (os : nlopt_opt_s) (c : nlopt_constraint)
    (p : N) :
  c_f_data c = Some p ->
  closures_of (if equality then with_h (o_h os ++ [c]) os
               else with_fc (o_fc os ++ [c]) os)
  ≡ₚ p :: closures_of os.
Proof.
  intros Hc. assert (Hp : forall l, ptrs (l ++ [c]) = ptrs l ++ [p]).
  { intros l. unfold ptrs. rewrite omap_app. cbn. by rewrite Hc. }
  destruct equality; unfold closures_of; cbn [o_f_data o_fc o_h with_h with_fc];
    rewrite Hp.
  - rewrite !app_assoc. symmetry. apply Permutation_cons_append.
  - rewrite <- (app_assoc (ptrs (o_fc os))). cbn [app].
    rewrite (app_assoc (option_list (o_f_data os))), <- Permutation_middle.
    by rewrite <- app_assoc.
Qed.

Lemma add_constraint_steps (equality : bool) (wc wr w1 : world) (u o fid p' : N)
    (hd : nlopt_opt_holder) (ret : Z) :
  check 1 wc = Ret u wc ->
  index2adr 2 (stack wc) = Some (VFunction fid) ->
  register_callback 2 3 wc = Ret p' wr ->
  udata wr !! u = Some hd -> d_obj hd = Some o ->
  nlopt_add_constraint equality (Some o) 1 fn_func (Some p')
    (Some [tonumber (index2adr 4 (stack wr))]) wr = Ret ret w1 ->
  (if equality then add_equality_constraint else add_inequality_constraint) wc
  = Ret 1 (set_stack (VNumber (cast_num ret) :: stack w1) w1).
Proof.
  intros Hck Hf Hreg Hu Hobj Hrun.
  destruct equality;
    [unfold add_equality_constraint, nlopt_add_equality_constraint
    |unfold add_inequality_constraint, nlopt_add_inequality_constraint];
    cbn -[check]; rewrite Hck; cbn -[check]; rewrite Hf; cbn -[check];
    rewrite Hreg; cbn -[check]; rewrite Hu; cbn -[check]; rewrite Hobj, Hrun;
    reflexivity.
Qed.

(** Registering a record and offering it to the library with a
    constraint: what the world is like afterwards, whatever is then left
    on the stack. *)
Lemma registered_constraint_outcome (equality : bool) (wc : world) (u o : N)
    (os : nlopt_opt_s) (vf vd : value) (m : Z) (f : nlopt_callback)
    (tol : option (list lua_Number)) :
  closures_wf wc -> valid_handle wc u o os ->
  let p' := fresh (dom (ctxs wc)) in
  let wr := registered vf vd wc in
  let chk := nlopt_constraint_check os equality m tol in
  let c := Constraint m f (Some p') tol in
  let os1 := if equality then with_h (o_h os ++ [c]) os else with_fc (o_fc os ++ [c]) os in
  exists w1,
    nlopt_add_constraint equality (Some o) m f (Some p') tol wr
    = Ret (if m =? 0 then NLOPT_SUCCESS else chk) w1
    /\ stack w1 = stack wc
    /\ forall st, let w2 := set_stack st w1 in
         closures_wf w2
         /\ if (m =? 0) || (chk <? 0)
            then opts w2 = opts wc /\ released wr w2 [p'] /\ valid_handle w2 u o os
            else opts w2 = <[o := os1]> (opts wc) /\ released wr w2 []
                 /\ valid_handle w2 u o os1
                 /\ closure_view w2 p' = Some (vf, vd).
Proof.
  intros Hcw Hv p' wr chk c os1.
  pose proof Hv as (mt & Hu & Hmt & Ho).
  destruct (registered_unheld vf vd wc Hcw) as ([Wr Hr] & Halp & Hun).
  destruct (registered_spec vf vd wc (proj1 Hcw)) as (_ & (E1 & _) & _ & Hfresh & _).
  pose proof (registered_view vf vd wc) as Hview.
  fold wr in Wr, Hr, Halp, Hun, E1, Hview. fold p' in Halp, Hun, Hfresh, Hview.
  pose proof Hcw as [_ (H1 & H2)].
  destruct (H1 o os Ho) as (Hnd & Hd & Hc & Hal).
  assert (Hnew : p' ∉ closures_of os).
  { intros Hin. apply Hfresh, elem_of_dom. by apply Hal. }
  destruct (nlopt_add_constraint_run equality o os m f p' tol wr Wr Ho Hd Halp)
    as (w1 & Hrun & W1 & S1 & U1 & N1 & Hcase).
  fold chk c os1 in Hrun, Hcase.
  exists w1. split; [exact Hrun|]. split; [exact S1|]. intros st w2.
  assert (Hvh : forall os2, opts w1 !! o = Some os2 -> valid_handle w2 u o os2).
  { intros os2 Hos2. exists mt.
    split; [change (udata w1 !! u = Some (Holder (Some o) (Some mt))); rewrite U1;
            exact Hu|].
    split; [change (reg_named w1 !! nlopt_metaName = Some (VTable mt)); rewrite N1;
            exact Hmt|exact Hos2]. }
  destruct ((m =? 0) || (chk <? 0)); destruct Hcase as [O1 Hrel].
  - split; [|split; [exact O1|split; [exact Hrel|]]].
    + split; [exact W1|].
      apply (handles_wf_released wr _ o os [p'] (Some os)); try done.
      * change (opts w2) with (opts w1). rewrite O1. symmetry. by apply insert_id.
      * intros ? [= <-]. do 3 (split; [done|]).
        apply (held_conditions wr o os os p'); try done.
        intros q Hq. split; [|by right]. by intros ->%list_elem_of_singleton.
      * intros q o2 os2 ->%list_elem_of_singleton Ho2 Hq2. by destruct (Hun o2 os2 Ho2).
    + apply Hvh. by rewrite O1.
  - pose proof (closures_of_added equality os c p' eq_refl) as Hperm. fold os1 in Hperm.
    split; [|split; [exact O1|split; [exact Hrel|split]]].
    + split; [exact W1|].
      apply (handles_wf_released wr _ o os [] (Some os1)); try done.
      * intros ? [= <-]. split; [|split; [by destruct equality|split; [by destruct equality|]]].
        -- rewrite Hperm. by apply NoDup_cons.
        -- apply (held_conditions wr o os os1 p'); try done.
           intros q Hq. split; [apply not_elem_of_nil|].
           rewrite Hperm in Hq. by apply elem_of_cons in Hq.
      * by intros q o2 os2 ?%elem_of_nil.
    + apply Hvh. rewrite O1. apply lookup_insert_eq.
    + destruct Hrel as (added & _ & _ & _ & Hkeep).
      destruct (Hkeep p') as ((_ & Hcv) & _); [apply not_elem_of_nil|done|].
      change (closure_view w1 p' = Some (vf, vd)). by rewrite Hcv.
Qed.

(** X11. [add_inequality_constraint] and [add_equality_constraint] on a
    valid handle with a callable: a new closure record is registered and
    the library is asked with the tolerance read from the fourth argument
    (0 when it is absent or no number).  Its answer is pushed as the
    status.  When the library refuses (a negative answer) the optimiser is
    as before and the new record is released exactly once; otherwise the
    optimiser holds the constraint with the new record at the end of its
    list and no record is released.  The world stays well-formed either
    way. *)
Theorem add_constraint_holds_or_releases (equality : bool) (w : world) (u o fid : N)
    (os : nlopt_opt_s) (rest : list value) :
  closures_wf w -> valid_handle w u o os ->
  let args := VUserdata u :: VFunction fid :: rest in
  let p' := fresh (dom (ctxs w)) in
  let vd := default (VTable (fresh (dom (tables w)))) (head rest) in
  let wr := registered (VFunction fid) vd (call args w) in
  let tol := Some [tonumber (rest !! 1%nat)] in
  let ret := nlopt_constraint_check os equality 1 tol in
  let c := Constraint 1 fn_func (Some p') tol in
  let os1 := if equality then with_h (o_h os ++ [c]) os else with_fc (o_fc os ++ [c]) os in
  exists w1,
    (if equality then add_equality_constraint else add_inequality_constraint) (call args w)
    = Ret 1 w1
    /\ stack w1 = VNumber (cast_num ret) :: reverse args
    /\ closures_wf w1
    /\ if ret <? 0
       then opts w1 = opts w /\ released wr w1 [p'] /\ valid_handle w1 u o os
       else opts w1 = <[o := os1]> (opts w) /\ released wr w1 []
            /\ valid_handle w1 u o os1
            /\ closure_view w1 p' = Some (VFunction fid, vd).
Proof.
  intros Hcw Hv args p' vd wr tol ret c os1.
  pose proof Hv as (mt & Hu & Hmt & Ho).
  set (wc := call args w).
  assert (Hvc : valid_handle wc u o os) by done.
  destruct (check_ok wc u o os (designates_call_1 _ _ _) Hvc) as (Hck & _ & _).
  pose proof (designates_0 _ _ _ (designates_call_2 (VUserdata u) (VFunction fid) rest w))
    as Hf.
  pose proof (register_callback_run 2 3 wc) as Hreg. cbv zeta in Hreg.
  change (stack wc) with (reverse args) in Hreg.
  rewrite (designates_2 _ _ _ _ _ (designates_call_2 (VUserdata u) (VFunction fid) rest w))
    in Hreg.
  unfold args in Hreg. rewrite user_data_slot in Hreg. cbn [default] in Hreg.
  change (fresh (dom (tables wc))) with (fresh (dom (tables w))) in Hreg.
  fold vd args in Hreg.
  assert (Htol : Some [tonumber (index2adr 4 (stack wr))] = tol).
  { change (stack wr) with (reverse args). unfold tol.
    do 3 f_equal. exact (index2adr_call 3 args). }
  destruct (registered_constraint_outcome equality wc u o os (VFunction fid) vd 1 fn_func
              tol Hcw Hvc) as (w1 & Hrun & S1 & Hout).
  change (1 =? 0) with false in Hrun, Hout. cbn [orb] in Hout.
  exists (set_stack (VNumber (cast_num ret) :: stack w1) w1).
  split; [|split; [|exact (Hout _)]].
  - apply (add_constraint_steps equality wc wr w1 u o fid p'
             (Holder (Some o) (Some mt))); try done.
    by rewrite Htol.
  - change (VNumber (cast_num ret) :: stack w1 = VNumber (cast_num ret) :: reverse args).
    by rewrite S1.
Qed.

#[local] Arguments isnumber : simpl never.

Lemma add_mconstraint_steps (equality : bool) (wc wr w1 : world) (u o fid p' : N)
    (hd : nlopt_opt_holder) (d : lua_Number) (ret : Z) :
  check 1 wc = Ret u wc ->
  index2adr 2 (stack wc) = Some (VNumber d) ->
  index2adr 3 (stack wc) = Some (VFunction fid) ->
  index2adr 5 (stack wc) = Some VNil ->
  register_callback 3 4 wc = Ret p' wr ->
  stack wr = stack wc ->
  udata wr !! u = Some hd -> d_obj hd = Some o ->
  nlopt_add_constraint equality (Some o)
    (cast_unsigned (cast_int (lua_number2integer d))) fn_mfunc (Some p') None wr
  = Ret ret w1 ->
  (if equality then add_equality_mconstraint else add_inequality_mconstraint) wc
  = Ret 1 (set_stack (VNumber (cast_num ret) :: stack w1) w1).
Proof.
  intros Hck H2 H3 H5 Hreg Hs Hu Hobj Hrun.
  destruct equality;
    [unfold add_equality_mconstraint, nlopt_add_equality_mconstraint
    |unfold add_inequality_mconstraint, nlopt_add_inequality_mconstraint];
    unfold add_mconstraint;
    cbn -[check]; rewrite Hck; cbn -[check]; rewrite H2; cbn -[check];
    change (isnumber (Some (VNumber d))) with true; cbn -[check];
    rewrite andb_false_r; cbn -[check]; rewrite H3; cbn -[check]; rewrite H5; cbn -[check];
    rewrite Hreg; cbn -[check]; rewrite Hu; cbn -[check]; rewrite Hs, H5; cbn -[check];
    rewrite Hobj, Hrun; reflexivity.
Qed.

(** X12. [add_inequality_mconstraint] and [add_equality_mconstraint] on a
    valid handle with a count, a callable, user data and an explicit nil
    tolerance: a new closure record is registered and the library is
    asked with the count converted to unsigned and a NULL tolerance.  The
    status pushed is success for a count of 0 and the library's answer
    otherwise.  For a count of 0 and when the library refuses, the
    optimiser is as before and the new record is released exactly once;
    otherwise the optimiser holds the vector constraint with the new
    record at the end of its list.  The world stays well-formed either
    way. *)
Theorem add_mconstraint_with_nil_tolerance (equality : bool) (w : world) (u o fid : N)
    (os : nlopt_opt_s) (d : lua_Number) (ud : value) (rest : list value) :
  closures_wf w -> valid_handle w u o os ->
  let args := VUserdata u :: VNumber d :: VFunction fid :: ud :: VNil :: rest in
  let m := cast_unsigned (cast_int (lua_number2integer d)) in
  let p' := fresh (dom (ctxs w)) in
  let wr := registered (VFunction fid) ud (call args w) in
  let chk := nlopt_constraint_check os equality m None in
  let ret := if m =? 0 then NLOPT_SUCCESS else chk in
  let c := Constraint m fn_mfunc (Some p') None in
  let os1 := if equality then with_h (o_h os ++ [c]) os else with_fc (o_fc os ++ [c]) os in
  exists w1,
    (if equality then add_equality_mconstraint else add_inequality_mconstraint) (call args w)
    = Ret 1 w1
    /\ stack w1 = VNumber (cast_num ret) :: reverse args
    /\ closures_wf w1
    /\ if (m =? 0) || (chk <? 0)
       then opts w1 = opts w /\ released wr w1 [p'] /\ valid_handle w1 u o os
       else opts w1 = <[o := os1]> (opts w) /\ released wr w1 []
            /\ valid_handle w1 u o os1
            /\ closure_view w1 p' = Some (VFunction fid, ud).
Proof.
  intros Hcw Hv args m p' wr chk ret c os1.
  pose proof Hv as (mt & Hu & Hmt & Ho).
  set (wc := call args w).
  assert (Hvc : valid_handle wc u o os) by done.
  destruct (check_ok wc u o os (designates_call_1 _ _ _) Hvc) as (Hck & _ & _).
  assert (Hidx : forall k : nat, index2adr (Z.of_nat (S k)) (stack wc) = args !! k).
  { intros k. exact (index2adr_call k args). }
  pose proof (register_callback_run 3 4 wc) as Hreg. cbv zeta in Hreg.
  pose proof (designates_positive 2 (reverse args) (VFunction fid)
                (f_equal (.!! 2%nat) (reverse_involutive _))) as H3.
  pose proof (designates_positive 3 (reverse args) ud
                (f_equal (.!! 3%nat) (reverse_involutive _))) as H4.
  change (stack wc) with (reverse args) in Hreg.
  change (Z.of_nat 3) with 3 in H3. change (Z.of_nat 4) with 4 in H4.
  rewrite (designates_2 _ _ _ _ _ H3), (designates_2 _ _ _ _ _ H4) in Hreg.
  cbn [default] in Hreg.
  destruct (registered_constraint_outcome equality wc u o os (VFunction fid) ud m fn_mfunc
              None Hcw Hvc) as (w1 & Hrun & S1 & Hout).
  exists (set_stack (VNumber (cast_num ret) :: stack w1) w1).
  split; [|split; [|exact (Hout _)]].
  - apply (add_mconstraint_steps equality wc wr w1 u o fid p'
             (Holder (Some o) (Some mt)) d); try done.
    + exact (Hidx 1%nat).
    + exact (Hidx 2%nat).
    + exact (Hidx 4%nat).
  - change (VNumber (cast_num ret) :: stack w1 = VNumber (cast_num ret) :: reverse args).
    by rewrite S1.
Qed.

(** A new optimiser without callbacks, as [create] makes it, keeps the
    world well-formed. *)
Lemma new_optimiser_keeps_wf (w w' : world) (o : N) (os0 : nlopt_opt_s) :
  closures_wf w ->
  ctxs w' = ctxs w -> reg_refs w' = reg_refs w -> tables w' = tables w ->
  opts w' = <[o := os0]> (opts w) ->
  closures_of os0 = [] ->
  o_munge_on_destroy os0 = Some fn_munge_on_destroy ->
  o_munge_on_copy os0 = Some fn_munge_on_copy ->
  closures_wf w'.
Proof.
  intros [(G1 & G2 & G3) (H1 & H2)] Ec Er Et Eo Hnil Hd Hc. split; [split; [|split]|split].
  - intros p c. rewrite Ec, Er, Et. apply G1.
  - intros p1 p2 c. rewrite Ec. apply G2.
  - intros p1 p2 t. unfold closure_record. rewrite Ec, Er. apply G3.
  - intros o2 os2. rewrite Eo, Ec.
    intros [[<- <-]|[Hne Ho2]]%lookup_insert_Some; [|by apply (H1 o2)].
    rewrite Hnil. split; [apply NoDup_nil_2|]. do 2 (split; [done|]).
    by intros p ?%elem_of_nil.
  - intros o1 o2 os1 os2 p. rewrite Eo.
    intros [[<- <-]|[Hn1 Ho1]]%lookup_insert_Some
           [[<- <-]|[Hn2 Ho2]]%lookup_insert_Some Hp1 Hp2; try done.
    + rewrite Hnil in Hp1. by apply elem_of_nil in Hp1.
    + rewrite Hnil in Hp2. by apply elem_of_nil in Hp2.
    + by apply (H2 o1 o2 os1 os2 p).
Qed.

(** * Further properties of the adapter *)

(** ** Argument checks *)

Lemma check_fails (w : world) :
  is_handle w (index2adr 1 (stack w)) = false ->
  check 1 w = Throw (TypeError 1 nlopt_metaName) w.
Proof.
  unfold is_handle. cbn.
  destruct (index2adr 1 (stack w)) as [[| | | | | |u]|]; try done.
  destruct (udata w !! u) as [hd|]; [|done].
  destruct (metatable hd) as [r|]; [|done].
  destruct (reg_named w !! nlopt_metaName) as [[| | | |r'| |]|]; try done.
  by intros ->.
Qed.

(** X1. A method called on anything but an optimiser object (no
    userdata, or a userdata with another metatable) raises the type
    error for argument 1 and leaves the state as it was: no library call
    is made, nothing is allocated, released or pushed. *)
Theorem methods_check_handle (w : world) :
  is_handle w (index2adr 1 (stack w)) = false ->
  Forall (fun f : M Z => f w = Throw (TypeError 1 nlopt_metaName) w) handle_methods.
Proof.
  intros H. pose proof (check_fails w H) as Hc.
  unfold handle_methods. repeat (apply Forall_cons; split); [..|by apply Forall_nil];
    cbv delta [finalize_nlopt_opt_s copy get_algorithm get_dimension
               set_lower_bounds set_upper_bounds set_lower_bounds1 set_upper_bounds1
               get_lower_bounds get_upper_bounds set_min_objective set_max_objective
               add_inequality_constraint add_equality_constraint
               remove_inequality_constraints remove_equality_constraints
               add_inequality_mconstraint add_equality_mconstraint
               set_xtol_abs get_xtol_abs set_xtol_abs1 optimize
               set_vec get_vec set_vec1 add_mconstraint];
    cbn -[check]; by rewrite Hc.
Qed.

Lemma check_succeeds (w : world) :
  is_handle w (index2adr 1 (stack w)) = true ->
  exists u, check 1 w = Ret u w.
Proof.
  unfold is_handle. cbn.
  destruct (index2adr 1 (stack w)) as [[| | | | | |u]|]; try done.
  destruct (udata w !! u) as [hd|]; [|done].
  destruct (metatable hd) as [r|]; [|done].
  destruct (reg_named w !! nlopt_metaName) as [[| | | |r'| |]|]; try done.
  intros ->. by exists u.
Qed.

Lemma checknumber_fails (narg : Z) (w : world) :
  isnumber (index2adr narg (stack w)) = false ->
  luaL_checknumber narg w = Throw (TypeError narg "number") w.
Proof.
  unfold luaL_checknumber. cbn. intros H. rewrite H.
  destruct (index2adr narg (stack w)) as [[| | |s| | |]|]; try done.
  cbn in *. apply bool_decide_eq_false in H.
  destruct (luaO_str2d s); [|done]. exfalso. apply H. by eexists.
Qed.

(** X2. On an optimiser object, an argument of the wrong type is
    reported before anything else happens: the functions that register a
    callable raise the type error for argument 2 without allocating a
    context or a registry entry; the vector setters and [optimize] raise
    it for a second argument that is no table, the [*1] setters for one
    that is no number, both before the library is called. *)
Theorem type_errors_come_first (w : world) :
  is_handle w (index2adr 1 (stack w)) = true ->
  (type_of (index2adr 2 (stack w)) <> LUA_TFUNCTION ->
   Forall (fun f : M Z => f w = Throw (TypeError 2 "type") w)
     [set_min_objective; set_max_objective;
      add_inequality_constraint; add_equality_constraint])
  /\ (type_of (index2adr 2 (stack w)) <> LUA_TTABLE ->
      Forall (fun f : M Z => f w = Throw (TypeError 2 "type") w)
        [set_lower_bounds; set_upper_bounds; set_xtol_abs; optimize])
  /\ (isnumber (index2adr 2 (stack w)) = false ->
      Forall (fun f : M Z => f w = Throw (TypeError 2 "number") w)
        [set_lower_bounds1; set_upper_bounds1; set_xtol_abs1]).
Proof.
  intros H. destruct (check_succeeds w H) as [u Hc].
  split; [|split].
  - intros Ht%Z.eqb_neq.
    repeat (apply Forall_cons; split); [..|by apply Forall_nil];
      cbv delta [set_min_objective set_max_objective
                 add_inequality_constraint add_equality_constraint];
      cbn -[check]; rewrite Hc; cbn -[check]; by rewrite Ht.
  - intros Ht%Z.eqb_neq.
    repeat (apply Forall_cons; split); [..|by apply Forall_nil];
      cbv delta [set_lower_bounds set_upper_bounds set_xtol_abs optimize set_vec];
      cbn -[check]; rewrite Hc; cbn -[check]; by rewrite Ht.
  - intros Hn. pose proof (checknumber_fails 2 w Hn) as Hk.
    repeat (apply Forall_cons; split); [..|by apply Forall_nil];
      cbv delta [set_lower_bounds1 set_upper_bounds1 set_xtol_abs1 set_vec1];
      cbn -[check luaL_checknumber]; rewrite Hc; cbn -[check luaL_checknumber];
      by rewrite Hk.
Qed.

(** ** The vector accessors *)

Lemma setter_eq fld : setter fld = set_vec (nlopt_set_vec fld).
Proof. by destruct fld. Qed.
Lemma setter1_eq fld : setter1 fld = set_vec1 (nlopt_set_vec1 fld).
Proof. by destruct fld. Qed.
Lemma getter_eq fld : getter fld = get_vec (nlopt_get_vec fld).
Proof. by destruct fld. Qed.

Lemma store_seq_other_key r r' key b count :
  forall from hp, r <> r' -> store_seq r key b count from hp !! r' = hp !! r'.
Proof.
  induction count as [|c IH]; intros from hp Hne; [done|].
  cbn. rewrite IH by done. unfold heap_set. by rewrite lookup_insert_ne.
Qed.

Lemma getter_run (fld : vec_field) (w : world) (u o : N) (os : nlopt_opt_s) :
  valid_handle w u o os -> sized os ->
  exists w2,
    getter fld (call [VUserdata u] w) = Ret 2 w2
    /\ returns_vector w w2 u (vec_get fld os).
Proof.
  intros Hh [Hn Hlen]. rewrite getter_eq.
  set (wc := call [VUserdata u] w).
  assert (Hhc : valid_handle wc u o os) by done.
  rewrite (get_vec_run fld wc u o os (designates_call_1 _ _ _) Hhc Hn (Hlen fld)).
  eexists. split; [reflexivity|].
  set (r' := fresh (dom (tables wc))).
  assert (Hr' : r' ∉ dom (tables w)) by apply is_fresh.
  exists r'. split; [done|]. split; [done|].
  cbn [tables set_stack set_tables log]. rewrite <- (Hlen fld).
  destruct (store_seq_table_seq r' (fun i => cast_int (i + 1)) (vec_get fld os)
              (length (vec_get fld os)) (<[r' := ∅]> (tables wc))) as [Hs Hd].
  - intros i Hi. apply cast_int_small. rewrite Hlen in Hi. unfold INT_MAX in *. lia.
  - rewrite Hlen. unfold INT_MAX in *. lia.
  - done.
  - split; [done|]. split.
    + intros k Hk. apply Hd in Hk as [Hk|Hk]; [|done].
      rewrite lookup_total_insert_eq, lookup_empty in Hk. by destruct Hk.
    + split; [|done]. intros t Ht.
      rewrite store_seq_other_key by (by intros <-).
      apply lookup_insert_ne. by intros <-.
Qed.

Lemma returns_vector_handle w w2 u v u0 o os :
  returns_vector w w2 u v -> valid_handle w u0 o os -> valid_handle w2 u0 o os.
Proof.
  intros (r' & _ & _ & _ & _ & _ & Eo & _ & _ & Eu & En) (mt & Hu & Hmt & Ho).
  exists mt. by rewrite Eu, En, Eo.
Qed.

(** X3. A vector getter on an optimiser object of dimension n returns
    two values, the status and a table created by the call, which holds
    the n doubles of the object's vector as entries 1..n and nothing
    else; the tables that existed, the optimisers and the closure
    records are untouched. A second call returns the same doubles in
    another new table: the tables returned are never shared. *)
Theorem getter_returns_new_table (fld : vec_field) (w : world) (u o : N)
    (os : nlopt_opt_s) :
  valid_handle w u o os -> sized os ->
  exists w2,
    getter fld (call [VUserdata u] w) = Ret 2 w2
    /\ returns_vector w w2 u (vec_get fld os)
    /\ exists w3,
        getter fld (call [VUserdata u] w2) = Ret 2 w3
        /\ returns_vector w2 w3 u (vec_get fld os).
Proof.
  intros Hh Hs.
  destruct (getter_run fld w u o os Hh Hs) as (w2 & R2 & V2).
  exists w2. split; [done|]. split; [done|].
  apply (getter_run fld w2 u o os); [|done].
  by apply (returns_vector_handle w w2 u (vec_get fld os)).
Qed.

Lemma table_seq_app tb (k m : nat) :
  table_seq tb (k + m)
  = table_seq tb k
    ++ ((fun i : nat => tbl_get (VNumber (cast_num (Z.of_nat i + 1))) tb) <$> seq k m).
Proof. unfold table_seq. by rewrite seq_app, fmap_app. Qed.

(** X4. A vector setter reads the entries 1..n of its table with
    [lua_tonumber] and reports no error for an entry that is missing: on
    a table that holds the doubles [v] at 1..k, k <= n, and nothing at
    k+1..n, the object's vector becomes [v] followed by n-k zeros. The
    status is the one value returned, and no table is changed. *)
Theorem setter_pads_short_table (fld : vec_field) (w : world) (u o r : N)
    (os : nlopt_opt_s) (v : list lua_Number) :
  valid_handle w u o os ->
  0 <= o_n os <= INT_MAX ->
  (length v <= Z.to_nat (o_n os))%nat ->
  table_seq (tables w !!! r) (length v) = VNumber <$> v ->
  (forall i, (length v <= i < Z.to_nat (o_n os))%nat ->
     (tables w !!! r) !! VNumber (cast_num (Z.of_nat i + 1)) = None) ->
  exists w1,
    setter fld (call [VUserdata u; VTable r] w) = Ret 1 w1
    /\ stack w1 = [VNumber (cast_num NLOPT_SUCCESS); VTable r; VUserdata u]
    /\ opts w1
       = <[o := vec_put fld (v ++ replicate (Z.to_nat (o_n os) - length v) 0) os]> (opts w)
    /\ tables w1 = tables w.
Proof.
  intros Hh Hn Hk Hv Hmiss. rewrite setter_eq.
  set (wc := call [VUserdata u; VTable r] w).
  assert (Hhc : valid_handle wc u o os) by done.
  rewrite (set_vec_run fld wc u o r os (designates_call_1 _ _ _)
             (designates_call_2 _ _ _ _) Hhc Hn).
  assert (Hx : (fun v => tonumber (Some v)) <$>
                 table_seq (tables wc !!! r) (Z.to_nat (o_n os))
               = v ++ replicate (Z.to_nat (o_n os) - length v) 0).
  { change (tables wc) with (tables w).
    replace (Z.to_nat (o_n os)) with (length v + (Z.to_nat (o_n os) - length v))%nat
      at 1 by lia.
    rewrite table_seq_app, fmap_app, Hv, tonumber_numbers. f_equal.
    rewrite <- list_fmap_compose.
    apply list_eq_same_length with (Z.to_nat (o_n os) - length v)%nat.
    - by rewrite ?length_fmap, ?length_seq, ?length_replicate.
    - by rewrite ?length_fmap, ?length_seq, ?length_replicate.
    - intros i x y Hi Hx Hy.
      apply lookup_replicate in Hy as [-> _].
      rewrite list_lookup_fmap, lookup_seq_lt in Hx by done. cbn in Hx.
      injection Hx as <-. unfold tbl_get. by rewrite Hmiss by lia. }
  rewrite Hx. eexists. split; [reflexivity|]. by repeat split.
Qed.

Lemma set_vec1_run (fld : vec_field) (w : world) (u o : N) (os : nlopt_opt_s) :
  designates 1 (stack w) (VUserdata u) ->
  valid_handle w u o os ->
  isnumber (index2adr 2 (stack w)) = true ->
  (Z.to_nat (o_n os) <= length (vec_get fld os))%nat ->
  let d := tonumber (index2adr 2 (stack w)) in
  let x := replicate (Z.to_nat (o_n os)) d ++ drop (Z.to_nat (o_n os)) (vec_get fld os) in
  set_vec1 (nlopt_set_vec1 fld) w
  = Ret 1 (set_stack (VNumber (cast_num NLOPT_SUCCESS) :: stack w)
             (set_opts (<[o := vec_put fld x os]> (opts w))
                (log (Ev_nlopt "nlopt_set_vec1" [] (Some [d])) w))).
Proof.
  intros D1 Hh Hnum Hlen d x.
  destruct (check_ok _ _ _ _ D1 Hh) as (Hc & Ho & Hos).
  unfold set_vec1, nlopt_set_vec1. cbn -[check holder_obj opt_read].
  rewrite Hc. cbn -[check holder_obj opt_read]. rewrite Hnum, andb_false_r.
  cbn -[check holder_obj opt_read]. rewrite Ho. cbn -[check holder_obj opt_read].
  destruct Hh as (mt & Hu & Hmt & Hoo). cbn. rewrite Hoo. cbn.
  rewrite decide_True by done. by destruct w.
Qed.

(** X5. The [*1] setters store their number in every entry of the
    vector: on an optimiser object of dimension n, [set_lower_bounds1],
    [set_upper_bounds1] and [set_xtol_abs1] with the double [d] return
    the status alone, and the getter called next returns a table of n
    entries, each the same double [d]. *)
Theorem setter1_fills_vector (fld : vec_field) (w : world) (u o : N)
    (os : nlopt_opt_s) (d : lua_Number) :
  valid_handle w u o os -> sized os ->
  exists w1,
    setter1 fld (call [VUserdata u; VNumber d] w) = Ret 1 w1
    /\ stack w1 = [VNumber (cast_num NLOPT_SUCCESS); VNumber d; VUserdata u]
    /\ opts w1 = <[o := vec_put fld (replicate (Z.to_nat (o_n os)) d) os]> (opts w)
    /\ exists w2,
        getter fld (call [VUserdata u] w1) = Ret 2 w2
        /\ returns_vector w1 w2 u (replicate (Z.to_nat (o_n os)) d).
Proof.
  intros Hh [Hn Hlen]. rewrite setter1_eq.
  set (wc := call [VUserdata u; VNumber d] w).
  assert (Hhc : valid_handle wc u o os) by done.
  rewrite (set_vec1_run fld wc u o os (designates_call_1 _ _ _) Hhc);
    [|done|by rewrite Hlen].
  change (tonumber (index2adr 2 (stack wc))) with d.
  rewrite drop_ge, app_nil_r by (by rewrite Hlen).
  set (os1 := vec_put fld (replicate (Z.to_nat (o_n os)) d) os).
  eexists. split; [reflexivity|]. split; [done|]. split; [done|].
  match goal with |- context [call _ ?x] => set (w1 := x) end.
  assert (Hh1 : valid_handle w1 u o os1).
  { destruct Hh as (mt & Hu & Hmt & Hoo). exists mt. split; [done|]. split; [done|].
    apply lookup_insert_eq. }
  assert (Hs1 : sized os1).
  { unfold os1. split; [by rewrite o_n_vec_put|].
    intros fld'. rewrite o_n_vec_put.
    pose proof (Hlen fld') as Hl.
    destruct fld, fld'; cbn in *; rewrite ?length_replicate; done. }
  destruct (getter_run fld w1 u o os1 Hh1 Hs1) as (w2 & R2 & V2).
  exists w2. split; [done|]. unfold os1 in V2. by rewrite vec_get_put in V2.
Qed.

(** ** A new optimiser *)

Lemma create_run (w : world) (mt : N) :
  isnumber (index2adr 1 (stack w)) = true ->
  isnumber (index2adr 2 (stack w)) = true ->
  let algorithm := lua_number2integer (tonumber (index2adr 1 (stack w))) in
  let n := lua_number2integer (tonumber (index2adr 2 (stack w))) in
  0 <= algorithm < NLOPT_NUM_ALGORITHMS -> 0 <= n ->
  malloc_fails w = false ->
  reg_named w !! nlopt_metaName = Some (VTable mt) ->
  let o := fresh (dom (opts w)) in
  let u := fresh (dom (udata w)) in
  let os := Opt algorithm (cast_unsigned n) None None false [] []
                (replicate (Z.to_nat (cast_unsigned n)) neg_HUGE_VAL)
                (replicate (Z.to_nat (cast_unsigned n)) HUGE_VAL)
                (replicate (Z.to_nat (cast_unsigned n)) 0)
                (Some fn_munge_on_destroy) (Some fn_munge_on_copy) in
  create w
  = Ret 1 (set_stack (VUserdata u :: stack w)
             (set_udata (<[u := Holder (Some o) (Some mt)]> (udata w))
                (set_opts (<[o := os]> (opts w))
                   (log (Ev_nlopt "nlopt_create" [algorithm; cast_unsigned n] None) w)))).
Proof.
  intros H1 H2. cbv zeta.
  pose proof (checkinteger_number 1 w H1) as C1.
  pose proof (checkinteger_number 2 w H2) as C2.
  set (algorithm := lua_number2integer (tonumber (index2adr 1 (stack w)))) in *.
  set (n := lua_number2integer (tonumber (index2adr 2 (stack w)))) in *.
  clearbody algorithm n. intros Ha Hn Hoom Hmt.
  assert (Ha1 : (algorithm <? 0) = false) by (apply Z.ltb_ge; lia).
  assert (Ha2 : (NLOPT_NUM_ALGORITHMS <=? algorithm) = false) by (apply Z.leb_gt; lia).
  unfold create. cbn -[luaL_checkinteger]. rewrite C1, Ha1, Ha2.
  cbn -[luaL_checkinteger]. rewrite C2.
  destruct (Z.ltb_spec n 0); [lia|]. cbn. rewrite Hoom. cbn.
  rewrite lookup_insert_eq. cbn.
  rewrite lookup_insert_eq. cbn. rewrite Hmt. run.
  destruct w; cbn. unfold with_munge; cbn.
  rewrite !insert_insert_eq. rewrite alter_insert_eq. by cbn.
Qed.

Lemma get_dimension_run (w : world) (u o : N) (os : nlopt_opt_s) :
  designates 1 (stack w) (VUserdata u) -> valid_handle w u o os ->
  get_dimension w = Ret 1 (set_stack (VNumber (cast_num (o_n os)) :: stack w) w).
Proof.
  intros D1 Hh. destruct (check_ok _ _ _ _ D1 Hh) as (Hc & Ho & Hos).
  unfold get_dimension, nlopt_get_dimension. cbn -[check holder_obj opt_read].
  rewrite Hc. cbn -[check holder_obj opt_read]. rewrite Ho.
  cbn -[check holder_obj opt_read]. rewrite Hos. by destruct w.
Qed.

Lemma get_algorithm_run (w : world) (u o : N) (os : nlopt_opt_s) :
  designates 1 (stack w) (VUserdata u) -> valid_handle w u o os ->
  get_algorithm w = Ret 1 (set_stack (VNumber (cast_num (o_algorithm os)) :: stack w) w).
Proof.
  intros D1 Hh. destruct (check_ok _ _ _ _ D1 Hh) as (Hc & Ho & Hos).
  unfold get_algorithm, nlopt_get_algorithm. cbn -[check holder_obj opt_read].
  rewrite Hc. cbn -[check holder_obj opt_read]. rewrite Ho.
  cbn -[check holder_obj opt_read]. rewrite Hos. by destruct w.
Qed.

(** X6. [create] on an algorithm id in range and a dimension n within
    [int]: the handle it returns is a new userdata on a new optimiser,
    the world stays well-formed, and the accessors called on the handle
    report what was passed: [get_algorithm] the id, [get_dimension] n,
    and the getters the library's initial vectors of n entries, -HUGE_VAL
    for the lower bounds, HUGE_VAL for the upper bounds and 0 for the
    absolute tolerances. The accessors change nothing but the stack. *)
Theorem new_handle_reports_arguments (w : world) (mt : N) :
  isnumber (index2adr 1 (stack w)) = true ->
  isnumber (index2adr 2 (stack w)) = true ->
  let algorithm := lua_number2integer (tonumber (index2adr 1 (stack w))) in
  let n := lua_number2integer (tonumber (index2adr 2 (stack w))) in
  0 <= algorithm < NLOPT_NUM_ALGORITHMS -> 0 <= n <= INT_MAX ->
  malloc_fails w = false ->
  reg_named w !! nlopt_metaName = Some (VTable mt) ->
  exists w1 u o os,
    create w = Ret 1 w1
    /\ stack w1 = VUserdata u :: stack w
    /\ (u ∉ dom (udata w)) /\ (o ∉ dom (opts w))
    /\ valid_handle w1 u o os /\ sized os /\ closures_of os = []
    /\ (closures_wf w -> closures_wf w1)
    /\ get_algorithm (call [VUserdata u] w1)
       = Ret 1 (set_stack [VNumber (cast_num algorithm); VUserdata u] w1)
    /\ get_dimension (call [VUserdata u] w1)
       = Ret 1 (set_stack [VNumber (cast_num n); VUserdata u] w1)
    /\ forall fld, exists w2,
         getter fld (call [VUserdata u] w1) = Ret 2 w2
         /\ returns_vector w1 w2 u
              (replicate (Z.to_nat n)
                 match fld with
                 | F_lb => neg_HUGE_VAL | F_ub => HUGE_VAL | F_xtol_abs => 0
                 end).
Proof.
  intros H1 H2 algorithm n Ha Hn Hoom Hmt.
  pose proof (create_run w mt H1 H2 Ha (proj1 Hn) Hoom Hmt) as Hrun.
  cbv zeta in Hrun. fold algorithm n in Hrun.
  assert (Hcast : cast_unsigned n = n).
  { unfold cast_unsigned. apply Z.mod_small. unfold INT_MAX in Hn. lia. }
  rewrite Hcast in Hrun.
  set (o := fresh (dom (opts w))) in *. set (u := fresh (dom (udata w))) in *.
  set (os := Opt algorithm n None None false [] [] _ _ _ _ _) in *.
  set (w1 := set_stack _ _) in Hrun.
  assert (Hh : valid_handle w1 u o os).
  { exists mt. split; [apply lookup_insert_eq|]. split; [done|apply lookup_insert_eq]. }
  assert (Hs : sized os).
  { split; [done|]. intros []; cbn; by rewrite length_replicate. }
  exists w1, u, o, os. split; [done|]. split; [done|].
  split; [apply is_fresh|]. split; [apply is_fresh|].
  split; [done|]. split; [done|]. split; [done|]. split; [|split; [|split]].
  - intros Hwf. by apply (new_optimiser_keeps_wf w w1 o os).
  - by rewrite (get_algorithm_run _ u o os (designates_call_1 _ _ _)).
  - by rewrite (get_dimension_run _ u o os (designates_call_1 _ _ _)).
  - intros fld. destruct (getter_run fld w1 u o os Hh Hs) as (w2 & R2 & V2).
    exists w2. split; [done|]. by destruct fld.
Qed.

(** ** The trampolines on a callable that returns *)

Lemma load_loop_ok idx (key : Z -> Z) r w count :
  idx <> LUA_REGISTRYINDEX ->
  index2adr idx (stack w) = Some (VTable r) ->
  forall from b,
    0 <= from -> (Z.to_nat from + count <= length b)%nat ->
    for_loop count from (fun i b =>
        lua_rawgeti idx (key i);;
        v ← lua_tonumber (-1);
        b' ← buf_write b i v;
        lua_pop 1;;
        mret b') b w
    = Ret (read_seq key (tables w !!! r) count from b) w.
Proof.
  intros Hreg Hidx. apply Z.eqb_neq in Hreg.
  set (body := fun i (b : list lua_Number) => _).
  induction count as [|c IH]; intros from b Hfrom Hlen; [done|].
  rewrite for_loop_step.
  assert (Hb : body from b w
               = Ret (<[Z.to_nat from :=
                         tonumber (Some (tbl_get (VNumber (cast_num (key from)))
                                                 (tables w !!! r)))]> b) w).
  { unfold body. destruct w as [S T F RR RN U C O MF TR]; cbn in *.
    rewrite Hreg. cbn. rewrite Hidx. cbn.
    rewrite decide_True by lia. by cbn. }
  rewrite Hb. cbn [read_seq]. apply IH; [lia|].
  rewrite length_insert. lia.
Qed.

Lemma load_array_ok idx n b r w :
  idx <> LUA_REGISTRYINDEX ->
  index2adr idx (stack w) = Some (VTable r) ->
  (Z.to_nat n <= length b)%nat ->
  load_array idx n b w
  = Ret (read_seq (fun i => cast_int (i + 1)) (tables w !!! r) (Z.to_nat n) 0 b) w.
Proof. intros. by apply load_loop_ok. Qed.

(** Reading n entries into a buffer of n entries replaces them all. *)
Lemma read_seq_full (key : Z -> Z) tb (b : list lua_Number) :
  (forall i, 0 <= i < Z.of_nat (length b) -> key i = i + 1) ->
  read_seq key tb (length b) 0 b = (fun v => tonumber (Some v)) <$> table_seq tb (length b).
Proof.
  intros Hkey. apply list_eq. intros j.
  rewrite read_seq_lookup by (cbn; lia). unfold table_seq.
  rewrite !list_lookup_fmap. cbn.
  destruct (decide (j < length b)%nat) as [Hj|Hj].
  - rewrite decide_True by lia. rewrite lookup_seq_lt by done. cbn.
    by rewrite Hkey by lia.
  - rewrite decide_False by lia. rewrite lookup_seq_ge by lia.
    by rewrite lookup_ge_None_2 by lia.
Qed.

(** Reading n entries into a longer buffer leaves the rest as it was. *)
Lemma read_seq_prefix (key : Z -> Z) tb (n : nat) (b : list lua_Number) :
  (n <= length b)%nat ->
  (forall i, 0 <= i < Z.of_nat n -> key i = i + 1) ->
  read_seq key tb n 0 b
  = ((fun v => tonumber (Some v)) <$> table_seq tb n) ++ drop n b.
Proof.
  intros Hn Hkey. apply list_eq. intros j.
  rewrite read_seq_lookup by (cbn; lia). unfold table_seq.
  destruct (decide (j < n)%nat) as [Hj|Hj].
  - rewrite decide_True by lia.
    rewrite lookup_app_l by (rewrite !length_fmap, length_seq; lia).
    rewrite !list_lookup_fmap, lookup_seq_lt by done. cbn.
    by rewrite Hkey by lia.
  - rewrite decide_False by lia.
    rewrite lookup_app_r by (rewrite !length_fmap, length_seq; lia).
    rewrite !length_fmap, length_seq, lookup_drop. f_equal. lia.
Qed.

Lemma scratch_table_slot t name rt w :
  designates t (stack w) (VTable rt) ->
  exists r hp,
    scratch_table t name w = Ret tt (set_stack (VTable r :: stack w) (set_tables hp w))
    /\ tbl_get (VString name) (hp !!! rt) = VTable r
    /\ forall s, s <> name ->
         tbl_get (VString s) (hp !!! rt) = tbl_get (VString s) (tables w !!! rt).
Proof.
  intros Ht. destruct w as [S T F RR RN U C O MF TR]. cbn in Ht.
  unfold scratch_table. run. rewrite (designates_1 _ _ _ _ Ht). run.
  assert (Hnew : forall s, s <> name ->
            tbl_get (VString s)
              (heap_set rt (VString name) (VTable (fresh (dom T)))
                 (<[fresh (dom T) := ∅]> T) !!! rt)
            = tbl_get (VString s) (T !!! rt)).
  { intros s Hs. rewrite tbl_get_heap_set_other by congruence.
    destruct (decide (fresh (dom T) = rt)) as [<-|Hne].
    - rewrite lookup_total_insert_eq.
      assert (T !! fresh (dom T) = None) as Hn by apply not_elem_of_dom, is_fresh.
      unfold lookup_total, map_lookup_total. by rewrite Hn.
    - by rewrite lookup_total_insert_ne. }
  destruct (tbl_get (VString name) (T !!! rt)) as [| | | |r1| |] eqn:Hg; run;
    rewrite ?(designates_3 _ _ _ _ _ _ Ht); run;
    (eexists _, _; split; [reflexivity|]);
    (split; [first [exact Hg | apply tbl_get_heap_set_same]|]);
    first [done | exact Hnew].
Qed.

Lemma store_seq_keeps_string r r' key b count from hp (s : string) :
  tbl_get (VString s) (store_seq r key b count from hp !!! r')
  = tbl_get (VString s) (hp !!! r').
Proof.
  unfold tbl_get. destruct (decide (r = r')) as [<-|Hne].
  - by rewrite store_seq_lookup_out.
  - by rewrite store_seq_other_table.
Qed.

Ltac scratch_slot rt H :=
  match goal with
  | |- context [scratch_table ?t ?nm ?w] =>
      let r := fresh "r" in
      let hp := fresh "hp" in
      destruct (scratch_table_slot t nm rt w) as (r & hp & -> & H & _); [desig|]
  end.

Lemma func_grad_cps w n x g p r t fid
    (P : outcome (lua_Number * option (list lua_Number)) -> Prop) :
  ctxs w !! p = Some (Ctx (Zpos r)) ->
  reg_refs w !! r = Some (VTable t) ->
  tbl_get (VString "f") (tables w !!! t) = VFunction fid ->
  0 <= n <= INT_MAX ->
  length x = Z.to_nat n -> length g = Z.to_nat n ->
  (forall out xt gt hp,
      let args := [VNumber (cast_num n); VTable xt; VTable gt;
                   tbl_get (VString "f_data") (hp !!! t)] in
      table_seq (hp !!! gt) (Z.to_nat n) = VNumber <$> g ->
      tbl_get (VString "grad") (hp !!! t) = VTable gt ->
      (forall vs hp' gt',
         funs w fid args hp = (Returns vs, hp') ->
         tbl_get (VString "grad") (hp' !!! t) = VTable gt' ->
         out = Ret (tonumber (head vs),
                    Some ((fun v => tonumber (Some v)) <$>
                          table_seq (hp' !!! gt') (Z.to_nat n)))
                   (log (Ev_pcall (VFunction fid) args hp 0) (set_tables hp' w))) ->
      P out) ->
  P (func n x (Some g) (Some p) w).
Proof.
  destruct w as [S T F RR RN U C O MF TR]. cbn.
  intros Hctx Hreg Hf Hn Hx Hg HP.
  unfold func. run. rewrite Hctx. run. unfold registry_get. cbn. rewrite Hreg. run.
  rewrite Hf. run.
  scratch_ok t. run. store_ok r0; [|lia]. run.
  scratch_slot t Hslot. run. store_ok r1; [|lia]. run.
  eapply HP; cycle 2.
  - intros vs hp' gt' Hcall Hgt'. cbn in Hcall. rewrite Hcall.
    destruct vs as [|v1 vs]; run; rewrite Hgt'; run.
    all: rewrite (load_array_ok _ n g gt'); [|done|by idx|lia]; run.
    all: rewrite <- Hg.
    all: rewrite read_seq_full;
      [|intros i Hi; apply cast_int_small; unfold INT_MAX in *; lia].
    all: done.
  - rewrite <- Hg.
    apply (store_seq_table_seq r1 (fun i => cast_int (i + 1)) g (length g)).
    + intros i Hi. apply cast_int_small. unfold INT_MAX in *. lia.
    + unfold INT_MAX in *. lia.
    + done.
  - by rewrite store_seq_keeps_string.
Qed.

(** X7. [func] on a registered closure with a gradient buffer of n
    entries: the callable is called with n, the x table, the gradient
    table, which holds the buffer as entries 1..n and sits in the "grad"
    slot of the closure record, and the user data. When the callable
    returns, [func] returns its first result read with [lua_tonumber] (0
    for no result or one that is no number), copies all n entries of the
    table then in the "grad" slot back into the buffer, and leaves the
    stack as it found it. *)
Theorem func_returns_value_and_gradient (w : world) (n : Z) (x g : list lua_Number)
    (p t fid : N) :
  closure_record w p = Some t ->
  closure_field w t "f" = VFunction fid ->
  0 <= n <= INT_MAX ->
  length x = Z.to_nat n -> length g = Z.to_nat n ->
  exists xt gt hp,
    let args := [VNumber (cast_num n); VTable xt; VTable gt;
                 tbl_get (VString "f_data") (hp !!! t)] in
    table_seq (hp !!! gt) (Z.to_nat n) = VNumber <$> g
    /\ tbl_get (VString "grad") (hp !!! t) = VTable gt
    /\ forall vs hp' gt',
         funs w fid args hp = (Returns vs, hp') ->
         tbl_get (VString "grad") (hp' !!! t) = VTable gt' ->
         func n x (Some g) (Some p) w
         = Ret (tonumber (head vs),
                Some ((fun v => tonumber (Some v)) <$>
                      table_seq (hp' !!! gt') (Z.to_nat n)))
               (log (Ev_pcall (VFunction fid) args hp 0) (set_tables hp' w)).
Proof.
  intros Hrec Hf Hn Hx Hg.
  destruct (closure_record_inv _ _ _ Hrec) as (r & Hctx & Hreg).
  apply (func_grad_cps w n x g p r t fid); try done.
  intros out xt gt hp args Hseq Hslot Hret.
  by exists xt, gt, hp.
Qed.

Ltac scratch_slots rt H H' :=
  match goal with
  | |- context [scratch_table ?t ?nm ?w] =>
      let r := fresh "r" in
      let hp := fresh "hp" in
      destruct (scratch_table_slot t nm rt w) as (r & hp & -> & H & H'); [desig|]
  end.

Lemma mfunc_returns_cps w m result n x grad p r t fid
    (P : outcome (list lua_Number * option (list lua_Number)) -> Prop) :
  ctxs w !! p = Some (Ctx (Zpos r)) ->
  reg_refs w !! r = Some (VTable t) ->
  tbl_get (VString "f") (tables w !!! t) = VFunction fid ->
  0 <= m <= INT_MAX -> 0 <= n <= INT_MAX ->
  length result = Z.to_nat m ->
  (Z.to_nat n <= length x)%nat ->
  (forall g, grad = Some g ->
     (Z.to_nat (cast_unsigned (n * m)) <= length g)%nat /\ (Z.to_nat n <= length g)%nat) ->
  (forall out rt xt garg hp,
      let args := [VNumber (cast_num m); VTable rt; VNumber (cast_num n); VTable xt;
                   garg; tbl_get (VString "f_data") (hp !!! t)] in
      tbl_get (VString "result") (hp !!! t) = VTable rt ->
      (forall vs hp' rt' gt',
         funs w fid args hp = (Returns vs, hp') ->
         tbl_get (VString "result") (hp' !!! t) = VTable rt' ->
         (is_Some grad -> tbl_get (VString "grad") (hp' !!! t) = VTable gt') ->
         out = Ret ((fun v => tonumber (Some v)) <$> table_seq (hp' !!! rt') (Z.to_nat m),
                    (fun g => ((fun v => tonumber (Some v)) <$>
                                 table_seq (hp' !!! gt') (Z.to_nat n))
                              ++ drop (Z.to_nat n) g) <$> grad)
                   (set_stack (VTable t :: stack w)
                      (log (Ev_pcall (VFunction fid) args hp 0) (set_tables hp' w)))) ->
      P out) ->
  P (mfunc m result n x grad (Some p) w).
Proof.
  destruct w as [S T F RR RN U C O MF TR]. cbn.
  intros Hctx Hreg Hf Hm Hn Hres Hx Hg HP.
  assert (Hkey : forall k i, 0 <= k <= INT_MAX -> 0 <= i < Z.of_nat (Z.to_nat k) ->
                   cast_int (i + 1) = i + 1).
  { intros k i Hk Hi. apply cast_int_small. unfold INT_MAX in *. lia. }
  assert (Hrs : forall tb, read_seq (fun i => cast_int (i + 1)) tb (Z.to_nat m) 0 result
                  = (fun v => tonumber (Some v)) <$> table_seq tb (Z.to_nat m)).
  { intros tb. rewrite <- Hres. apply read_seq_full. rewrite Hres.
    intros i Hi. by apply (Hkey m). }
  unfold mfunc. run. rewrite Hctx. run. unfold registry_get. cbn. rewrite Hreg. run.
  rewrite Hf. run.
  scratch_slots t R1 R1'. run. store_ok r0; [|lia]. run.
  scratch_slots t X1 X1'. run. store_ok r1; [|done]. run.
  assert (Hrt : tbl_get (VString "result")
                  (store_seq r1 (fun i => cast_int (i + 1)) x (Z.to_nat n) 0 hp0 !!! t)
                = VTable r0).
  { rewrite store_seq_keeps_string, X1' by done. cbn [tables].
    by rewrite store_seq_keeps_string. }
  destruct grad as [g|].
  - destruct (Hg g eq_refl) as [Hg1 Hg2].
    run. scratch_slots t G1 G1'. run. store_ok r2; [|done]. run.
    eapply HP; cycle 1.
    + intros vs hp' rt' gt' Hcall Hrt' Hgt'. cbn in Hcall. rewrite Hcall.
      specialize (Hgt' ltac:(by eexists)).
      run. rewrite Hrt'. run.
      rewrite (load_array_ok _ m result rt'); [|done|by idx|lia]. run.
      rewrite Hgt'. run.
      rewrite (load_array_ok _ n g gt'); [|done|by idx|lia]. run.
      rewrite Hrs, read_seq_prefix by (try done; intros i Hi; by apply (Hkey n)).
      reflexivity.
    + rewrite store_seq_keeps_string, G1' by done. exact Hrt.
  - run.
    eapply HP; cycle 1.
    + intros vs hp' rt' gt' Hcall Hrt' _. cbn in Hcall. rewrite Hcall.
      run. rewrite Hrt'. run.
      rewrite (load_array_ok _ m result rt'); [|done|by idx|lia]. run.
      rewrite Hrs. reflexivity.
    + rewrite tbl_get_heap_set_other by done. exact Hrt.
Qed.

(** X8. A registered vector-constraint closure whose host callable raises
    during the invocation: [mfunc] returns normally with the result and
    gradient buffers as it was given them, the stack as it found it, and
    only the tables (as the callable left them) and the trace changed.
    [args] and [hp] are the arguments and the heap of the one protected
    call of the invocation, as the second part pins down. *)
Theorem mfunc_contains_callback_error (w : world) (m n : Z)
    (result x : list lua_Number) (grad : option (list lua_Number)) (p t fid : N) :
  closure_record w p = Some t ->
  closure_field w t "f" = VFunction fid ->
  length result = Z.to_nat m ->
  length x = Z.to_nat n ->
  (forall g, grad = Some g -> length g = Z.to_nat (cast_unsigned (n * m))) ->
  exists args hp,
    (forall e hp', funs w fid args hp = (Raises e, hp') ->
       mfunc m result n x grad (Some p) w
       = Ret (result, grad)
             (log (Ev_pcall (VFunction fid) args hp LUA_ERRRUN) (set_tables hp' w)))
    /\ (forall vs hp', funs w fid args hp = (Returns vs, hp') ->
        forall a w', mfunc m result n x grad (Some p) w = Ret a w' ->
          trace w' = trace w ++ [Ev_pcall (VFunction fid) args hp 0]).
Proof.
  intros Hrec Hf Hres Hx Hg.
  destruct (closure_record_inv _ _ _ Hrec) as (r & Hctx & Hreg).
  apply (mfunc_call_site_cps w m result n x grad p r t fid); try done; try lia.
  { intros g Hgr. rewrite (Hg g Hgr). lia. }
  intros out rt xt garg hp _ _ args Hraise Hret.
  exists args, hp. split; [done|].
  intros vs hp' Hcall a w' Hout.
  destruct (Hret vs hp' Hcall) as [Hu|(res & g' & Hr & _)]; [congruence|].
  rewrite Hr in Hout. injection Hout as _ <-. by destruct w.
Qed.

(** X9. [mfunc] on a registered vector-constraint closure with m >= 1
    results over n parameters: the callable is called with m, the table
    in the "result" slot of the closure record, n, the x table, the
    gradient argument and the user data. When the callable returns, all m
    entries of the table then in the "result" slot are read back with
    [lua_tonumber]; of a gradient buffer the first n entries are replaced
    by entries 1..n of the table then in the "grad" slot and the
    remaining ones stay as they were; and the stack is one slot deeper
    than before, with the closure record left on top. *)
Theorem mfunc_returns_results_on_deeper_stack (w : world) (m n : Z)
    (result x : list lua_Number) (grad : option (list lua_Number)) (p t fid : N) :
  closure_record w p = Some t ->
  closure_field w t "f" = VFunction fid ->
  1 <= m <= INT_MAX -> 0 <= n <= INT_MAX -> n * m < 2 ^ 32 ->
  length result = Z.to_nat m ->
  length x = Z.to_nat n ->
  (forall g, grad = Some g -> length g = Z.to_nat (n * m)) ->
  exists rt xt garg hp,
    let args := [VNumber (cast_num m); VTable rt; VNumber (cast_num n); VTable xt;
                 garg; tbl_get (VString "f_data") (hp !!! t)] in
    tbl_get (VString "result") (hp !!! t) = VTable rt
    /\ forall vs hp' rt' gt',
         funs w fid args hp = (Returns vs, hp') ->
         tbl_get (VString "result") (hp' !!! t) = VTable rt' ->
         (is_Some grad -> tbl_get (VString "grad") (hp' !!! t) = VTable gt') ->
         mfunc m result n x grad (Some p) w
         = Ret ((fun v => tonumber (Some v)) <$> table_seq (hp' !!! rt') (Z.to_nat m),
                (fun g => ((fun v => tonumber (Some v)) <$>
                             table_seq (hp' !!! gt') (Z.to_nat n))
                          ++ drop (Z.to_nat n) g) <$> grad)
               (set_stack (VTable t :: stack w)
                  (log (Ev_pcall (VFunction fid) args hp 0) (set_tables hp' w))).
Proof.
  intros Hrec Hf Hm Hn Hnm Hres Hx Hg.
  destruct (closure_record_inv _ _ _ Hrec) as (r & Hctx & Hreg).
  apply (mfunc_returns_cps w m result n x grad p r t fid); try done; try lia.
  { intros g Hgr. rewrite (Hg g Hgr). unfold cast_unsigned.
    rewrite Z.mod_small by nia. split; [lia|nia]. }
  intros out rt xt garg hp args Hslot Hret.
  by exists rt, xt, garg, hp.
Qed.

(** ** Copies *)

(** X13. [copy] on a valid handle when the library cannot allocate:
    the error "nlopt_copy out of memory" is raised; no closure record is
    copied, no userdata and no optimiser is made, and the stack is the
    one of the call. *)
Theorem copy_out_of_memory (w : world) (u o : N) (os : nlopt_opt_s) :
  valid_handle w u o os -> malloc_fails w = true ->
  copy (call [VUserdata u] w)
  = Throw (RuntimeError "nlopt_copy out of memory")
          (log (Ev_nlopt "nlopt_copy" [] None) (call [VUserdata u] w)).
Proof.
  intros Hv Hmf.
  set (wc := call [VUserdata u] w).
  assert (Hvc : valid_handle wc u o os) by done.
  destruct (check_ok wc u o os (designates_call_1 _ _ _) Hvc) as (Hck & Hob & _).
  destruct Hv as (mt & Hu & Hmt & Ho).
  unfold copy. cbn -[check holder_obj].
  rewrite Hck. cbn -[check holder_obj].
  rewrite Hob. cbn -[check holder_obj].
  unfold nlopt_copy. cbn. by rewrite Ho, Hmf.
Qed.

(** X14. A copy has the algorithm, the dimension and the three vectors
    of its source, in an optimiser of its own: filling a vector of the
    copy with [set_*1] changes what the getter of the copy returns and
    leaves the source, and what its getter returns, as they were. *)
Theorem copy_has_own_vectors (fld : vec_field) (w : world) (u o : N)
    (os : nlopt_opt_s) (d : lua_Number) :
  closures_wf w -> valid_handle w u o os -> sized os -> malloc_fails w = false ->
  exists w1 u' o' os',
    copy (call [VUserdata u] w) = Ret 1 w1
    /\ u' <> u /\ o' <> o
    /\ valid_handle w1 u' o' os' /\ valid_handle w1 u o os
    /\ o_algorithm os' = o_algorithm os /\ o_n os' = o_n os
    /\ (forall fld', vec_get fld' os' = vec_get fld' os)
    /\ exists w2,
         setter1 fld (call [VUserdata u'; VNumber d] w1) = Ret 1 w2
         /\ opts w2 !! o = Some os
         /\ (exists w3,
               getter fld (call [VUserdata u'] w2) = Ret 2 w3
               /\ returns_vector w2 w3 u' (replicate (Z.to_nat (o_n os)) d))
         /\ (exists w3,
               getter fld (call [VUserdata u] w2) = Ret 2 w3
               /\ returns_vector w2 w3 u (vec_get fld os)).
Proof.
  intros [Hwf Hh] Hv [Hn Hlen] Hmf.
  pose proof Hv as (mt & Hu & Hmt & Ho).
  pose proof Hh as (H1 & H2).
  destruct (H1 o os Ho) as (Hnd & Hd & Hc & Hal).
  destruct (copy_run w u o mt os Hwf Hu Hmt Ho Hc Hal Hmf)
    as (os' & w' & R & O & W & E & S2 & S3 & S5 & S6 & SS & F & N).
  set (u' := fresh (dom (udata w))) in *. set (o' := fresh (dom (opts w))) in *.
  set (w1 := set_stack [VUserdata u'; VUserdata u]
               (set_udata (<[u' := Holder (Some o') (Some mt)]> (udata w)) w')) in *.
  assert (Hne_u : u' <> u).
  { intros E'. apply (is_fresh (dom (udata w))). fold u'. rewrite E'.
    by apply elem_of_dom. }
  assert (Hne_o : o' <> o).
  { intros E'. apply (is_fresh (dom (opts w))). fold o'. rewrite E'.
    by apply elem_of_dom. }
  assert (O1 : opts w1 = <[o' := os']> (opts w)) by exact O.
  assert (Hv1 : valid_handle w1 u o os).
  { exists mt. split; [|split].
    - change (udata w1) with (<[u' := Holder (Some o') (Some mt)]> (udata w)).
      by rewrite lookup_insert_ne.
    - change (reg_named w1) with (reg_named w'). by rewrite S3.
    - rewrite O1. by rewrite lookup_insert_ne. }
  assert (Hv1' : valid_handle w1 u' o' os').
  { exists mt. split; [|split].
    - change (udata w1) with (<[u' := Holder (Some o') (Some mt)]> (udata w)).
      by rewrite lookup_insert_eq.
    - change (reg_named w1) with (reg_named w'). by rewrite S3.
    - rewrite O1. by rewrite lookup_insert_eq. }
  destruct SS as (Eos & _).
  assert (Ealg : o_algorithm os' = o_algorithm os) by (by rewrite Eos).
  assert (En : o_n os' = o_n os) by (by rewrite Eos).
  assert (Evec : forall fld', vec_get fld' os' = vec_get fld' os).
  { intros fld'. rewrite Eos. by destruct fld'. }
  exists w1, u', o', os'. split; [exact R|]. do 7 (split; [done|]).
  rewrite setter1_eq.
  set (wc := call [VUserdata u'; VNumber d] w1).
  assert (Hhc : valid_handle wc u' o' os') by exact Hv1'.
  rewrite (set_vec1_run fld wc u' o' os' (designates_call_1 _ _ _) Hhc);
    [|done|by rewrite Evec, En, Hlen].
  change (tonumber (index2adr 2 (stack wc))) with d.
  rewrite drop_ge, app_nil_r by (by rewrite Evec, En, Hlen).
  set (os1 := vec_put fld (replicate (Z.to_nat (o_n os')) d) os').
  eexists. split; [reflexivity|].
  match goal with |- context [call _ ?x] => set (w2 := x) end.
  assert (O2 : opts w2 = <[o' := os1]> (opts w1)) by done.
  assert (Hh2 : valid_handle w2 u o os).
  { destruct Hv1 as (mt1 & A1 & A2 & A3). exists mt1. split; [exact A1|].
    split; [exact A2|]. rewrite O2. by rewrite lookup_insert_ne. }
  assert (Hh2' : valid_handle w2 u' o' os1).
  { destruct Hv1' as (mt1 & A1 & A2 & A3). exists mt1. split; [exact A1|].
    split; [exact A2|]. rewrite O2. apply lookup_insert_eq. }
  assert (Hs1 : sized os1).
  { unfold os1. split; [by rewrite o_n_vec_put, En|].
    intros fld'. rewrite o_n_vec_put.
    pose proof (Hlen fld') as Hl. rewrite <- (Evec fld'), <- En in Hl.
    destruct fld, fld'; cbn in *; rewrite ?length_replicate; done. }
  split; [by destruct Hh2 as (? & _ & _ & ?)|]. split.
  - destruct (getter_run fld w2 u' o' os1 Hh2' Hs1) as (w3 & R3 & V3).
    exists w3. split; [done|]. unfold os1 in V3.
    by rewrite vec_get_put, En in V3.
  - by apply (getter_run fld w2 u o os).
Qed.

(** ** Trampolines without a callable *)

(** X15. A trampoline invoked with a NULL context, or with a closure
    record whose "f" entry is not a function, calls nothing: [func]
    returns 0 and [mfunc] the result buffer as it was, the gradient
    buffer is as it was, and the world (stack, tables, trace) is
    unchanged. *)
Theorem trampolines_skip_missing_callable (w : world) (m n : Z)
    (result x : list lua_Number) (grad : option (list lua_Number)) (p t : N) :
  closure_record w p = Some t ->
  type_of (Some (closure_field w t "f")) <> LUA_TFUNCTION ->
  func n x grad (Some p) w = Ret (0, grad) w
  /\ mfunc m result n x grad (Some p) w = Ret (result, grad) w
  /\ func n x grad None w = Ret (0, grad) w
  /\ mfunc m result n x grad None w = Ret (result, grad) w.
Proof.
  intros Hrec Hf.
  destruct (closure_record_inv _ _ _ Hrec) as (r & Hctx & Hreg).
  unfold closure_field in Hf. apply Z.eqb_neq in Hf.
  destruct w as [S T F RR RN U C O MF TR]. cbn in Hctx, Hreg, Hf.
  split; [|split; [|done]].
  - unfold func. run. rewrite Hctx. run. unfold registry_get. cbn. rewrite Hreg. run.
    by rewrite Hf.
  - unfold mfunc. run. rewrite Hctx. run. unfold registry_get. cbn. rewrite Hreg. run.
    by rewrite Hf.
Qed.

(** ** A vector constraint with a tolerance that is no table *)

Lemma index2adr_call_push (k : nat) (a : value) (args : list value) :
  index2adr (Z.of_nat (S k)) (a :: reverse args) = (args ++ [a]) !! k.
Proof. rewrite <- (index2adr_call k (args ++ [a])). by rewrite reverse_app. Qed.

Lemma user_data_slot4 (a1 a2 a3 : value) (rest : list value) (top t' : value) :
  default VNil (index2adr 4 (top :: t' :: reverse (a1 :: a2 :: a3 :: rest)))
  = default t' (head rest).
Proof.
  destruct rest as [|a4 rest]; [done|].
  pose proof (designates_positive 3 (reverse (a1 :: a2 :: a3 :: a4 :: rest)) a4
                (f_equal (.!! 3%nat) (reverse_involutive _))) as H.
  change (Z.of_nat 4) with 4 in H. by rewrite (designates_2 _ _ _ _ _ H).
Qed.

Lemma luaV_gettable_no_index (loop : nat) (t key : value) (w : world) :
  (forall r, t <> VTable r) ->
  metamethod "__index" w t = VNil ->
  luaV_gettable (S loop) t key w
  = Throw (RuntimeError "attempt to index a non-table value") w.
Proof.
  intros Ht Hm. unfold luaV_gettable. cbn -[metamethod].
  destruct t as [| | | |r| |]; try (by rewrite Hm). by destruct (Ht r).
Qed.

Lemma read_vector_no_index (idx n : Z) (v : list lua_Number) (w : world) :
  1 <= n ->
  let t := default VNil (index2adr idx (VNumber (cast_num 1) :: stack w)) in
  (forall r, t <> VTable r) ->
  metamethod "__index" w t = VNil ->
  read_vector idx n v w
  = Throw (RuntimeError "attempt to index a non-table value")
          (set_stack (VNumber (cast_num 1) :: stack w) w).
Proof.
  intros Hn t Ht Hm. unfold read_vector, for_upto.
  destruct (Z.to_nat n) as [|c] eqn:Hc; [lia|].
  rewrite for_loop_step. destruct w as [S T F RR RN U C O MF TR].
  cbn -[metamethod] in *. change (0 + 1) with 1. change MAXTAGLOOP with (Datatypes.S 99).
  subst t.
  destruct (index2adr idx (VNumber (cast_num 1) :: S)) as [t|]; cbn [default] in *.
  - destruct t as [| | | |r| |];
      try (unfold M_bind; rewrite luaV_gettable_no_index; done).
    by destruct (Ht r).
  - unfold M_bind. by rewrite luaV_gettable_no_index.
Qed.

Lemma add_mconstraint_bad_steps (equality : bool) (wc wr : world) (u o fid p' : N)
    (hd : nlopt_opt_holder) (d : lua_Number) (out : outcome Z) :
  check 1 wc = Ret u wc ->
  index2adr 2 (stack wc) = Some (VNumber d) ->
  index2adr 3 (stack wc) = Some (VFunction fid) ->
  type_of (index2adr 5 (stack wc)) <> LUA_TNIL ->
  type_of (index2adr 5 (stack wc)) <> LUA_TTABLE ->
  register_callback 3 4 wc = Ret p' wr ->
  stack wr = stack wc ->
  udata wr !! u = Some hd ->
  0 <= cast_int (lua_number2integer d) ->
  (forall v e w', read_vector 5 (cast_int (lua_number2integer d)) v wr = Throw e w' ->
     out = Throw e w') ->
  (forall v, exists e w', read_vector 5 (cast_int (lua_number2integer d)) v wr = Throw e w') ->
  (if equality then add_equality_mconstraint else add_inequality_mconstraint) wc = out.
Proof.
  intros Hck H2 H3 H5n H5t Hreg Hs Hu Hm Hout Hthrow.
  apply Z.eqb_neq in H5n, H5t. apply Z.ltb_ge in Hm.
  destruct (Hthrow (replicate (Z.to_nat (cast_int (lua_number2integer d))) 0))
    as (e & w' & Hrd).
  rewrite (Hout _ _ _ Hrd).
  destruct equality;
    [unfold add_equality_mconstraint, nlopt_add_equality_mconstraint
    |unfold add_inequality_mconstraint, nlopt_add_inequality_mconstraint];
    unfold add_mconstraint;
    cbn -[check]; rewrite Hck; cbn -[check]; rewrite H2; cbn -[check];
    change (isnumber (Some (VNumber d))) with true; cbn -[check];
    rewrite andb_false_r; cbn -[check]; rewrite H3; cbn -[check];
    rewrite H5n, H5t; cbn -[check];
    rewrite Hreg; cbn -[check]; rewrite Hu; cbn -[check]; rewrite Hs, H5n; cbn -[check];
    rewrite Hm; cbn -[check]; rewrite Hrd; reflexivity.
Qed.

(** X16. [add_inequality_mconstraint] and [add_equality_mconstraint] on a
    valid handle with a count of at least 1, a callable and a tolerance
    argument that is neither nil nor a table and cannot be indexed: what
    index 5 designates when the first key has been pushed (the fifth
    argument, or the key itself in a call with four arguments, or
    nothing) has no [__index] metamethod, as a number, a boolean or a
    function in a fresh Lua state, but not a string where the string
    library is open, nor an optimiser object.  The closure record is
    registered first, then reading the tolerance raises.  The library is
    not asked, the optimiser is as before, and the new record stays
    registered in the registry although no optimiser holds it. *)
Theorem add_mconstraint_bad_tolerance_leaks (equality : bool) (w : world)
    (u o fid : N) (os : nlopt_opt_s) (d : lua_Number) (rest : list value) :
  closures_wf w -> valid_handle w u o os ->
  1 <= cast_int (lua_number2integer d) ->
  type_of (rest !! 1%nat) <> LUA_TNIL -> type_of (rest !! 1%nat) <> LUA_TTABLE ->
  let args := VUserdata u :: VNumber d :: VFunction fid :: rest in
  let p' := fresh (dom (ctxs w)) in
  let vd := default (VTable (fresh (dom (tables w)))) (head rest) in
  let wr := registered (VFunction fid) vd (call args w) in
  let slot5 := default VNil (index2adr 5 (VNumber (cast_num 1) :: reverse args)) in
  metamethod "__index" wr slot5 = VNil ->
  (if equality then add_equality_mconstraint else add_inequality_mconstraint) (call args w)
  = Throw (RuntimeError "attempt to index a non-table value")
          (set_stack (VNumber (cast_num 1) :: reverse args) wr)
  /\ opts wr = opts w /\ trace wr = trace w
  /\ (p' ∉ dom (ctxs w))
  /\ closure_view wr p' = Some (VFunction fid, vd)
  /\ (forall o2 os2, opts wr !! o2 = Some os2 -> p' ∉ closures_of os2).
Proof.
  intros Hcw Hv Hm Hnil Htab args p' vd wr slot5 Hmeta.
  pose proof Hv as (mt & Hu & Hmt & Ho).
  set (wc := call args w).
  assert (Hvc : valid_handle wc u o os) by done.
  destruct (check_ok wc u o os (designates_call_1 _ _ _) Hvc) as (Hck & _ & _).
  assert (Hidx : forall k : nat, index2adr (Z.of_nat (S k)) (stack wc) = args !! k).
  { intros k. exact (index2adr_call k args). }
  pose proof (register_callback_run 3 4 wc) as Hreg. cbv zeta in Hreg.
  pose proof (designates_positive 2 (reverse args) (VFunction fid)
                (f_equal (.!! 2%nat) (reverse_involutive _))) as H3.
  change (stack wc) with (reverse args) in Hreg.
  change (Z.of_nat 3) with 3 in H3.
  rewrite (designates_2 _ _ _ _ _ H3) in Hreg.
  unfold args in Hreg. rewrite user_data_slot4 in Hreg. cbn [default] in Hreg.
  change (fresh (dom (tables wc))) with (fresh (dom (tables w))) in Hreg.
  fold vd args in Hreg.
  destruct (registered_unheld (VFunction fid) vd wc Hcw) as (_ & _ & Hun).
  destruct (registered_spec (VFunction fid) vd wc (proj1 Hcw)) as (_ & _ & _ & Hfresh & _).
  split; [|split; [done|split; [done|split; [exact Hfresh|split; [|exact Hun]]]]].
  2: exact (registered_view (VFunction fid) vd wc).
  assert (Hrd : forall v,
            read_vector 5 (cast_int (lua_number2integer d)) v wr
            = Throw (RuntimeError "attempt to index a non-table value")
                    (set_stack (VNumber (cast_num 1) :: reverse args) wr)).
  { intros v. apply (read_vector_no_index 5 _ v wr Hm); [|exact Hmeta].
    change (stack wr) with (reverse args).
    change 5 with (Z.of_nat 5). rewrite index2adr_call_push.
    change ((args ++ [VNumber (cast_num 1)]) !! 4%nat)
      with ((rest ++ [VNumber (cast_num 1)]) !! 1%nat).
    intros r. destruct rest as [|a4 [|a5 rest]]; try done.
    cbn in *. by intros ->. }
  apply (add_mconstraint_bad_steps equality wc wr u o fid p'
           (Holder (Some o) (Some mt)) d); try done.
  - exact (Hidx 1%nat).
  - exact (Hidx 2%nat).
  - change 5 with (Z.of_nat 5). by rewrite (Hidx 4%nat).
  - change 5 with (Z.of_nat 5). by rewrite (Hidx 4%nat).
  - lia.
  - intros v e w' Hr. rewrite Hrd in Hr. by injection Hr as <- <-.
  - intros v. eexists _, _. apply Hrd.
Qed.

(** ** Algorithm names *)

(** X17. [algorithm_name] raises the type error for an argument that is
    no number, raises the argument error "expecting nlopt.algorithm"
    for an id below 0 or at or above the count sentinel, in both cases
    without asking the library and leaving the stack as it was, and
    otherwise pushes the name the library has for the id and returns
    it. *)
Theorem algorithm_name_checks_range (nlopt_algorithm_name : Z -> string) (w : world) :
  let v := index2adr 1 (stack w) in
  let i := lua_number2integer (tonumber v) in
  (isnumber v = false ->
   algorithm_name nlopt_algorithm_name w = Throw (TypeError 1 "number") w)
  /\ (isnumber v = true -> i < 0 \/ NLOPT_NUM_ALGORITHMS <= i ->
      algorithm_name nlopt_algorithm_name w
      = Throw (ArgError 1 "expecting nlopt.algorithm") w)
  /\ (isnumber v = true -> 0 <= i < NLOPT_NUM_ALGORITHMS ->
      algorithm_name nlopt_algorithm_name w
      = Ret 1 (set_stack (VString (nlopt_algorithm_name i) :: stack w) w)).
Proof.
  cbv zeta. split; [|split].
  - intros Hnum. unfold algorithm_name. cbn.
    assert (tonumber (index2adr 1 (stack w)) = 0) as ->.
    { unfold isnumber in Hnum. unfold tonumber.
      destruct (index2adr 1 (stack w)) as [[| | |s| | |]|]; try done.
      apply bool_decide_eq_false in Hnum.
      destruct (luaO_str2d s); [|done]. exfalso. apply Hnum. by eexists. }
    rewrite Hnum. by change (lua_number2integer 0) with 0.
  - intros Hnum Hi. pose proof (checkinteger_number 1 w Hnum) as C1.
    unfold algorithm_name. cbn -[luaL_checkinteger]. rewrite C1. cbn.
    destruct (Z.ltb_spec (lua_number2integer (tonumber (index2adr 1 (stack w)))) 0);
      [done|].
    destruct (Z.leb_spec NLOPT_NUM_ALGORITHMS
                (lua_number2integer (tonumber (index2adr 1 (stack w))))); [done|lia].
  - intros Hnum Hi. pose proof (checkinteger_number 1 w Hnum) as C1.
    unfold algorithm_name. cbn -[luaL_checkinteger]. rewrite C1. cbn.
    destruct (Z.ltb_spec (lua_number2integer (tonumber (index2adr 1 (stack w)))) 0);
      [lia|].
    destruct (Z.leb_spec NLOPT_NUM_ALGORITHMS
                (lua_number2integer (tonumber (index2adr 1 (stack w))))); [lia|].
    by destruct w.
Qed.

(** ** From the registered objective to the result of [optimize] *)

Lemma table_seq_heap_set_string r r' (s : string) v hp (n : nat) :
  table_seq (heap_set r (VString s) v hp !!! r') n = table_seq (hp !!! r') n.
Proof.
  unfold table_seq. apply list_fmap_ext. intros i k _.
  destruct (decide (r = r')) as [<-|Hne].
  - by apply tbl_get_heap_set_other.
  - unfold heap_set. by rewrite lookup_total_insert_ne.
Qed.

Lemma func_nograd_cps w n x p r t fid
    (P : outcome (lua_Number * option (list lua_Number)) -> Prop) :
  ctxs w !! p = Some (Ctx (Zpos r)) ->
  reg_refs w !! r = Some (VTable t) ->
  tbl_get (VString "f") (tables w !!! t) = VFunction fid ->
  0 <= n <= INT_MAX ->
  length x = Z.to_nat n ->
  (forall out xt hp,
      let args := [VNumber (cast_num n); VTable xt; VNil;
                   tbl_get (VString "f_data") (hp !!! t)] in
      table_seq (hp !!! xt) (Z.to_nat n) = VNumber <$> x ->
      (forall e hp', funs w fid args hp = (Raises e, hp') ->
         out = Ret (0, None)
                 (log (Ev_pcall (VFunction fid) args hp LUA_ERRRUN) (set_tables hp' w))) ->
      (forall vs hp', funs w fid args hp = (Returns vs, hp') ->
         out = Ret (tonumber (head vs), None)
                 (log (Ev_pcall (VFunction fid) args hp 0) (set_tables hp' w))) ->
      P out) ->
  P (func n x None (Some p) w).
Proof.
  destruct w as [S T F RR RN U C O MF TR]. cbn.
  intros Hctx Hreg Hf Hn Hx HP.
  unfold func. run. rewrite Hctx. run. unfold registry_get. cbn. rewrite Hreg. run.
  rewrite Hf. run.
  scratch_ok t. run. store_ok r0; [|lia]. run.
  eapply HP; cycle 1.
  - intros e hp' Hcall. cbn in Hcall. rewrite Hcall. run. reflexivity.
  - intros vs hp' Hcall. cbn in Hcall. rewrite Hcall. by destruct vs; run.
  - rewrite table_seq_heap_set_string, <- Hx.
    apply (store_seq_table_seq r0 (fun i => cast_int (i + 1)) x (length x)).
    + intros i Hi. apply cast_int_small. unfold INT_MAX in *. lia.
    + unfold INT_MAX in *. lia.
    + done.
Qed.

(** X18. [optimize] on a handle whose objective is a registered closure,
    when the algorithm evaluates the objective once at the start point,
    without a gradient, and stops with the status [ret] at the point
    [x1]: the start point is the numeric reading of entries 1..n of the
    argument table; the host callable is called once, with n, a table
    holding the start point, nil, and the user data of the record.  When
    it returns, [optimize] returns [ret] and the callable's first result
    as the objective value; when it raises, [optimize] does not raise
    but returns [ret] and the value 0.  In both cases entries 1..n of
    the argument table then hold [x1]. *)
Theorem optimize_calls_registered_objective (w : world) (u o r p t fid : N)
    (os : nlopt_opt_s) (ret : Z) (x1 : list lua_Number) :
  valid_handle w u o os ->
  0 <= o_n os <= INT_MAX ->
  o_f os = Some fn_func -> o_f_data os = Some p ->
  closure_record w p = Some t ->
  closure_field w t "f" = VFunction fid ->
  let n := Z.to_nat (o_n os) in
  let x0 := (fun v => tonumber (Some v)) <$> table_seq (tables w !!! r) n in
  nlopt_algorithm os x0 = Eval_f x0 None (fun v _ => Finish ret x1 (Some v)) ->
  length x1 = n ->
  exists xt hp,
    let args := [VNumber (cast_num (o_n os)); VTable xt; VNil;
                 tbl_get (VString "f_data") (hp !!! t)] in
    let outcome_is (st : Z) (value : lua_Number) :=
      exists w2,
        optimize (call [VUserdata u; VTable r] w) = Ret 2 w2
        /\ stack w2 = [VNumber value; VNumber (cast_num ret); VTable r; VUserdata u]
        /\ table_seq (tables w2 !!! r) n = VNumber <$> x1
        /\ trace w2 = trace w ++ [Ev_nlopt "nlopt_optimize" [] (Some x0);
                                  Ev_pcall (VFunction fid) args hp st] in
    table_seq (hp !!! xt) n = VNumber <$> x0
    /\ (forall vs hp', funs w fid args hp = (Returns vs, hp') ->
          outcome_is 0 (tonumber (head vs)))
    /\ (forall e hp', funs w fid args hp = (Raises e, hp') ->
          outcome_is LUA_ERRRUN 0).
Proof.
  intros Hh Hn Hof Hfd Hrec Hf n x0 Halg Hlen.
  destruct (closure_record_inv _ _ _ Hrec) as (rf & Hctx & Hreg).
  pose proof Hh as (mt & Hu & Hmt & Ho).
  set (wc := call [VUserdata u; VTable r] w).
  set (w0 := log (Ev_nlopt "nlopt_optimize" [] (Some x0)) wc).
  pose proof (designates_call_1 (VUserdata u) [VTable r] w) as D1.
  pose proof (designates_call_2 (VUserdata u) (VTable r) [] w) as D2.
  assert (Hh' : valid_handle wc u o os) by (by exists mt).
  assert (Hx0 : length x0 = Z.to_nat (o_n os)).
  { unfold x0, table_seq. by rewrite !length_fmap, length_seq. }
  assert (Hopt : nlopt_optimize (Some o) x0 indeterminate wc
                 = match func (o_n os) x0 None (Some p) w0 with
                   | Ret vg w' => Ret (ret, x1, vg.1) w'
                   | Throw e w' => Throw e w'
                   | Undefined => Undefined
                   end).
  { unfold nlopt_optimize. cbn. change (opts w !! o) with (opts w !! o).
    rewrite Ho. cbn. rewrite Halg. cbn. rewrite Ho. cbn. rewrite Hof, Hfd.
    fold w0. cbn. by destruct (func (o_n os) x0 None (Some p) w0) as [[]| |]. }
  assert (Hfin : forall hp hp' tr st value,
            nlopt_optimize (Some o) x0 indeterminate wc
            = Ret (ret, x1, value)
                  (log (Ev_pcall (VFunction fid) tr hp st) (set_tables hp' w0)) ->
            exists w2,
              optimize wc = Ret 2 w2
              /\ stack w2 = [VNumber value; VNumber (cast_num ret); VTable r; VUserdata u]
              /\ table_seq (tables w2 !!! r) n = VNumber <$> x1
              /\ trace w2 = trace w ++ [Ev_nlopt "nlopt_optimize" [] (Some x0);
                                        Ev_pcall (VFunction fid) tr hp st]).
  { intros hp hp' tr st value Hrun.
    destruct (optimize_run wc u o r os ret x1 value _ D1 D2 Hh' Hn Hrun Hlen)
      as [_ Hgo].
    eexists. split; [exact Hgo|]. split; [reflexivity|]. split.
    - cbn [tables set_stack set_tables log].
      apply store_seq_table_seq; [done| |done]. unfold INT_MAX in Hn. lia.
    - cbn. by rewrite <- app_assoc. }
  revert Hopt. pattern (func (o_n os) x0 None (Some p) w0).
  apply (func_nograd_cps w0 (o_n os) x0 p rf t fid); try done.
  intros out xt hp args Hseq Hraise Hret Hopt.
  exists xt, hp. split; [exact Hseq|]. split.
  - intros vs hp' Hcall. apply (Hfin hp hp' args 0).
    rewrite Hopt, (Hret vs hp' Hcall). reflexivity.
  - intros e hp' Hcall. apply (Hfin hp hp' args LUA_ERRRUN).
    rewrite Hopt, (Hraise e hp' Hcall). reflexivity.
Qed.

End Adapter.

(** * The concrete state *)

Lemma returned_Ret {A} (o : outcome A) (a : A) :
  returned o = Some a -> exists w, o = Ret a w.
Proof. destruct o as [a' w| |]; intros [= <-]. by exists w. Qed.

Lemma ex_ctxs_cases p c :
  ex_ctxs !! p = Some c ->
  (p = 0%N /\ c = Ctx 1) \/ (p = 1%N /\ c = Ctx 2) \/ (p = 2%N /\ c = Ctx 3).
Proof.
  unfold ex_ctxs. intros H.
  repeat (apply lookup_insert_Some in H as [[<- <-]|[? H]]; [by auto|]).
  by rewrite lookup_empty in H.
Qed.

Lemma ex_closure_record_cases p t :
  closure_record ex_world p = Some t ->
  (p = 0%N /\ t = 1%N) \/ (p = 1%N /\ t = 2%N) \/ (p = 2%N /\ t = 3%N).
Proof.
  unfold closure_record. change (ctxs ex_world) with ex_ctxs.
  destruct (ex_ctxs !! p) as [c|] eqn:E; [|done].
  destruct (ex_ctxs_cases p c E) as [[-> ->]|[[-> ->]|[-> ->]]];
    vm_compute; intros [= <-]; auto.
Qed.

Lemma ex_world_wf : closures_wf ex_world.
Proof.
  split; [split; [|split]|split].
  - intros p c H.
    destruct (ex_ctxs_cases p c H) as [[-> ->]|[[-> ->]|[-> ->]]].
    + exists 1%positive, 1%N. split; [done|]. split; [done|].
      apply elem_of_dom. by eexists.
    + exists 2%positive, 2%N. split; [done|]. split; [done|].
      apply elem_of_dom. by eexists.
    + exists 3%positive, 3%N. split; [done|]. split; [done|].
      apply elem_of_dom. by eexists.
  - intros p1 p2 c H1 H2.
    destruct (ex_ctxs_cases p1 c H1) as [[-> ->]|[[-> ->]|[-> ->]]],
             (ex_ctxs_cases p2 _ H2) as [[-> E]|[[-> E]|[-> E]]]; done.
  - intros p1 p2 t H1 H2.
    destruct (ex_closure_record_cases p1 t H1) as [[-> ->]|[[-> ->]|[-> ->]]],
             (ex_closure_record_cases p2 _ H2) as [[-> E]|[[-> E]|[-> E]]]; done.
  - intros o os H.
    change (opts ex_world) with ({[0%N := ex_os]} : gmap N nlopt_opt_s) in H.
    apply lookup_singleton_Some in H as [<- <-].
    split; [|split; [done|split; [done|]]].
    + change (closures_of ex_os) with [2%N; 0%N; 1%N].
      apply (bool_decide_unpack (NoDup [2%N; 0%N; 1%N])). vm_compute. exact I.
    + change (closures_of ex_os) with [2%N; 0%N; 1%N].
      apply Forall_forall. repeat constructor; by eexists.
  - intros o1 o2 os1 os2 p H1 H2 _ _.
    change (opts ex_world) with ({[0%N := ex_os]} : gmap N nlopt_opt_s) in H1, H2.
    apply lookup_singleton_Some in H1 as [<- _].
    by apply lookup_singleton_Some in H2 as [<- _].
Qed.

Lemma ex_handle : valid_handle ex_world 0 0 ex_os.
Proof. exists 0%N. by repeat split. Qed.

(** ** The claims at the concrete state *)

Lemma func_contains_callback_error_witness :
  closure_record ex_world 0 = Some 1%N
  /\ closure_field ex_world 1 "f" = VFunction 0
  /\ length [d_1_5; d_m2] = Z.to_nat 2
  /\ (forall g, Some [d_5; d_5] = Some g -> length g = Z.to_nat 2)
  /\ exists w',
       func ex_str2d 2 [d_1_5; d_m2] (Some [d_5; d_5]) (Some 0%N) ex_world
       = Ret (0, Some [d_5; d_5]) w'.
Proof.
  assert (H1 : closure_record ex_world 0 = Some 1%N) by reflexivity.
  assert (H2 : closure_field ex_world 1 "f" = VFunction 0) by reflexivity.
  assert (H3 : length [d_1_5; d_m2] = Z.to_nat 2) by reflexivity.
  assert (H4 : forall g, Some [d_5; d_5] = Some g -> length g = Z.to_nat 2).
  { intros g Hg. injection Hg as <-. reflexivity. }
  do 4 (split; [assumption|]).
  destruct (func_contains_callback_error ex_str2d ex_world 2 [d_1_5; d_m2]
              (Some [d_5; d_5]) 0 1 0 H1 H2 H3 H4) as (args & hp & Hraise & _).
  eexists. apply (Hraise (VString "boom") hp). reflexivity.
Defined.

Lemma trampoline_passes_nil_gradient_witness :
  closure_record ex_world 2 = Some 3%N
  /\ closure_field ex_world 3 "f" = VFunction 2
  /\ exists xt hp,
       (hp !!! 3%N) !! VString "grad" = None
       /\ func ex_str2d 2 [d_1_5; d_m2] None (Some 2%N) ex_world
          = Ret (d_7, None)
                (log (Ev_pcall (VFunction 2)
                        [VNumber (cast_num 2); VTable xt; VNil;
                         tbl_get (VString "f_data") (hp !!! 3%N)] hp 0)
                     (set_tables hp ex_world)).
Proof.
  assert (H1 : closure_record ex_world 2 = Some 3%N) by reflexivity.
  assert (H2 : closure_field ex_world 3 "f" = VFunction 2) by reflexivity.
  do 2 (split; [assumption|]).
  destruct (trampoline_passes_nil_gradient ex_str2d ex_world 2 3 2 H1 H2) as [Hf _].
  destruct (Hf 2 [d_1_5; d_m2] eq_refl) as (xt & hp & Hslot & Heq).
  exists xt, hp. split; [exact Hslot|exact Heq].
Defined.

Lemma create_checks_and_installs_hooks_witness :
  let w := call [VNumber (cast_num 1); VNumber (cast_num 2)] ex_world in
  isnumber ex_str2d (index2adr 1 (stack w)) = true
  /\ (exists w', create ex_str2d ex_num_algorithms w = Ret 1 w')
  /\ create ex_str2d ex_num_algorithms
        (call [VNumber (cast_num 43); VNumber (cast_num 2)] ex_world)
     = Throw (ArgError 1 "expecting nlopt.algorithm")
             (call [VNumber (cast_num 43); VNumber (cast_num 2)] ex_world).
Proof.
  intros w.
  assert (H1 : isnumber ex_str2d (index2adr 1 (stack w)) = true) by reflexivity.
  split; [assumption|]. split.
  - destruct (create_checks_and_installs_hooks ex_str2d ex_num_algorithms w H1)
      as [_ Hok].
    destruct Hok as (_ & _ & Hok);
      [reflexivity|vm_compute; split; [discriminate|reflexivity]|].
    destruct (Hok ltac:(vm_compute; discriminate) eq_refl 0%N eq_refl) as (_ & _ & Hrun).
    eexists. exact Hrun.
  - apply (create_checks_and_installs_hooks ex_str2d ex_num_algorithms
             (call [VNumber (cast_num 43); VNumber (cast_num 2)] ex_world)).
    + reflexivity.
    + right. vm_compute. discriminate.
Defined.

Lemma srand_checks_sign_and_forwards_witness :
  let w := call [VNumber (cast_num 5)] ex_world in
  isnumber ex_str2d (index2adr 1 (stack w)) = true
  /\ srand ex_str2d w = Ret 0 (log (Ev_nlopt "nlopt_srand" [5] None) w)
  /\ srand ex_str2d (call [VNumber (cast_num (-1))] ex_world)
     = Throw (ArgError 1 "expecting unsigned long")
             (call [VNumber (cast_num (-1))] ex_world).
Proof.
  intros w.
  assert (H1 : isnumber ex_str2d (index2adr 1 (stack w)) = true) by reflexivity.
  split; [assumption|]. split.
  - apply (proj2 (proj2 (srand_checks_sign_and_forwards ex_str2d w H1)) 5 eq_refl).
    vm_compute. split; [discriminate|reflexivity].
  - apply (proj2 (proj2 (srand_checks_sign_and_forwards ex_str2d
                           (call [VNumber (cast_num (-1))] ex_world) eq_refl))
             (-1) eq_refl).
    vm_compute. split; reflexivity.
Defined.

Lemma vector_bounds_round_trip_witness :
  valid_handle ex_world 0 0 ex_os
  /\ 0 <= o_n ex_os <= INT_MAX
  /\ length [d_1_5; d_m2] = Z.to_nat (o_n ex_os)
  /\ table_seq (tables ex_world !!! 4%N) (length [d_1_5; d_m2]) = VNumber <$> [d_1_5; d_m2]
  /\ roundtrips (set_lower_bounds ex_str2d ex_type_metatable) get_lower_bounds ex_world 0 4 [d_1_5; d_m2]
  /\ roundtrips (set_upper_bounds ex_str2d ex_type_metatable) get_upper_bounds ex_world 0 4 [d_1_5; d_m2]
  /\ roundtrips (set_xtol_abs ex_str2d ex_type_metatable) get_xtol_abs ex_world 0 4 [d_1_5; d_m2].
Proof.
  assert (H2 : 0 <= o_n ex_os <= INT_MAX) by (vm_compute; split; discriminate).
  assert (H3 : length [d_1_5; d_m2] = Z.to_nat (o_n ex_os)) by reflexivity.
  assert (H4 : table_seq (tables ex_world !!! 4%N) (length [d_1_5; d_m2])
               = VNumber <$> [d_1_5; d_m2]) by (vm_compute; reflexivity).
  split; [exact ex_handle|]. do 3 (split; [assumption|]).
  exact (vector_bounds_round_trip ex_str2d ex_type_metatable ex_world 0 0 4 ex_os [d_1_5; d_m2]
           ex_handle H2 H3 H4).
Defined.

Lemma optimize_returns_pair_and_writes_back_witness :
  valid_handle ex_world 0 0 ex_os
  /\ 0 <= o_n ex_os <= INT_MAX
  /\ (exists w1,
        nlopt_optimize ex_str2d ex_algorithm (Some 0%N) [d_1_5; d_m2] 0
          (call [VUserdata 0; VTable 4] ex_world)
        = Ret (NLOPT_SUCCESS, [d_1_5; d_m2], d_7) w1)
  /\ exists w2 junk,
       optimize ex_str2d ex_type_metatable ex_algorithm 0 (call [VUserdata 0; VTable 4] ex_world) = Ret 2 w2
       /\ stack w2 = VNumber d_7 :: VNumber (cast_num NLOPT_SUCCESS)
                     :: junk ++ [VTable 4; VUserdata 0]
       /\ table_seq (tables w2 !!! 4%N) 2 = VNumber <$> [d_1_5; d_m2].
Proof.
  assert (H2 : 0 <= o_n ex_os <= INT_MAX) by (vm_compute; split; discriminate).
  split; [exact ex_handle|]. split; [assumption|].
  destruct (returned_Ret
              (nlopt_optimize ex_str2d ex_algorithm (Some 0%N) [d_1_5; d_m2] 0
                 (call [VUserdata 0; VTable 4] ex_world))
              (NLOPT_SUCCESS, [d_1_5; d_m2], d_7)) as [w1 E];
    [vm_compute; reflexivity|].
  split; [exists w1; exact E|].
  exact (optimize_returns_pair_and_writes_back ex_str2d ex_type_metatable ex_algorithm 0 ex_world 0 0 4
           ex_os NLOPT_SUCCESS [d_1_5; d_m2] d_7 w1 ex_handle H2 E eq_refl).
Defined.

Lemma copy_reregisters_closures_witness :
  closures_wf ex_world
  /\ valid_handle ex_world 0 0 ex_os
  /\ malloc_fails ex_world = false
  /\ exists w1 u' o' os',
       copy (call [VUserdata 0] ex_world) = Ret 1 w1
       /\ valid_handle w1 u' o' os'
       /\ Forall2 (copied ex_world w1) [2%N; 0%N; 1%N] (closures_of os')
       /\ closures_wf w1.
Proof.
  split; [exact ex_world_wf|]. split; [exact ex_handle|]. split; [reflexivity|].
  destruct (copy_reregisters_closures ex_world 0 0 ex_os ex_world_wf ex_handle eq_refl)
    as (w1 & u' & o' & os' & R & _ & _ & _ & V & _ & _ & F & W & _).
  exists w1, u', o', os'.
  split; [exact R|]. split; [exact V|]. split; [exact F|exact W].
Defined.

Lemma destroy_and_clear_release_once_witness :
  closures_wf ex_world
  /\ valid_handle ex_world 0 0 ex_os
  /\ (exists w1,
        finalize_nlopt_opt_s (call [VUserdata 0] ex_world) = Ret 0 w1
        /\ released ex_world w1 [2%N; 0%N; 1%N])
  /\ (exists w1,
        remove_inequality_constraints (call [VUserdata 0] ex_world) = Ret 1 w1
        /\ released ex_world w1 [0%N])
  /\ (exists w1,
        remove_equality_constraints (call [VUserdata 0] ex_world) = Ret 1 w1
        /\ released ex_world w1 [1%N]).
Proof.
  split; [exact ex_world_wf|]. split; [exact ex_handle|].
  destruct (destroy_and_clear_release_once ex_world 0 0 ex_os ex_world_wf ex_handle)
    as ((w1 & R1 & _ & _ & L1 & _) & (w2 & R2 & _ & _ & L2 & _)
        & (w3 & R3 & _ & _ & L3 & _)).
  split; [exists w1; split; assumption|].
  split; [exists w2; split; assumption|exists w3; split; assumption].
Defined.

(** C10 as the claim words it fails on three seeds.  2^63 is a
    non-negative integer, and it is refused: its conversion to
    [lua_Integer] does not fit and gives the minimum integer.  -0.5 is
    negative, and it is not refused: it converts to 0, which is
    forwarded.  2^32 + 5 is forwarded as 5, the low 32 bits. *)
Lemma srand_seed_counterexample :
  srand ex_str2d (call [VNumber (cast_num (2 ^ 63))] ex_world)
  = Throw (ArgError 1 "expecting unsigned long")
          (call [VNumber (cast_num (2 ^ 63))] ex_world)
  /\ srand ex_str2d (call [VNumber d_m0_5] ex_world)
     = Ret 0 (log (Ev_nlopt "nlopt_srand" [0] None) (call [VNumber d_m0_5] ex_world))
  /\ srand ex_str2d (call [VNumber (cast_num (2 ^ 32 + 5))] ex_world)
     = Ret 0 (log (Ev_nlopt "nlopt_srand" [5] None)
                  (call [VNumber (cast_num (2 ^ 32 + 5))] ex_world)).
Proof. repeat split; vm_compute; reflexivity. Qed.

(** C2. [mfunc] on the vector constraint of the concrete state with
    m = 2 outputs over dimension n = 1 and a gradient buffer of
    m*n = 2 entries: the callable writes 10 and 20 into the results
    sequence and 30 and 40 into the gradient sequence. Both results
    reach the native buffer, but only the first n = 1 gradient entries
    do: the second keeps the value 5 it had before the call, although
    the gradient sequence holds 40 at index 2 when [mfunc] returns. *)
Theorem mfunc_copies_back_n_gradient_entries :
  observe (fun a w =>
             (a, match closure_field w 2 "grad" with
                 | VTable gt => table_seq (tables w !!! gt) 2
                 | _ => []
                 end))
          (mfunc ex_str2d 2 [0; 0] 1 [d_1_5] (Some [d_5; d_5]) (Some 1%N) ex_world)
  = Some (([d_10; d_20], Some [d_30; d_5]), [VNumber d_30; VNumber d_40]).
Proof. vm_compute. reflexivity. Qed.

(** C6. The vector-constraint registrations on the concrete handle with
    m = 2, a callable, nil user data and the tolerance table {1e-8, 1e-8}
    raise the argument error for position 5 and change nothing; with the
    tolerance left out they raise an error as well; with an explicit nil
    they return the status. *)
Theorem mconstraint_rejects_table_tolerance :
  let args := [VUserdata 0; VNumber (cast_num 2); VFunction 1; VNil] in
  add_inequality_mconstraint ex_str2d ex_type_metatable ex_constraint_check
    (call (args ++ [VTable 5]) ex_world)
  = Throw (ArgError 5 "expecting table or nil") (call (args ++ [VTable 5]) ex_world)
  /\ add_equality_mconstraint ex_str2d ex_type_metatable ex_constraint_check
       (call (args ++ [VTable 5]) ex_world)
     = Throw (ArgError 5 "expecting table or nil") (call (args ++ [VTable 5]) ex_world)
  /\ raised (add_inequality_mconstraint ex_str2d ex_type_metatable ex_constraint_check (call args ex_world))
     = Some (RuntimeError "attempt to index a non-table value")
  /\ raised (add_equality_mconstraint ex_str2d ex_type_metatable ex_constraint_check (call args ex_world))
     = Some (RuntimeError "attempt to index a non-table value")
  /\ returned (add_inequality_mconstraint ex_str2d ex_type_metatable ex_constraint_check
                 (call (args ++ [VNil]) ex_world)) = Some 1
  /\ returned (add_equality_mconstraint ex_str2d ex_type_metatable ex_constraint_check
                 (call (args ++ [VNil]) ex_world)) = Some 1.
Proof. cbv zeta. repeat split; vm_compute; reflexivity. Qed.

(** ** Further properties at the concrete state *)

Lemma ex_sized : sized ex_os.
Proof.
  split; [vm_compute; split; discriminate|]. intros []; reflexivity.
Qed.

Lemma methods_check_handle_witness :
  let w := call [VNumber (cast_num 1)] ex_world in
  is_handle w (index2adr 1 (stack w)) = false
  /\ Forall (fun f : M Z => f w = Throw (TypeError 1 nlopt_metaName) w)
       (handle_methods ex_str2d ex_type_metatable ex_constraint_check ex_algorithm 0).
Proof.
  intros w.
  assert (H1 : is_handle w (index2adr 1 (stack w)) = false) by reflexivity.
  split; [assumption|].
  exact (methods_check_handle ex_str2d ex_type_metatable ex_constraint_check ex_algorithm 0 w H1).
Defined.

Lemma type_errors_come_first_witness :
  let w := call [VUserdata 0; VNil] ex_world in
  is_handle w (index2adr 1 (stack w)) = true
  /\ type_of (index2adr 2 (stack w)) <> LUA_TFUNCTION
  /\ type_of (index2adr 2 (stack w)) <> LUA_TTABLE
  /\ isnumber ex_str2d (index2adr 2 (stack w)) = false
  /\ set_min_objective w = Throw (TypeError 2 "type") w
  /\ set_lower_bounds ex_str2d ex_type_metatable w = Throw (TypeError 2 "type") w
  /\ set_lower_bounds1 ex_str2d w = Throw (TypeError 2 "number") w.
Proof.
  intros w.
  assert (H1 : is_handle w (index2adr 1 (stack w)) = true) by reflexivity.
  assert (H2 : type_of (index2adr 2 (stack w)) <> LUA_TFUNCTION)
    by (vm_compute; discriminate).
  assert (H3 : type_of (index2adr 2 (stack w)) <> LUA_TTABLE)
    by (vm_compute; discriminate).
  assert (H4 : isnumber ex_str2d (index2adr 2 (stack w)) = false) by reflexivity.
  do 4 (split; [assumption|]).
  destruct (type_errors_come_first ex_str2d ex_type_metatable ex_constraint_check ex_algorithm 0 w H1)
    as (Hf & Ht & Hn).
  split; [exact (Forall_inv (Hf H2))|].
  split; [exact (Forall_inv (Ht H3))|exact (Forall_inv (Hn H4))].
Defined.

Lemma getter_returns_new_table_witness :
  valid_handle ex_world 0 0 ex_os
  /\ sized ex_os
  /\ exists w2,
       get_upper_bounds (call [VUserdata 0] ex_world) = Ret 2 w2
       /\ returns_vector ex_world w2 0 [HUGE_VAL; HUGE_VAL].
Proof.
  split; [exact ex_handle|]. split; [exact ex_sized|].
  destruct (getter_returns_new_table F_ub ex_world 0 0 ex_os ex_handle ex_sized)
    as (w2 & R & V & _).
  exists w2. split; [exact R|exact V].
Defined.

Lemma setter_pads_short_table_witness :
  let w := set_tables (<[6%N := {[VNumber (cast_num 1) := VNumber d_1_5]}]> ex_tables)
             ex_world in
  valid_handle w 0 0 ex_os
  /\ 0 <= o_n ex_os <= INT_MAX
  /\ (length [d_1_5] <= Z.to_nat (o_n ex_os))%nat
  /\ table_seq (tables w !!! 6%N) (length [d_1_5]) = VNumber <$> [d_1_5]
  /\ (forall i : nat, (length [d_1_5] <= i < Z.to_nat (o_n ex_os))%nat ->
        (tables w !!! 6%N) !! VNumber (cast_num (Z.of_nat i + 1)) = None)
  /\ exists w1,
       set_lower_bounds ex_str2d ex_type_metatable (call [VUserdata 0; VTable 6] w) = Ret 1 w1
       /\ opts w1 = <[0%N := with_lb [d_1_5; 0] ex_os]> (opts w).
Proof.
  intros w.
  assert (H1 : valid_handle w 0 0 ex_os) by (exists 0%N; by repeat split).
  assert (H2 : 0 <= o_n ex_os <= INT_MAX) by (vm_compute; split; discriminate).
  assert (H3 : (length [d_1_5] <= Z.to_nat (o_n ex_os))%nat) by (vm_compute; lia).
  assert (H4 : table_seq (tables w !!! 6%N) (length [d_1_5]) = VNumber <$> [d_1_5])
    by (vm_compute; reflexivity).
  assert (H5 : forall i : nat, (length [d_1_5] <= i < Z.to_nat (o_n ex_os))%nat ->
                 (tables w !!! 6%N) !! VNumber (cast_num (Z.of_nat i + 1)) = None).
  { intros i Hi. change (Z.to_nat (o_n ex_os)) with 2%nat in Hi. cbn [length] in Hi.
    assert (i = 1%nat) as -> by lia. vm_compute. reflexivity. }
  do 5 (split; [assumption|]).
  destruct (setter_pads_short_table ex_str2d ex_type_metatable F_lb w 0 0 6 ex_os [d_1_5] H1 H2 H3 H4 H5)
    as (w1 & R & _ & O & _).
  exists w1. split; [exact R|exact O].
Defined.

Lemma setter1_fills_vector_witness :
  valid_handle ex_world 0 0 ex_os
  /\ sized ex_os
  /\ exists w1,
       set_xtol_abs1 ex_str2d (call [VUserdata 0; VNumber d_1e_8] ex_world) = Ret 1 w1
       /\ opts w1 = <[0%N := with_xtol_abs [d_1e_8; d_1e_8] ex_os]> (opts ex_world)
       /\ exists w2,
            get_xtol_abs (call [VUserdata 0] w1) = Ret 2 w2
            /\ returns_vector w1 w2 0 [d_1e_8; d_1e_8].
Proof.
  split; [exact ex_handle|]. split; [exact ex_sized|].
  destruct (setter1_fills_vector ex_str2d F_xtol_abs ex_world 0 0 ex_os d_1e_8
              ex_handle ex_sized) as (w1 & R & _ & O & w2 & R2 & V2).
  exists w1. split; [exact R|]. split; [exact O|].
  exists w2. split; [exact R2|exact V2].
Defined.

Lemma new_handle_reports_arguments_witness :
  let w := call [VNumber (cast_num 1); VNumber (cast_num 2)] ex_world in
  isnumber ex_str2d (index2adr 1 (stack w)) = true
  /\ isnumber ex_str2d (index2adr 2 (stack w)) = true
  /\ 0 <= lua_number2integer (tonumber ex_str2d (index2adr 1 (stack w))) < ex_num_algorithms
  /\ 0 <= lua_number2integer (tonumber ex_str2d (index2adr 2 (stack w))) <= INT_MAX
  /\ malloc_fails w = false
  /\ reg_named w !! nlopt_metaName = Some (VTable 0)
  /\ exists w1 u o os,
       create ex_str2d ex_num_algorithms w = Ret 1 w1
       /\ valid_handle w1 u o os
       /\ closures_of os = []
       /\ get_dimension (call [VUserdata u] w1)
          = Ret 1 (set_stack [VNumber (cast_num 2); VUserdata u] w1).
Proof.
  intros w.
  assert (H1 : isnumber ex_str2d (index2adr 1 (stack w)) = true) by reflexivity.
  assert (H2 : isnumber ex_str2d (index2adr 2 (stack w)) = true) by reflexivity.
  assert (H3 : 0 <= lua_number2integer (tonumber ex_str2d (index2adr 1 (stack w)))
               < ex_num_algorithms) by (vm_compute; split; [discriminate|reflexivity]).
  assert (H4 : 0 <= lua_number2integer (tonumber ex_str2d (index2adr 2 (stack w)))
               <= INT_MAX) by (vm_compute; split; discriminate).
  assert (H5 : malloc_fails w = false) by reflexivity.
  assert (H6 : reg_named w !! nlopt_metaName = Some (VTable 0)) by reflexivity.
  do 6 (split; [assumption|]).
  destruct (new_handle_reports_arguments ex_str2d ex_num_algorithms w 0 H1 H2 H3 H4 H5 H6)
    as (w1 & u & o & os & R & _ & _ & _ & V & _ & C & _ & _ & D & _).
  exists w1, u, o, os. split; [exact R|]. split; [exact V|]. split; [exact C|exact D].
Defined.

Lemma func_returns_value_and_gradient_witness :
  closure_record ex_world 2 = Some 3%N
  /\ closure_field ex_world 3 "f" = VFunction 2
  /\ 0 <= 2 <= INT_MAX
  /\ length [d_1_5; d_m2] = Z.to_nat 2
  /\ length [d_5; d_5] = Z.to_nat 2
  /\ exists xt gt hp,
       table_seq (hp !!! gt) (Z.to_nat 2) = VNumber <$> [d_5; d_5]
       /\ func ex_str2d 2 [d_1_5; d_m2] (Some [d_5; d_5]) (Some 2%N) ex_world
          = Ret (d_7, Some [d_5; d_5])
                (log (Ev_pcall (VFunction 2)
                        [VNumber (cast_num 2); VTable xt; VTable gt;
                         tbl_get (VString "f_data") (hp !!! 3%N)] hp 0)
                     (set_tables hp ex_world)).
Proof.
  assert (H1 : closure_record ex_world 2 = Some 3%N) by reflexivity.
  assert (H2 : closure_field ex_world 3 "f" = VFunction 2) by reflexivity.
  assert (H3 : 0 <= 2 <= INT_MAX) by (vm_compute; split; discriminate).
  assert (H4 : length [d_1_5; d_m2] = Z.to_nat 2) by reflexivity.
  assert (H5 : length [d_5; d_5] = Z.to_nat 2) by reflexivity.
  do 5 (split; [assumption|]).
  destruct (func_returns_value_and_gradient ex_str2d ex_world 2 [d_1_5; d_m2] [d_5; d_5]
              2 3 2 H1 H2 H3 H4 H5) as (xt & gt & hp & Hseq & Hslot & Hret).
  exists xt, gt, hp. split; [exact Hseq|].
  rewrite (Hret [VNumber d_7] hp gt eq_refl Hslot), Hseq. reflexivity.
Defined.

Lemma mfunc_contains_callback_error_witness :
  closure_record ex_world 0 = Some 1%N
  /\ closure_field ex_world 1 "f" = VFunction 0
  /\ length [0; 0] = Z.to_nat 2
  /\ length [d_1_5] = Z.to_nat 1
  /\ (forall g, Some [d_5; d_5] = Some g -> length g = Z.to_nat (cast_unsigned (1 * 2)))
  /\ exists w',
       mfunc ex_str2d 2 [0; 0] 1 [d_1_5] (Some [d_5; d_5]) (Some 0%N) ex_world
       = Ret ([0; 0], Some [d_5; d_5]) w'.
Proof.
  assert (H1 : closure_record ex_world 0 = Some 1%N) by reflexivity.
  assert (H2 : closure_field ex_world 1 "f" = VFunction 0) by reflexivity.
  assert (H3 : length [0; 0] = Z.to_nat 2) by reflexivity.
  assert (H4 : length [d_1_5] = Z.to_nat 1) by reflexivity.
  assert (H5 : forall g, Some [d_5; d_5] = Some g ->
                 length g = Z.to_nat (cast_unsigned (1 * 2))).
  { intros g Hg. injection Hg as <-. reflexivity. }
  do 5 (split; [assumption|]).
  destruct (mfunc_contains_callback_error ex_str2d ex_world 2 1 [0; 0] [d_1_5]
              (Some [d_5; d_5]) 0 1 0 H1 H2 H3 H4 H5) as (args & hp & Hraise & _).
  eexists. apply (Hraise (VString "boom") hp). reflexivity.
Defined.

Lemma mfunc_returns_results_on_deeper_stack_witness :
  closure_record ex_world 2 = Some 3%N
  /\ closure_field ex_world 3 "f" = VFunction 2
  /\ 1 <= 2 <= INT_MAX /\ 0 <= 1 <= INT_MAX /\ 1 * 2 < 2 ^ 32
  /\ length [d_5; d_5] = Z.to_nat 2
  /\ length [d_1_5] = Z.to_nat 1
  /\ (forall g, @None (list lua_Number) = Some g -> length g = Z.to_nat (1 * 2))
  /\ exists res w',
       mfunc ex_str2d 2 [d_5; d_5] 1 [d_1_5] None (Some 2%N) ex_world
       = Ret (res, None) w'
       /\ stack w' = [VTable 3].
Proof.
  assert (H1 : closure_record ex_world 2 = Some 3%N) by reflexivity.
  assert (H2 : closure_field ex_world 3 "f" = VFunction 2) by reflexivity.
  assert (H3 : 1 <= 2 <= INT_MAX) by (vm_compute; split; discriminate).
  assert (H4 : 0 <= 1 <= INT_MAX) by (vm_compute; split; discriminate).
  assert (H5 : 1 * 2 < 2 ^ 32) by reflexivity.
  assert (H6 : length [d_5; d_5] = Z.to_nat 2) by reflexivity.
  assert (H7 : length [d_1_5] = Z.to_nat 1) by reflexivity.
  assert (H8 : forall g, @None (list lua_Number) = Some g ->
                 length g = Z.to_nat (1 * 2)) by discriminate.
  do 8 (split; [assumption|]).
  destruct (mfunc_returns_results_on_deeper_stack ex_str2d ex_world 2 1 [d_5; d_5]
              [d_1_5] None 2 3 2 H1 H2 H3 H4 H5 H6 H7 H8)
    as (rt & xt & garg & hp & Hslot & Hret).
  eexists _, _. split.
  - apply (Hret [VNumber d_7] hp rt 0%N eq_refl Hslot). by intros [? [=]].
  - reflexivity.
Defined.

Lemma set_objective_replaces_record_witness :
  closures_wf ex_world
  /\ valid_handle ex_world 0 0 ex_os
  /\ exists w1,
       set_min_objective (call [VUserdata 0; VFunction 2; VString "ud2"] ex_world)
       = Ret 1 w1
       /\ closure_view w1 (fresh (dom (ctxs ex_world)))
          = Some (VFunction 2, VString "ud2")
       /\ released (registered (VFunction 2) (VString "ud2")
                      (call [VUserdata 0; VFunction 2; VString "ud2"] ex_world))
                   w1 [2%N]
       /\ closures_wf w1.
Proof.
  split; [exact ex_world_wf|]. split; [exact ex_handle|].
  destruct (set_objective_replaces_record false ex_world 0 0 2 ex_os [VString "ud2"]
              ex_world_wf ex_handle) as (w1 & R & _ & _ & V & L & W & _).
  exists w1. split; [exact R|]. split; [exact V|]. split; [exact L|exact W].
Defined.

Lemma add_constraint_holds_or_releases_witness :
  closures_wf ex_world
  /\ valid_handle ex_world 0 0 ex_os
  /\ exists w1 os1,
       add_inequality_constraint ex_str2d ex_constraint_check
         (call [VUserdata 0; VFunction 2; VNil; VNumber d_1e_8] ex_world) = Ret 1 w1
       /\ closures_wf w1
       /\ valid_handle w1 0 0 os1
       /\ length (o_fc os1) = 2%nat.
Proof.
  split; [exact ex_world_wf|]. split; [exact ex_handle|].
  destruct (add_constraint_holds_or_releases ex_str2d ex_constraint_check false
              ex_world 0 0 2 ex_os [VNil; VNumber d_1e_8] ex_world_wf ex_handle)
    as (w1 & R & _ & W & _ & _ & V & _).
  eexists w1, _. split; [exact R|]. split; [exact W|]. split; [exact V|reflexivity].
Defined.

Lemma add_mconstraint_with_nil_tolerance_witness :
  closures_wf ex_world
  /\ valid_handle ex_world 0 0 ex_os
  /\ exists w1 os1,
       add_equality_mconstraint ex_str2d ex_type_metatable ex_constraint_check
         (call [VUserdata 0; VNumber (cast_num 2); VFunction 1; VString "ud"; VNil]
               ex_world) = Ret 1 w1
       /\ closures_wf w1
       /\ valid_handle w1 0 0 os1
       /\ length (o_h os1) = 2%nat.
Proof.
  split; [exact ex_world_wf|]. split; [exact ex_handle|].
  destruct (add_mconstraint_with_nil_tolerance ex_str2d ex_type_metatable ex_constraint_check true
              ex_world 0 0 1 ex_os (cast_num 2) (VString "ud") [] ex_world_wf ex_handle)
    as (w1 & R & _ & W & _ & _ & V & _).
  eexists w1, _. split; [exact R|]. split; [exact W|]. split; [exact V|reflexivity].
Defined.

Lemma copy_out_of_memory_witness :
  let w := World [] ex_tables ex_host ex_reg_refs {[nlopt_metaName := VTable 0]}
             {[0%N := Holder (Some 0%N) (Some 0%N)]} ex_ctxs {[0%N := ex_os]} true [] in
  valid_handle w 0 0 ex_os
  /\ malloc_fails w = true
  /\ copy (call [VUserdata 0] w)
     = Throw (RuntimeError "nlopt_copy out of memory")
             (log (Ev_nlopt "nlopt_copy" [] None) (call [VUserdata 0] w)).
Proof.
  intros w.
  assert (H1 : valid_handle w 0 0 ex_os) by (exists 0%N; by repeat split).
  assert (H2 : malloc_fails w = true) by reflexivity.
  do 2 (split; [assumption|]).
  exact (copy_out_of_memory w 0 0 ex_os H1 H2).
Defined.

Lemma copy_has_own_vectors_witness :
  closures_wf ex_world
  /\ valid_handle ex_world 0 0 ex_os
  /\ sized ex_os
  /\ malloc_fails ex_world = false
  /\ exists w1 u' o' os',
       copy (call [VUserdata 0] ex_world) = Ret 1 w1
       /\ u' <> 0%N
       /\ valid_handle w1 u' o' os'
       /\ o_lb os' = [neg_HUGE_VAL; neg_HUGE_VAL]
       /\ exists w2,
            set_lower_bounds1 ex_str2d (call [VUserdata u'; VNumber d_5] w1) = Ret 1 w2
            /\ opts w2 !! 0%N = Some ex_os.
Proof.
  split; [exact ex_world_wf|]. split; [exact ex_handle|]. split; [exact ex_sized|].
  split; [reflexivity|].
  destruct (copy_has_own_vectors ex_str2d F_lb ex_world 0 0 ex_os d_5 ex_world_wf
              ex_handle ex_sized eq_refl)
    as (w1 & u' & o' & os' & R & Hu & _ & V & _ & _ & _ & E & w2 & R2 & O2 & _).
  exists w1, u', o', os'. split; [exact R|]. split; [exact Hu|]. split; [exact V|].
  split; [exact (E F_lb)|]. exists w2. split; [exact R2|exact O2].
Defined.

Lemma trampolines_skip_missing_callable_witness :
  let w := set_tables (<[1%N := ∅]> ex_tables) ex_world in
  closure_record w 0 = Some 1%N
  /\ type_of (Some (closure_field w 1 "f")) <> LUA_TFUNCTION
  /\ func ex_str2d 2 [d_1_5; d_m2] (Some [d_5; d_5]) (Some 0%N) w
     = Ret (0, Some [d_5; d_5]) w
  /\ mfunc ex_str2d 2 [d_10; d_20] 2 [d_1_5; d_m2] None (Some 0%N) w
     = Ret ([d_10; d_20], None) w.
Proof.
  intros w.
  assert (H1 : closure_record w 0 = Some 1%N) by reflexivity.
  assert (H2 : type_of (Some (closure_field w 1 "f")) <> LUA_TFUNCTION)
    by (vm_compute; discriminate).
  do 2 (split; [assumption|]).
  split.
  - exact (proj1 (trampolines_skip_missing_callable ex_str2d w 2 2 [d_10; d_20]
                    [d_1_5; d_m2] (Some [d_5; d_5]) 0 1 H1 H2)).
  - exact (proj1 (proj2 (trampolines_skip_missing_callable ex_str2d w 2 2 [d_10; d_20]
                           [d_1_5; d_m2] None 0 1 H1 H2))).
Defined.

Lemma add_mconstraint_bad_tolerance_leaks_witness :
  let args := [VUserdata 0; VNumber (cast_num 2); VFunction 1; VNil; VNumber d_1e_8] in
  closures_wf ex_world
  /\ valid_handle ex_world 0 0 ex_os
  /\ 1 <= cast_int (lua_number2integer (cast_num 2))
  /\ type_of ([VNil; VNumber d_1e_8] !! 1%nat) <> LUA_TNIL
  /\ type_of ([VNil; VNumber d_1e_8] !! 1%nat) <> LUA_TTABLE
  /\ metamethod ex_type_metatable "__index"
       (registered (VFunction 1) VNil (call args ex_world))
       (default VNil (index2adr 5 (VNumber (cast_num 1) :: reverse args))) = VNil
  /\ exists w',
       add_inequality_mconstraint ex_str2d ex_type_metatable ex_constraint_check
         (call args ex_world)
       = Throw (RuntimeError "attempt to index a non-table value") w'
       /\ opts w' = opts ex_world
       /\ is_Some (ctxs w' !! fresh (dom (ctxs ex_world))).
Proof.
  intros args.
  assert (H3 : 1 <= cast_int (lua_number2integer (cast_num 2)))
    by (vm_compute; discriminate).
  assert (H4 : type_of ([VNil; VNumber d_1e_8] !! 1%nat) <> LUA_TNIL)
    by (vm_compute; discriminate).
  assert (H5 : type_of ([VNil; VNumber d_1e_8] !! 1%nat) <> LUA_TTABLE)
    by (vm_compute; discriminate).
  assert (H6 : metamethod ex_type_metatable "__index"
                 (registered (VFunction 1) VNil (call args ex_world))
                 (default VNil (index2adr 5 (VNumber (cast_num 1) :: reverse args)))
               = VNil) by reflexivity.
  split; [exact ex_world_wf|]. split; [exact ex_handle|].
  do 4 (split; [assumption|]).
  destruct (add_mconstraint_bad_tolerance_leaks ex_str2d ex_type_metatable
              ex_constraint_check false ex_world 0 0 1 ex_os (cast_num 2)
              [VNil; VNumber d_1e_8] ex_world_wf ex_handle H3 H4 H5 H6) as (R & O & _).
  eexists. split; [exact R|]. split; [exact O|].
  apply lookup_insert_is_Some. by left.
Defined.

Lemma algorithm_name_checks_range_witness :
  let names : Z -> string := fun _ => "an algorithm" in
  let w := call [VNumber (cast_num 1)] ex_world in
  isnumber ex_str2d (index2adr 1 (stack w)) = true
  /\ 0 <= lua_number2integer (tonumber ex_str2d (index2adr 1 (stack w))) < ex_num_algorithms
  /\ algorithm_name ex_str2d ex_num_algorithms names w
     = Ret 1 (set_stack [VString "an algorithm"; VNumber (cast_num 1)] w)
  /\ algorithm_name ex_str2d ex_num_algorithms names (call [VNil] ex_world)
     = Throw (TypeError 1 "number") (call [VNil] ex_world).
Proof.
  intros names w.
  assert (H1 : isnumber ex_str2d (index2adr 1 (stack w)) = true) by reflexivity.
  assert (H2 : 0 <= lua_number2integer (tonumber ex_str2d (index2adr 1 (stack w)))
               < ex_num_algorithms) by (vm_compute; split; [discriminate|reflexivity]).
  do 2 (split; [assumption|]).
  split.
  - exact (proj2 (proj2 (algorithm_name_checks_range ex_str2d ex_num_algorithms names w))
             H1 H2).
  - exact (proj1 (algorithm_name_checks_range ex_str2d ex_num_algorithms names
                    (call [VNil] ex_world)) eq_refl).
Defined.

Lemma optimize_calls_registered_objective_witness :
  valid_handle ex_world 0 0 ex_os
  /\ 0 <= o_n ex_os <= INT_MAX
  /\ o_f ex_os = Some fn_func /\ o_f_data ex_os = Some 2%N
  /\ closure_record ex_world 2 = Some 3%N
  /\ closure_field ex_world 3 "f" = VFunction 2
  /\ ex_algorithm ex_os [d_1_5; d_m2]
     = Eval_f [d_1_5; d_m2] None (fun v _ => Finish NLOPT_SUCCESS [d_1_5; d_m2] (Some v))
  /\ length [d_1_5; d_m2] = Z.to_nat (o_n ex_os)
  /\ exists w2,
       optimize ex_str2d ex_type_metatable ex_algorithm 0 (call [VUserdata 0; VTable 4] ex_world) = Ret 2 w2
       /\ stack w2 = [VNumber d_7; VNumber (cast_num NLOPT_SUCCESS); VTable 4; VUserdata 0]
       /\ table_seq (tables w2 !!! 4%N) 2 = VNumber <$> [d_1_5; d_m2].
Proof.
  assert (H2 : 0 <= o_n ex_os <= INT_MAX) by (vm_compute; split; discriminate).
  assert (H3 : o_f ex_os = Some fn_func) by reflexivity.
  assert (H4 : o_f_data ex_os = Some 2%N) by reflexivity.
  assert (H5 : closure_record ex_world 2 = Some 3%N) by reflexivity.
  assert (H6 : closure_field ex_world 3 "f" = VFunction 2) by reflexivity.
  assert (H7 : ex_algorithm ex_os
                 ((fun v => tonumber ex_str2d (Some v)) <$>
                  table_seq (tables ex_world !!! 4%N) (Z.to_nat (o_n ex_os)))
               = Eval_f ((fun v => tonumber ex_str2d (Some v)) <$>
                         table_seq (tables ex_world !!! 4%N) (Z.to_nat (o_n ex_os)))
                   None (fun v _ => Finish NLOPT_SUCCESS [d_1_5; d_m2] (Some v)))
    by (vm_compute; reflexivity).
  assert (H8 : length [d_1_5; d_m2] = Z.to_nat (o_n ex_os)) by reflexivity.
  split; [exact ex_handle|]. do 5 (split; [assumption|]).
  split; [reflexivity|]. split; [assumption|].
  destruct (optimize_calls_registered_objective ex_str2d ex_type_metatable ex_algorithm 0 ex_world 0 0 4 2 3
              2 ex_os NLOPT_SUCCESS [d_1_5; d_m2] ex_handle H2 H3 H4 H5 H6 H7 H8)
    as (xt & hp & _ & Hret & _).
  destruct (Hret [VNumber d_7] hp eq_refl) as (w2 & R & S & T & _).
  exists w2. split; [exact R|]. split; [exact S|exact T].
Defined.

(** The same registration with a tolerance that can be indexed, an
    optimiser object whose metatable has a table under [__index], or a
    string where strings have such a metatable: every entry reads nil,
    the library is asked with the tolerance {0, 0} and the status is
    returned. *)
Lemma mconstraint_tolerance_through_index :
  let methods := <[0%N := {[VString "__index" := VTable 7]}]> (<[7%N := ∅]> ex_tables) in
  let strings : Z -> option N := fun t => if t =? LUA_TSTRING then Some 0%N else None in
  let w := set_tables methods ex_world in
  let args := [VUserdata 0; VNumber (cast_num 2); VFunction 1; VNil] in
  observe (fun a w' => (a, trace w'))
    (add_inequality_mconstraint ex_str2d ex_type_metatable ex_constraint_check
       (call (args ++ [VUserdata 0]) w))
  = Some (1, [Ev_nlopt "nlopt_add_constraint" [2] (Some [0; 0])])
  /\ observe (fun a w' => (a, trace w'))
       (add_inequality_mconstraint ex_str2d strings ex_constraint_check
          (call (args ++ [VString "x"]) w))
     = Some (1, [Ev_nlopt "nlopt_add_constraint" [2] (Some [0; 0])]).
Proof. cbv zeta. split; vm_compute; reflexivity. Qed.
